(** * bullet-mcp: the scoring engine of [BulletServer], embedded and verified

    The development follows [server.ts] (the sections-capable engine), with
    [constants.ts] and [types.ts].  JavaScript numbers that the engine
    manipulates are integers and are modelled in [Z]; texts are sequences of
    UTF-16 code units, of which the model covers the code units below 256
    (the type [ascii]); arrays are lists; the insertion-ordered [Map]s of the
    source are association lists, because their iteration order is
    observable; a thrown exception is the [Throw] branch of [Result]. *)

From Stdlib Require Import ZArith List String Ascii Bool Lia.
From Stdlib Require Import Numbers.DecimalString.
From Stdlib Require Import Sorting.Permutation.
Import ListNotations.

Set Warnings "-register-all".

Open Scope string_scope.
Open Scope list_scope.
Open Scope Z_scope.

(** ** JavaScript primitives used by the engine *)

Module JS.

(** [Math.round (p / q)] for integers [p] and [q > 0]: the nearest integer,
    halves going up, that is [floor (p/q + 1/2)].  The source divides in
    binary64, where the quotient carries a relative error of at most 2^-53.
    A quotient that is exactly a half-integer is represented exactly and
    rounds up in both worlds; any other quotient is at least [1/(2q)] away
    from a half-integer, far more than the error for the points, character
    counts and section counts the engine divides, so the rounded results
    agree.  The only call that could divide by zero is the mean over an empty
    list of sections, and that analysis throws before the quotient is used
    (see [generateSectionedSummary]). *)
Definition roundDiv (p q : Z) : Z := (2 * p + q) / (2 * q).

(** [Math.ceil (p / q)] for [q > 0]. *)
Definition ceilDiv (p q : Z) : Z := (p + q - 1) / q.

(** [`${n}`] for an integer [n]. *)
Definition showZ (n : Z) : string := NilZero.string_of_int (Z.to_int n).

Definition code (c : ascii) : N := N_of_ascii c.

Definition between (lo hi n : N) : bool := (N.leb lo n && N.leb n hi)%bool.

(** White space as [trim] and the regular expression class [\s] see it. *)
Definition isWhiteSpace (c : ascii) : bool :=
  (between 9 13 (code c) || N.eqb (code c) 32 || N.eqb (code c) 160)%bool.

(** One code unit of [toLowerCase]. *)
Definition lowerChar (c : ascii) : ascii :=
  let n := code c in
  if (between 65 90 n || (between 192 222 n && negb (N.eqb n 215)))%bool
  then ascii_of_N (n + 32) else c.

(** [c === c.toUpperCase()] for a one-unit string [c]. *)
Definition isOwnUpperCase (c : ascii) : bool :=
  let n := code c in
  negb (between 97 122 n || (between 224 255 n && negb (N.eqb n 247))
        || N.eqb n 181 || N.eqb n 223)%bool.

(** The class [[a-z]]. *)
Definition isLowerAZ (c : ascii) : bool := between 97 122 (code c).

Fixpoint mapChars (f : ascii -> ascii) (s : string) : string :=
  match s with
  | EmptyString => EmptyString
  | String c s' => String (f c) (mapChars f s')
  end.

Fixpoint filterChars (f : ascii -> bool) (s : string) : string :=
  match s with
  | EmptyString => EmptyString
  | String c s' => if f c then String c (filterChars f s') else filterChars f s'
  end.

Definition toLowerCase (s : string) : string := mapChars lowerChar s.

Fixpoint trimStart (s : string) : string :=
  match s with
  | EmptyString => EmptyString
  | String c s' => if isWhiteSpace c then trimStart s' else s
  end.

Fixpoint trimEnd (s : string) : string :=
  match s with
  | EmptyString => EmptyString
  | String c s' =>
      match trimEnd s' with
      | EmptyString => if isWhiteSpace c then EmptyString else String c EmptyString
      | t => String c t
      end
  end.

Definition trim (s : string) : string := trimEnd (trimStart s).

Definition startsWithSpace (s : string) : bool :=
  match s with
  | EmptyString => false
  | String c _ => isWhiteSpace c
  end.

(** [s.split(/\s+/)]: the pieces between maximal runs of white space; a run
    at either end leaves an empty piece there, and the empty string splits
    into one empty piece. *)
Fixpoint splitSpaces (s : string) : list string :=
  match s with
  | EmptyString => [EmptyString]
  | String c s' =>
      if isWhiteSpace c then
        if startsWithSpace s' then splitSpaces s' else EmptyString :: splitSpaces s'
      else
        match splitSpaces s' with
        | [] => [String c EmptyString]
        | w :: ws => String c w :: ws
        end
  end.

(** [parts.join(sep)]. *)
Fixpoint join (sep : string) (parts : list string) : string :=
  match parts with
  | [] => EmptyString
  | [p] => p
  | p :: ps => p ++ sep ++ join sep ps
  end.

(** [s.includes(sub)]. *)
Fixpoint includes (sub s : string) : bool :=
  (String.prefix sub s ||
   match s with
   | EmptyString => false
   | String _ s' => includes sub s'
   end)%bool.

(** [s.endsWith(suffix)]. *)
Definition endsWith (suffix s : string) : bool :=
  let n := String.length s in
  let k := String.length suffix in
  (Nat.leb k n && String.eqb (String.substring (n - k) k s) suffix)%bool.

(** [s[0]] and [s[s.length - 1]]; [None] is [undefined]. *)
Definition firstChar (s : string) : option ascii := String.get 0 s.

Fixpoint lastChar (s : string) : option ascii :=
  match s with
  | EmptyString => None
  | String c EmptyString => Some c
  | String _ s' => lastChar s'
  end.

(** [s.length] as a number. *)
Definition len (s : string) : Z := Z.of_nat (String.length s).

(** The double-quote character. *)
Definition dq : string := String (ascii_of_nat 34) EmptyString.

(** A template literal: its pieces, concatenated. *)
Definition template (pieces : list string) : string := String.concat EmptyString pieces.

(** Truthiness of an optional string property: present and not empty. *)
Definition truthy (o : option string) : bool :=
  match o with
  | Some s => negb (String.eqb s EmptyString)
  | None => false
  end.

End JS.

(** Outcome of a call that may throw. *)
Inductive Result (A : Type) : Type :=
| Ok (a : A)
| Throw (message : string).
Arguments Ok {A} a.
Arguments Throw {A} message.

Definition bind {A B : Type} (r : Result A) (k : A -> Result B) : Result B :=
  match r with
  | Ok a => k a
  | Throw m => Throw m
  end.

Notation "'try!' x <- r ; k" := (bind r (fun x => k))
  (at level 10, x name, r at level 100, k at level 200).

(** ** Data model ([types.ts])

    The [types.ts] at hand is the one of the flat-only engine.  The types
    that only the sections-capable engine imports ([BulletSection],
    [SectionScore], [StructuredBulletList], and the sectioned fields of
    [BulletInput] and [BulletAnalysis]) are written from the data model of
    the specification and from the object literals of [server.ts]. *)

Inductive Importance : Type := high | medium | low.

Inductive Context : Type := document | presentation | reference.

Inductive Severity : Type := error | warning | suggestion.

Inductive Grade : Type := A | B | C | D | F.

Inductive ContextFit : Type := excellent | good | poor.

(** A bullet item; [children] and [importance] are optional properties. *)
Inductive BulletItem : Type :=
  mkItem { text : string;
           children : option (list BulletItem);
           importance : option Importance }.

Module Section.
(** Modelled from the spec: the declaration of [BulletSection], a titled
    group of items with optional description, intro and context override;
    the fields are the ones [analyzeSections] reads. *)
Record t : Type :=
  mk { title : string;
       description : option string;
       intro : option string;
       items : list BulletItem;
       context : option Context }.
End Section.
Abbreviation BulletSection := Section.t.

Module Issue.
Record t : Type :=
  mk { rule : string;
       severity : Severity;
       message : string;
       item_index : option Z;
       suggestion : option string;
       research_basis : option string }.
End Issue.
Abbreviation ValidationIssue := Issue.t.

Module Rule.
Record t : Type :=
  mk { rule : string;
       max_points : Z;
       earned_points : Z;
       issues : list ValidationIssue }.
End Rule.
Abbreviation RuleScore := Rule.t.

Module SectionScore.
(** Modelled from the spec: the declaration of [SectionScore]; the fields are
    the ones of the object literal that [analyzeSections] pushes. *)
Record t : Type :=
  mk { title : string;
       description : option string;
       intro : option string;
       score : Z;
       grade : Grade;
       item_count : Z;
       issues : list ValidationIssue;
       context : Context }.
End SectionScore.

Module Improvements.
(** Modelled from the spec: the declaration of [StructuredBulletList]; the
    fields are the ones of the object literal that [getTopImprovements]
    returns. *)
Record t : Type :=
  mk { title : string;
       description : string;
       intro : string;
       items : list string }.
End Improvements.
Abbreviation StructuredBulletList := Improvements.t.

Module Analysis.
(** [BulletAnalysis].  Modelled from the spec: the optional [title],
    [description], [intro] and [section_scores], and [top_improvements] as a
    [StructuredBulletList], which the sections-capable engine adds to the
    declaration at hand. *)
Record t : Type :=
  mk { title : option string;
       description : option string;
       intro : option string;
       overall_score : Z;
       grade : Grade;
       scores : list RuleScore;
       errors : list ValidationIssue;
       warnings : list ValidationIssue;
       suggestions : list ValidationIssue;
       summary : string;
       top_improvements : StructuredBulletList;
       item_count : Z;
       max_depth : Z;
       avg_line_length : Z;
       context_fit : ContextFit;
       context_feedback : option string;
       section_scores : option (list SectionScore.t) }.
End Analysis.
Abbreviation BulletAnalysis := Analysis.t.

(** [BulletConfig.validation]; the display part plays no role in the engine. *)
Record BulletConfig : Type :=
  mkConfig { strictMode : bool;
             enableResearchCitations : bool }.

Definition Severity_eqb (a b : Severity) : bool :=
  match a, b with
  | error, error | warning, warning | suggestion, suggestion => true
  | _, _ => false
  end.

(** ** Constants ([constants.ts]) *)

Module LIST_LENGTH.
Definition MIN_ITEMS : Z := 3.
Definition OPTIMAL_ITEMS : Z := 5.
Definition MAX_ITEMS : Z := 7.
Definition HARD_MAX_ITEMS : Z := 9.
Definition POINTS : Z := 20.
End LIST_LENGTH.

Module HIERARCHY.
Definition MAX_DEPTH : Z := 2.
Definition HARD_MAX_DEPTH : Z := 3.
Definition POINTS : Z := 15.
End HIERARCHY.

Module LINE_LENGTH.
Definition MIN_CHARS : Z := 40.
Definition OPTIMAL_MAX_CHARS : Z := 75.
Definition HARD_MAX_CHARS : Z := 80.
Definition POINTS : Z := 15.
End LINE_LENGTH.

Module SERIAL_POSITION.
Definition PRIMACY_ZONE : Z := 2.
Definition RECENCY_ZONE : Z := 1.
Definition POINTS : Z := 15.
End SERIAL_POSITION.

Module STRUCTURE.
Definition POINTS : Z := 20.
End STRUCTURE.

Module FIRST_WORDS.
Definition CRITICAL_WORD_COUNT : nat := 2.
Definition POINTS : Z := 10.
End FIRST_WORDS.

Module FORMATTING.
Definition POINTS : Z := 5.
End FORMATTING.

Module GRADES.
Definition A : Z := 90.
Definition B : Z := 80.
Definition C : Z := 70.
Definition D : Z := 60.
End GRADES.

Module RESEARCH_CITATIONS.
Definition LIST_LENGTH : string :=
  "Miller (1956), Cowan (2001): Working memory capacity 3-4 chunks; Columbia Business School: >3-4 key points decrease comprehension".
Definition HIERARCHY : string :=
  "Kiger (1984), Zaphiris (2000), Nielsen: 2-level structures show fastest performance; >3 levels drops comprehension substantially".
Definition LINE_LENGTH : string :=
  "Typography research: 45-75 chars optimal, 66 ideal; <40 causes excessive eye movements, >80 makes line tracking difficult".
Definition SERIAL_POSITION : string :=
  "Ebbinghaus (1885), Murdock (1962): U-shaped retention curve; items at beginning and end recalled significantly better than middle".
Definition STRUCTURE : string :=
  "Frazier et al. (1984): Parallel grammatical structure enables significantly faster reading through processing facilitation".
Definition FIRST_WORDS : string :=
  "Nielsen eye-tracking: First 2 words are critical; readers fixate on initial words when deciding whether to read further".
Definition FORMATTING : string :=
  "Usability research: Consistent punctuation/capitalization aids scanning; simple bullet symbols preferred".
End RESEARCH_CITATIONS.

Definition TOTAL_POINTS : Z :=
  LIST_LENGTH.POINTS + HIERARCHY.POINTS + LINE_LENGTH.POINTS +
  SERIAL_POSITION.POINTS + STRUCTURE.POINTS + FIRST_WORDS.POINTS +
  FORMATTING.POINTS.

(** ** Helper methods of [BulletServer] *)

Inductive GrammarPattern : Type :=
| verb_imperative | verb_gerund | noun_phrase | sentence | unknown.

Definition GrammarPattern_eqb (a b : GrammarPattern) : bool :=
  match a, b with
  | verb_imperative, verb_imperative | verb_gerund, verb_gerund
  | noun_phrase, noun_phrase | sentence, sentence | unknown, unknown => true
  | _, _ => false
  end.

(** The pattern as the string the source holds. *)
Definition patternName (p : GrammarPattern) : string :=
  match p with
  | verb_imperative => "verb-imperative"
  | verb_gerund => "verb-gerund"
  | noun_phrase => "noun-phrase"
  | sentence => "sentence"
  | unknown => "unknown"
  end.

Definition IMPERATIVE_VERBS : list string :=
  [ "use"; "create"; "add"; "remove"; "update"; "check"; "ensure"; "make";
    "set"; "get"; "run"; "build"; "test"; "deploy"; "configure"; "install";
    "enable"; "disable"; "implement"; "define"; "write"; "read"; "delete";
    "move"; "copy"; "start"; "stop"; "open"; "close"; "send"; "receive";
    "validate"; "verify"; "confirm"; "select"; "choose"; "avoid"; "include";
    "exclude"; "maintain"; "keep"; "place"; "put"; "apply"; "follow";
    "consider"; "review"; "analyze"; "optimize"; "limit"; "maximize";
    "minimize"; "target"; "focus"; "provide"; "support"; "handle"; "process";
    "format"; "parse"; "convert"; "transform"; "organize"; "structure";
    "break"; "split"; "merge"; "combine"; "group"; "separate"; "allow";
    "prevent"; "require"; "expect"; "return"; "call"; "invoke"; "execute";
    "perform"; "complete"; "finish"; "begin"; "continue"; "repeat"; "iterate";
    "loop"; "track"; "monitor"; "log"; "record"; "store"; "save"; "load";
    "fetch"; "retrieve"; "display"; "show"; "hide"; "render"; "print";
    "export"; "import" ].

Definition nonGerunds : list string :=
  [ "king"; "ring"; "thing"; "string"; "spring"; "swing"; "bring"; "sing";
    "bling"; "fling"; "sling"; "sting"; "wing"; "cling"; "wring";
    "anything"; "everything"; "nothing"; "something" ].

Definition determiners : list string :=
  [ "the"; "a"; "an"; "this"; "that"; "each"; "every"; "all"; "some" ].

Definition auxiliaries : list string :=
  [ " is "; " are "; " was "; " were "; " has "; " have "; " will "; " can " ].

(** [set.has(w)] and [array.includes(w)] on strings. *)
Definition has (set : list string) (w : string) : bool :=
  existsb (String.eqb w) set.

(** [words[0].toLowerCase().replace(/[^a-z]/g, '')] where
    [words = text.trim().split(/\s+/)].  The split of any string has at
    least one piece, so the source's test [words.length === 0] never fires;
    the model keeps it as the [[]] branch. *)
Definition firstWordOf (text : string) : option string :=
  match JS.splitSpaces (JS.trim text) with
  | [] => None
  | w :: _ => Some (JS.filterChars JS.isLowerAZ (JS.toLowerCase w))
  end.

Definition detectGrammarPattern (text : string) : GrammarPattern :=
  match firstWordOf text with
  | None => unknown
  | Some firstWord =>
      if has IMPERATIVE_VERBS firstWord then verb_imperative
      else if (JS.endsWith "ing" firstWord
               && (4 <? JS.len firstWord)
               && negb (has nonGerunds firstWord))%bool then verb_gerund
      else if has determiners firstWord then noun_phrase
      else if existsb (fun aux => JS.includes aux (JS.toLowerCase text)) auxiliaries
           then sentence
      else unknown
  end.

Section MostCommon.
Context {T : Type} (eqb : T -> T -> bool).

(** [counts.set(item, (counts.get(item) || 0) + 1)] on an insertion-ordered map. *)
Fixpoint bump (item : T) (counts : list (T * Z)) : list (T * Z) :=
  match counts with
  | [] => [(item, 1)]
  | (k, n) :: rest =>
      if eqb k item then (k, n + 1) :: rest else (k, n) :: bump item rest
  end.

Definition countAll (arr : list T) : list (T * Z) :=
  fold_left (fun counts item => bump item counts) arr [].

(** The running pair [(maxCount, mostCommon)] of the second loop. *)
Definition pickMax (acc : Z * T) (entry : T * Z) : Z * T :=
  let '(maxCount, mostCommon) := acc in
  let '(item, count) := entry in
  if count >? maxCount then (count, item) else (maxCount, mostCommon).

(** [None] is the [undefined] returned for an empty array. *)
Definition getMostCommon (arr : list T) : option T :=
  match arr with
  | [] => None
  | first :: _ => Some (snd (fold_left pickMax (countAll arr) (0, first)))
  end.

End MostCommon.

Definition hasChildren (item : BulletItem) : bool :=
  match children item with
  | Some (_ :: _) => true
  | _ => false
  end.

(** One step of the loop of [calculateMaxDepth]; [below item d] stands for
    [calculateMaxDepth(item.children, d)]. *)
Definition depthStep (below : BulletItem -> Z -> Z) (currentDepth : Z)
  (max : Z) (item : BulletItem) : Z :=
  if hasChildren item then Z.max max (below item (currentDepth + 1)) else max.

Fixpoint depthBelow (item : BulletItem) (currentDepth : Z) : Z :=
  match item with
  | mkItem _ (Some cs) _ =>
      fold_left (depthStep depthBelow currentDepth) cs currentDepth
  | mkItem _ None _ => currentDepth
  end.

Definition calculateMaxDepth (items : list BulletItem) (currentDepth : Z) : Z :=
  fold_left (depthStep depthBelow currentDepth) items currentDepth.

(** The lengths pushed by [collectLengths], in the order of the pushes. *)
Fixpoint lengthsOf (item : BulletItem) : list Z :=
  match item with
  | mkItem t cs _ =>
      JS.len t ::
      match cs with
      | Some l => flat_map lengthsOf l
      | None => []
      end
  end.

Definition collectLengths (items : list BulletItem) : list Z :=
  flat_map lengthsOf items.

Definition sumZ (l : list Z) : Z := fold_left Z.add l 0.

Definition lengthZ {X : Type} (l : list X) : Z := Z.of_nat (List.length l).

Definition averageLength (lengths : list Z) : Z :=
  match lengths with
  | [] => 0
  | _ => JS.roundDiv (sumZ lengths) (lengthZ lengths)
  end.

Definition calculateAvgLineLength (items : list BulletItem) : Z :=
  averageLength (collectLengths items).

Definition calculateGrade (score : Z) : Grade :=
  if score >=? GRADES.A then A
  else if score >=? GRADES.B then B
  else if score >=? GRADES.C then C
  else if score >=? GRADES.D then D
  else F.

(** [array.map((x, index) => ...)]: each element with its index. *)
Fixpoint indexedFrom {X : Type} (start : Z) (l : list X) : list (X * Z) :=
  match l with
  | [] => []
  | x :: l' => (x, start) :: indexedFrom (start + 1) l'
  end.

Definition indexed {X : Type} (l : list X) : list (X * Z) := indexedFrom 0 l.

(** ** Validators *)

Definition validateListLength (items : list BulletItem) : RuleScore :=
  let count := lengthZ items in
  let points := LIST_LENGTH.POINTS in
  let '(issues, points) :=
    if count >? LIST_LENGTH.HARD_MAX_ITEMS then
      ([ Issue.mk "LIST_LENGTH" error
           (JS.template ["List has "; JS.showZ count; " items, exceeds maximum of ";
                         JS.showZ LIST_LENGTH.HARD_MAX_ITEMS])
           None
           (Some (JS.template
                    ["Subdivide into ";
                     JS.showZ (JS.ceilDiv count LIST_LENGTH.OPTIMAL_ITEMS);
                     " categorized groups of ~"; JS.showZ LIST_LENGTH.OPTIMAL_ITEMS;
                     " items each"]))
           (Some RESEARCH_CITATIONS.LIST_LENGTH) ], 0)
    else if count >? LIST_LENGTH.MAX_ITEMS then
      ([ Issue.mk "LIST_LENGTH" warning
           (JS.template ["List has "; JS.showZ count;
                         " items, exceeds recommended maximum of ";
                         JS.showZ LIST_LENGTH.MAX_ITEMS])
           None
           (Some "Consider subdividing or removing less critical items")
           (Some RESEARCH_CITATIONS.LIST_LENGTH) ], Z.max 0 (points - 10))
    else if count <? LIST_LENGTH.MIN_ITEMS then
      ([ Issue.mk "LIST_LENGTH" suggestion
           (JS.template ["List has only "; JS.showZ count; " item(s), below minimum of ";
                         JS.showZ LIST_LENGTH.MIN_ITEMS])
           None
           (Some (if count =? 1
                  then "Consider using prose instead of a single bullet"
                  else "Consider adding more detail or using prose instead"))
           (Some RESEARCH_CITATIONS.LIST_LENGTH) ], Z.max 0 (points - 5))
    else ([], points) in
  Rule.mk "LIST_LENGTH" LIST_LENGTH.POINTS points issues.

Definition validateHierarchy (items : list BulletItem) : RuleScore :=
  let maxDepth := calculateMaxDepth items 1 in
  let points := HIERARCHY.POINTS in
  let '(issues, points) :=
    if maxDepth >? HIERARCHY.HARD_MAX_DEPTH then
      ([ Issue.mk "HIERARCHY" error
           (JS.template ["Hierarchy depth of "; JS.showZ maxDepth;
                         " exceeds usable maximum of ";
                         JS.showZ HIERARCHY.HARD_MAX_DEPTH])
           None
           (Some "Flatten structure or use a table for complex relationships")
           (Some RESEARCH_CITATIONS.HIERARCHY) ], 0)
    else if maxDepth >? HIERARCHY.MAX_DEPTH then
      ([ Issue.mk "HIERARCHY" warning
           (JS.template ["Hierarchy depth of "; JS.showZ maxDepth;
                         " exceeds recommended maximum of ";
                         JS.showZ HIERARCHY.MAX_DEPTH])
           None
           (Some "Consider flattening to 2 levels for better comprehension")
           (Some RESEARCH_CITATIONS.HIERARCHY) ], Z.max 0 (points - 8))
    else ([], points) in
  Rule.mk "HIERARCHY" HIERARCHY.POINTS points issues.

(** The state the closures of a validator share: the issues pushed so far
    and the running number ([totalPenalty] or [points]). *)
Definition Acc : Type := (list ValidationIssue * Z)%type.

(** What [checkItem] does for the item itself, before it visits the children. *)
Definition checkOwnLength (t : string) (index : Z) (acc : Acc) : Acc :=
  let '(issues, totalPenalty) := acc in
  let length := JS.len t in
  if length >? LINE_LENGTH.HARD_MAX_CHARS then
    (issues ++
       [ Issue.mk "LINE_LENGTH" warning
           (JS.template ["Item "; JS.showZ (index + 1); " is too long (";
                         JS.showZ length; " chars), exceeds readable maximum of ";
                         JS.showZ LINE_LENGTH.HARD_MAX_CHARS])
           (Some index)
           (Some "Break into two bullets or trim to essential information")
           (Some RESEARCH_CITATIONS.LINE_LENGTH) ], totalPenalty + 5)
  else if length >? LINE_LENGTH.OPTIMAL_MAX_CHARS then
    (issues ++
       [ Issue.mk "LINE_LENGTH" suggestion
           (JS.template ["Item "; JS.showZ (index + 1); " is slightly long (";
                         JS.showZ length; " chars), above optimal of ";
                         JS.showZ LINE_LENGTH.OPTIMAL_MAX_CHARS])
           (Some index)
           (Some "Consider trimming for easier scanning")
           (Some RESEARCH_CITATIONS.LINE_LENGTH) ], totalPenalty + 2)
  else if ((length <? LINE_LENGTH.MIN_CHARS) && (length >? 0))%bool then
    (issues ++
       [ Issue.mk "LINE_LENGTH" suggestion
           (JS.template ["Item "; JS.showZ (index + 1); " is short (";
                         JS.showZ length; " chars), may appear sparse"])
           (Some index)
           (Some "Consider adding detail or combining with a related point")
           (Some RESEARCH_CITATIONS.LINE_LENGTH) ], totalPenalty + 1)
  else acc.

Section ForEachChild.
Context (visit : BulletItem -> Z -> Acc -> Acc) (index : Z).

(** [children.forEach((child, childIndex) => visit(child, index * 100 + childIndex))]. *)
Fixpoint forEachChild (l : list BulletItem) (childIndex : Z) (acc : Acc) : Acc :=
  match l with
  | [] => acc
  | child :: l' =>
      forEachChild l' (childIndex + 1) (visit child (index * 100 + childIndex) acc)
  end.

End ForEachChild.

Fixpoint checkItem (item : BulletItem) (index : Z) (acc : Acc) : Acc :=
  match item with
  | mkItem t cs _ =>
      let acc := checkOwnLength t index acc in
      match cs with
      | Some l => forEachChild checkItem index l 0 acc
      | None => acc
      end
  end.

Definition validateLineLength (items : list BulletItem) : RuleScore :=
  let '(issues, totalPenalty) :=
    fold_left (fun acc '(item, index) => checkItem item index acc)
      (indexed items) ([], 0) in
  Rule.mk "LINE_LENGTH" LINE_LENGTH.POINTS
    (Z.max 0 (LINE_LENGTH.POINTS - totalPenalty)) issues.

Definition isHigh (item : BulletItem) : bool :=
  match importance item with
  | Some high => true
  | _ => false
  end.

Definition hasTag (item : BulletItem) : bool :=
  match importance item with
  | Some _ => true
  | None => false
  end.

(** The body of the [forEach] over the high-importance items. *)
Definition checkPosition (count : Z) (acc : Acc) (entry : BulletItem * Z) : Acc :=
  let '(issues, points) := acc in
  let '(item, index) := entry in
  let isPrimacy := index <? SERIAL_POSITION.PRIMACY_ZONE in
  let isRecency := index >=? count - SERIAL_POSITION.RECENCY_ZONE in
  if (negb isPrimacy && negb isRecency)%bool then
    let shortText :=
      if JS.len (text item) >? 40
      then (String.substring 0 40 (text item) ++ "...")%string
      else text item in
    (issues ++
       [ Issue.mk "SERIAL_POSITION" warning
           (JS.template ["High-importance item "; JS.dq; shortText; JS.dq;
                         " is in recall valley (position "; JS.showZ (index + 1); ")"])
           (Some index)
           (Some (JS.template ["Move to position 1, 2, or "; JS.showZ count;
                               " for better recall"]))
           (Some RESEARCH_CITATIONS.SERIAL_POSITION) ], points - 5)
  else acc.

Definition validateSerialPosition (items : list BulletItem) : RuleScore :=
  let count := lengthZ items in
  let hasImportance := existsb hasTag items in
  let '(issues, points) :=
    if (hasImportance && (count >? 3))%bool then
      let highImportanceItems :=
        filter (fun '(item, _) => isHigh item) (indexed items) in
      fold_left (checkPosition count) highImportanceItems
        ([], SERIAL_POSITION.POINTS)
    else if count >? 4 then
      ([ Issue.mk "SERIAL_POSITION" suggestion
           (JS.template ["Consider placing most critical information in positions 1, 2, or ";
                         JS.showZ count])
           None
           (Some (JS.template ["Items in positions 3-"; JS.showZ (count - 1);
                               " are in the "; JS.dq; "recall valley"; JS.dq;
                               " with lower retention"]))
           (Some RESEARCH_CITATIONS.SERIAL_POSITION) ], SERIAL_POSITION.POINTS)
    else ([], SERIAL_POSITION.POINTS) in
  Rule.mk "SERIAL_POSITION" SERIAL_POSITION.POINTS (Z.max 0 points) issues.

(** The body of the [forEach] over the patterns. *)
Definition checkPattern (dominantPattern : GrammarPattern) (acc : Acc)
  (entry : GrammarPattern * Z) : Acc :=
  let '(issues, points) := acc in
  let '(pattern, index) := entry in
  if (negb (GrammarPattern_eqb pattern unknown)
      && negb (GrammarPattern_eqb pattern dominantPattern)
      && negb (GrammarPattern_eqb dominantPattern unknown))%bool then
    (issues ++
       [ Issue.mk "STRUCTURE" warning
           (JS.template ["Item "; JS.showZ (index + 1); " uses "; JS.dq;
                         patternName pattern; JS.dq;
                         " pattern while most items use "; JS.dq;
                         patternName dominantPattern; JS.dq])
           (Some index)
           (Some (JS.template ["Rewrite to match the "; JS.dq;
                               patternName dominantPattern; JS.dq;
                               " pattern for consistency"]))
           (Some RESEARCH_CITATIONS.STRUCTURE) ], points - 4)
  else acc.

Definition validateStructure (items : list BulletItem) : RuleScore :=
  if lengthZ items <? 2 then Rule.mk "STRUCTURE" STRUCTURE.POINTS STRUCTURE.POINTS []
  else
    let patterns := map (fun item => detectGrammarPattern (text item)) items in
    let '(issues, points) :=
      match getMostCommon GrammarPattern_eqb patterns with
      | Some dominantPattern =>
          fold_left (checkPattern dominantPattern) (indexed patterns)
            ([], STRUCTURE.POINTS)
      | None => ([], STRUCTURE.POINTS)
      end in
    Rule.mk "STRUCTURE" STRUCTURE.POINTS (Z.max 0 points) issues.

(** The first two words of an item, joined and lowercased. *)
Definition firstWordsKey (item : BulletItem) : string :=
  let words := JS.splitSpaces (JS.trim (text item)) in
  JS.toLowerCase (JS.join " " (firstn FIRST_WORDS.CRITICAL_WORD_COUNT words)).

(** [seen.get(words).push(index)], creating the entry at the end of the map
    when the key is new. *)
Fixpoint remember (words : string) (index : Z) (seen : list (string * list Z))
  : list (string * list Z) :=
  match seen with
  | [] => [(words, [index])]
  | (k, indices) :: rest =>
      if String.eqb k words then (k, indices ++ [index]) :: rest
      else (k, indices) :: remember words index rest
  end.

(** The body of [seen.forEach]. *)
Definition checkGroup (acc : Acc) (entry : string * list Z) : Acc :=
  let '(issues, points) := acc in
  let '(words, indices) := entry in
  if lengthZ indices >? 1 then
    (issues ++
       [ Issue.mk "FIRST_WORDS" warning
           (JS.template ["Items ";
                         JS.join ", " (map (fun i => JS.showZ (i + 1)) indices);
                         " start with similar words "; JS.dq; words; JS.dq])
           None
           (Some "Vary the opening words to help readers quickly distinguish between items")
           (Some RESEARCH_CITATIONS.FIRST_WORDS) ], points - 3)
  else acc.

Definition validateFirstWords (items : list BulletItem) : RuleScore :=
  let firstWords := map firstWordsKey items in
  let seen :=
    fold_left (fun seen '(words, index) => remember words index seen)
      (indexed firstWords) [] in
  let '(issues, points) := fold_left checkGroup seen ([], FIRST_WORDS.POINTS) in
  Rule.mk "FIRST_WORDS" FIRST_WORDS.POINTS (Z.max 0 points) issues.

Inductive EndClass : Type := endSentence | endColon | endNone.

Inductive CapClass : Type := upper | lower.

Definition EndClass_eqb (a b : EndClass) : bool :=
  match a, b with
  | endSentence, endSentence | endColon, endColon | endNone, endNone => true
  | _, _ => false
  end.

Definition CapClass_eqb (a b : CapClass) : bool :=
  match a, b with
  | upper, upper | lower, lower => true
  | _, _ => false
  end.

(** The class of the last character of the trimmed text; an empty text has
    none ([undefined]) and falls to the last case. *)
Definition endClass (item : BulletItem) : EndClass :=
  match JS.lastChar (JS.trim (text item)) with
  | Some c =>
      if has ["."; "!"; "?"] (String c EmptyString) then endSentence
      else if Ascii.eqb c ":" then endColon
      else endNone
  | None => endNone
  end.

(** The class of the first character of the trimmed text.  On an empty text
    [firstChar] is [undefined] and the call of [toUpperCase] on it throws. *)
Definition capClass (item : BulletItem) : Result CapClass :=
  match JS.firstChar (JS.trim (text item)) with
  | Some c => Ok (if JS.isOwnUpperCase c then upper else lower)
  | None => Throw "Cannot read properties of undefined (reading 'toUpperCase')"
  end.

(** [items.map(f)] for a callback that may throw. *)
Fixpoint mapResult {X Y : Type} (f : X -> Result Y) (l : list X) : Result (list Y) :=
  match l with
  | [] => Ok []
  | x :: l' =>
      try! y <- f x;
      try! ys <- mapResult f l';
      Ok (y :: ys)
  end.

Definition countDiffering {X : Type} (eqb : X -> X -> bool) (dominant : X)
  (classes : list X) : Z :=
  lengthZ (filter (fun c => negb (eqb c dominant)) classes).

Definition validateFormatting (items : list BulletItem) : Result RuleScore :=
  if lengthZ items <? 2
  then Ok (Rule.mk "FORMATTING" FORMATTING.POINTS FORMATTING.POINTS [])
  else
    let endChars := map endClass items in
    let '(issues, points) :=
      match getMostCommon EndClass_eqb endChars with
      | Some dominantEnd =>
          let inconsistentEnds := countDiffering EndClass_eqb dominantEnd endChars in
          if ((inconsistentEnds >? 0) && (inconsistentEnds <? lengthZ endChars))%bool then
            ([ Issue.mk "FORMATTING" suggestion
                 (JS.template ["Inconsistent ending punctuation: ";
                               JS.showZ inconsistentEnds;
                               " items differ from the majority"])
                 None
                 (Some (if EndClass_eqb dominantEnd endSentence
                        then "Add periods to all items for consistency"
                        else "Remove periods from all items for consistency"))
                 (Some RESEARCH_CITATIONS.FORMATTING) ], FORMATTING.POINTS - 2)
          else ([], FORMATTING.POINTS)
      | None => ([], FORMATTING.POINTS)
      end in
    try! capitalizations <- mapResult capClass items;
    let '(issues, points) :=
      match getMostCommon CapClass_eqb capitalizations with
      | Some dominantCap =>
          let inconsistentCaps :=
            countDiffering CapClass_eqb dominantCap capitalizations in
          if ((inconsistentCaps >? 0)
              && (inconsistentCaps <? lengthZ capitalizations))%bool then
            (issues ++
               [ Issue.mk "FORMATTING" suggestion
                   (JS.template ["Inconsistent capitalization: ";
                                 JS.showZ inconsistentCaps;
                                 " items differ from the majority"])
                   None
                   (Some (if CapClass_eqb dominantCap upper
                          then "Capitalize the first letter of all items"
                          else "Use lowercase for the first letter of all items"))
                   (Some RESEARCH_CITATIONS.FORMATTING) ], points - 2)
          else (issues, points)
      | None => (issues, points)
      end in
    Ok (Rule.mk "FORMATTING" FORMATTING.POINTS (Z.max 0 points) issues).

(** ** Aggregation *)

Definition generateSummary (score errorCount warningCount : Z) : string :=
  if ((score >=? 90) && (errorCount =? 0))%bool then
    "Excellent bullet list following evidence-based best practices."
  else if ((score >=? 80) && (errorCount =? 0))%bool then
    "Good bullet list with minor improvements possible."
  else if score >=? 70 then
    JS.template ["Adequate bullet list. "; JS.showZ warningCount;
                 " issue(s) may impact effectiveness."]
  else if errorCount >? 0 then
    JS.template ["Bullet list has "; JS.showZ errorCount;
                 " critical issue(s) that should be addressed."]
  else
    JS.template ["Bullet list needs improvement. Review "; JS.showZ warningCount;
                 " warning(s) for better results."].

Definition severityOrder (s : Severity) : Z :=
  match s with
  | error => 0
  | warning => 1
  | suggestion => 2
  end.

Section Sort.
Context {X : Type} (compare : X -> X -> Z).

(** [Array.prototype.sort] is stable: an element is placed before the first
    later element that the comparator does not put in front of it. *)
Fixpoint insertSorted (x : X) (sorted : list X) : list X :=
  match sorted with
  | [] => [x]
  | y :: rest =>
      if compare x y <=? 0 then x :: y :: rest else y :: insertSorted x rest
  end.

Definition sort (l : list X) : list X := fold_right insertSorted [] l.

End Sort.

Definition bySeverity (a b : ValidationIssue) : Z :=
  severityOrder (Issue.severity a) - severityOrder (Issue.severity b).

(** The loop that fills [unique]; [seen] holds the same strings. *)
Fixpoint collectUnique (sorted : list ValidationIssue) (unique : list string)
  : list string :=
  match sorted with
  | [] => unique
  | issue :: rest =>
      let unique :=
        match Issue.suggestion issue with
        | Some s =>
            if (JS.truthy (Some s) && negb (has unique s))%bool
            then unique ++ [s] else unique
        | None => unique
        end in
      if lengthZ unique >=? 3 then unique else collectUnique rest unique
  end.

Definition getImprovementDescription (score itemCount : Z) : string :=
  if itemCount =? 0 then "Your bullet list follows best practices."
  else if score >=? 90 then "Minor tweaks to make your bullet list even better."
  else if score >=? 70 then "A few adjustments would improve readability and recall."
  else "These changes will significantly improve your bullet list.".

Definition getTopImprovements (issues : list ValidationIssue) (score : Z)
  : StructuredBulletList :=
  let sorted :=
    sort bySeverity (filter (fun i => JS.truthy (Issue.suggestion i)) issues) in
  let unique := collectUnique sorted [] in
  Improvements.mk "Suggested Improvements"
    (getImprovementDescription score (lengthZ unique))
    (if lengthZ unique >? 0 then "Consider the following changes:" else "")
    unique.

(** [new Set(patterns).size]. *)
Definition distinctCount (patterns : list GrammarPattern) : Z :=
  lengthZ (countAll GrammarPattern_eqb patterns).

Definition analyzeContext (items : list BulletItem) (context : Context)
  : ContextFit * option string :=
  match context with
  | presentation =>
      (poor, Some "3M research shows presentations are 43% more persuasive with visuals instead of bullets. Consider using graphics with narration.")
  | reference =>
      let maxDepth := calculateMaxDepth items 1 in
      if ((maxDepth =? 1) && (lengthZ items >? 5))%bool then
        (good, Some "For reference materials, consider using hierarchy (sub-bullets) to group related items for faster lookup.")
      else
        (excellent, Some "Well-structured for reference use. Ensure consistent formatting for quick scanning.")
  | document =>
      let patterns := map (fun item => detectGrammarPattern (text item)) items in
      let uniquePatterns :=
        distinctCount
          (filter (fun p => negb (GrammarPattern_eqb p unknown)) patterns) in
      if uniquePatterns >? 2 then
        (good, Some "Content appears heterogeneous. Bullets work best with related, similar items. Consider grouping by category.")
      else (excellent, None)
  end.

(** The seven validators, in the order of the array literal. *)
Definition runValidators (items : list BulletItem) : Result (list RuleScore) :=
  let listLength := validateListLength items in
  let hierarchy := validateHierarchy items in
  let lineLength := validateLineLength items in
  let serialPosition := validateSerialPosition items in
  let structure := validateStructure items in
  let firstWords := validateFirstWords items in
  try! formatting <- validateFormatting items;
  Ok [listLength; hierarchy; lineLength; serialPosition; structure; firstWords;
      formatting].

Definition totalEarnedOf (scores : list RuleScore) : Z :=
  fold_left (fun sum s => sum + Rule.earned_points s) scores 0.

Definition totalMaxOf (scores : list RuleScore) : Z :=
  fold_left (fun sum s => sum + Rule.max_points s) scores 0.

(** [Math.round((totalEarned / TOTAL_POINTS) * 100)]: the two binary64
    operations leave a value within 10^-13 of the integer that the exact
    quotient [totalEarned * 100 / TOTAL_POINTS] is, [TOTAL_POINTS] being 100. *)
Definition percentage (totalEarned : Z) : Z :=
  JS.roundDiv (totalEarned * 100) TOTAL_POINTS.

Definition hasSeverity (sev : Severity) (i : ValidationIssue) : bool :=
  Severity_eqb (Issue.severity i) sev.

(** [{ ...w, severity: 'error' }]. *)
Definition promote (w : ValidationIssue) : ValidationIssue :=
  Issue.mk (Issue.rule w) error (Issue.message w) (Issue.item_index w)
    (Issue.suggestion w) (Issue.research_basis w).

(** The issue without its [research_basis] property. *)
Definition withoutCitation (i : ValidationIssue) : ValidationIssue :=
  Issue.mk (Issue.rule i) (Issue.severity i) (Issue.message i)
    (Issue.item_index i) (Issue.suggestion i) None.

Definition mapIssues (f : ValidationIssue -> ValidationIssue) (s : RuleScore)
  : RuleScore :=
  Rule.mk (Rule.rule s) (Rule.max_points s) (Rule.earned_points s)
    (map f (Rule.issues s)).

Definition outputScores (config : BulletConfig) (scores : list RuleScore)
  : list RuleScore :=
  if enableResearchCitations config then scores
  else map (mapIssues withoutCitation) scores.

(** [...(x && { x })]: the property is copied when it is truthy. *)
Definition whenTruthy (x : option string) : option string :=
  if JS.truthy x then x else None.

Definition analyzeFlat (config : BulletConfig) (items : list BulletItem)
  (context : Context) (title description intro : option string)
  : Result BulletAnalysis :=
  try! scores <- runValidators items;
  let totalEarned := totalEarnedOf scores in
  let overallScore := percentage totalEarned in
  let grade := calculateGrade overallScore in
  let allIssues := flat_map Rule.issues scores in
  let errors := filter (hasSeverity error) allIssues in
  let warnings := filter (hasSeverity warning) allIssues in
  let suggestions := filter (hasSeverity suggestion) allIssues in
  let '(errors, warnings) :=
    if strictMode config then (errors ++ map promote warnings, [])
    else (errors, warnings) in
  let contextAnalysis := analyzeContext items context in
  Ok (Analysis.mk (whenTruthy title) (whenTruthy description) (whenTruthy intro)
        overallScore grade (outputScores config scores)
        errors warnings suggestions
        (generateSummary overallScore (lengthZ errors) (lengthZ warnings))
        (getTopImprovements allIssues overallScore)
        (lengthZ items) (calculateMaxDepth items 1) (calculateAvgLineLength items)
        (fst contextAnalysis) (snd contextAnalysis) None).

(** ** Sectioned analysis *)

(** [byRule.get(score.rule).push(score)], creating the entry at the end of
    the map when the rule is new. *)
Fixpoint pushByRule (score : RuleScore) (byRule : list (string * list RuleScore))
  : list (string * list RuleScore) :=
  match byRule with
  | [] => [(Rule.rule score, [score])]
  | (rule, scores) :: rest =>
      if String.eqb rule (Rule.rule score) then (rule, scores ++ [score]) :: rest
      else (rule, scores) :: pushByRule score rest
  end.

Definition groupByRule (allScores : list RuleScore) : list (string * list RuleScore) :=
  fold_left (fun byRule score => pushByRule score byRule) allScores [].

Definition mergeRule (entry : string * list RuleScore) : RuleScore :=
  let '(rule, scores) := entry in
  let totalMax := totalMaxOf scores in
  let totalEarned := totalEarnedOf scores in
  let allIssues := flat_map Rule.issues scores in
  Rule.mk rule
    (JS.roundDiv totalMax (lengthZ scores))
    (JS.roundDiv totalEarned (lengthZ scores))
    allIssues.

Definition aggregateRuleScores (allScores : list RuleScore) : list RuleScore :=
  map mergeRule (groupByRule allScores).

(** [sectionScores.reduce((best, s) => ...)] without an initial value: it
    throws on an empty array. *)
Definition reduceSections
  (f : SectionScore.t -> SectionScore.t -> SectionScore.t)
  (sectionScores : list SectionScore.t) : Result SectionScore.t :=
  match sectionScores with
  | [] => Throw "Reduce of empty array with no initial value"
  | first :: rest => Ok (fold_left f rest first)
  end.

Definition generateSectionedSummary (overallScore sectionCount : Z)
  (sectionScores : list SectionScore.t) : Result string :=
  try! bestSection <-
    reduceSections
      (fun best s => if SectionScore.score s >? SectionScore.score best then s else best)
      sectionScores;
  try! worstSection <-
    reduceSections
      (fun worst s => if SectionScore.score s <? SectionScore.score worst then s else worst)
      sectionScores;
  Ok (if overallScore >=? 90 then
        JS.template ["Excellent structured summary across "; JS.showZ sectionCount;
                     " sections. All sections follow evidence-based best practices."]
      else if overallScore >=? 80 then
        JS.template ["Good structured summary across "; JS.showZ sectionCount;
                     " sections. Best: "; JS.dq; SectionScore.title bestSection; JS.dq;
                     " ("; JS.showZ (SectionScore.score bestSection);
                     "), needs work: "; JS.dq; SectionScore.title worstSection; JS.dq;
                     " ("; JS.showZ (SectionScore.score worstSection); ")."]
      else
        JS.template ["Structured summary with "; JS.showZ sectionCount;
                     " sections needs improvement. Focus on "; JS.dq;
                     SectionScore.title worstSection; JS.dq; " (score: ";
                     JS.showZ (SectionScore.score worstSection); ")."]).

(** [{ ...issue, message: `[${section.title}] ${issue.message}` }]. *)
Definition prefixIssue (sectionTitle : string) (issue : ValidationIssue)
  : ValidationIssue :=
  Issue.mk (Issue.rule issue) (Issue.severity issue)
    (JS.template ["["; sectionTitle; "] "; Issue.message issue])
    (Issue.item_index issue) (Issue.suggestion issue) (Issue.research_basis issue).

(** The variables the loop over the sections updates. *)
Record Totals : Type :=
  mkTotals { sectionScores : list SectionScore.t;
             allRuleScores : list RuleScore;
             totalItems : Z;
             allMaxDepth : Z;
             allLengths : list Z;
             allErrors : list ValidationIssue;
             allWarnings : list ValidationIssue;
             allSuggestions : list ValidationIssue }.

Definition initialTotals : Totals := mkTotals [] [] 0 1 [] [] [] [].

(** One iteration of the loop over the sections. *)
Definition analyzeSection (globalContext : Context) (totals : Totals)
  (section : BulletSection) : Result Totals :=
  let sectionContext :=
    match Section.context section with
    | Some c => c
    | None => globalContext
    end in
  try! scores <- runValidators (Section.items section);
  let prefixedScores := map (mapIssues (prefixIssue (Section.title section))) scores in
  let totalEarned := totalEarnedOf scores in
  let sectionScore := percentage totalEarned in
  let sectionGrade := calculateGrade sectionScore in
  let sectionIssues := flat_map Rule.issues prefixedScores in
  Ok (mkTotals
        (sectionScores totals ++
           [ SectionScore.mk (Section.title section)
               (whenTruthy (Section.description section))
               (whenTruthy (Section.intro section))
               sectionScore sectionGrade (lengthZ (Section.items section))
               sectionIssues sectionContext ])
        (allRuleScores totals ++ prefixedScores)
        (totalItems totals + lengthZ (Section.items section))
        (Z.max (allMaxDepth totals) (calculateMaxDepth (Section.items section) 1))
        (allLengths totals ++ collectLengths (Section.items section))
        (allErrors totals ++ filter (hasSeverity error) sectionIssues)
        (allWarnings totals ++ filter (hasSeverity warning) sectionIssues)
        (allSuggestions totals ++ filter (hasSeverity suggestion) sectionIssues)).

(** A [for ... of] loop whose body may throw. *)
Fixpoint forEachResult {S X : Type} (body : S -> X -> Result S) (l : list X) (st : S)
  : Result S :=
  match l with
  | [] => Ok st
  | x :: l' =>
      try! st' <- body st x;
      forEachResult body l' st'
  end.

Definition sumScores (sectionScores : list SectionScore.t) : Z :=
  fold_left (fun sum s => sum + SectionScore.score s) sectionScores 0.

Definition analyzeSections (config : BulletConfig) (sections : list BulletSection)
  (globalContext : Context) (title description intro : option string)
  : Result BulletAnalysis :=
  try! totals <- forEachResult (analyzeSection globalContext) sections initialTotals;
  let '(allErrors, allWarnings) :=
    if strictMode config
    then (allErrors totals ++ map promote (allWarnings totals), [])
    else (allErrors totals, allWarnings totals) in
  let allSuggestions := allSuggestions totals in
  let overallScore :=
    JS.roundDiv (sumScores (sectionScores totals)) (lengthZ (sectionScores totals)) in
  let grade := calculateGrade overallScore in
  let aggregatedScores := aggregateRuleScores (allRuleScores totals) in
  let contextAnalysis :=
    analyzeContext (flat_map Section.items sections) globalContext in
  try! summary <-
    generateSectionedSummary overallScore (lengthZ sections) (sectionScores totals);
  Ok (Analysis.mk (whenTruthy title) (whenTruthy description) (whenTruthy intro)
        overallScore grade (outputScores config aggregatedScores)
        allErrors allWarnings allSuggestions
        summary
        (getTopImprovements (allErrors ++ allWarnings ++ allSuggestions) overallScore)
        (totalItems totals) (allMaxDepth totals) (averageLength (allLengths totals))
        (fst contextAnalysis) (snd contextAnalysis)
        (Some (sectionScores totals))).

(** ** Input validation and the entry point *)

(** The argument of [analyze] is whatever the request carried: a JSON value.
    No number passes a test of the validation, so the model keeps integers
    only. *)
Inductive JSValue : Type :=
| JNull
| JBool (b : bool)
| JNumber (n : Z)
| JString (s : string)
| JArray (elements : list JSValue)
| JObject (properties : list (string * JSValue)).

(** [obj[key]] on the properties of an object; [None] is [undefined]. *)
Fixpoint lookup (key : string) (properties : list (string * JSValue)) : option JSValue :=
  match properties with
  | [] => None
  | (k, v) :: rest => if String.eqb k key then Some v else lookup key rest
  end.

(** [v[key]] for a value [v] that came from JSON: only objects have named
    properties of their own. *)
Definition prop (v : JSValue) (key : string) : option JSValue :=
  match v with
  | JObject properties => lookup key properties
  | _ => None
  end.

(** [!v || typeof v !== 'object'], negated. *)
Definition isObjectLike (v : option JSValue) : bool :=
  match v with
  | Some (JObject _) | Some (JArray _) => true
  | _ => false
  end.

(** [v && Array.isArray(v)] as a test, with the elements at hand. *)
Definition asArray (v : option JSValue) : option (list JSValue) :=
  match v with
  | Some (JArray elements) => Some elements
  | _ => None
  end.

(** [typeof v !== 'string' || v.trim().length === 0], negated. *)
Definition isNonBlankString (v : option JSValue) : bool :=
  match v with
  | Some (JString s) => negb (JS.len (JS.trim s) =? 0)
  | _ => false
  end.

(** [`${v}`] for a value known to be a string. *)
Definition showString (v : option JSValue) : string :=
  match v with
  | Some (JString s) => s
  | _ => EmptyString
  end.

(** The loop of [validateItemsArray], from index [i] on; [Ok tt] is the
    normal completion. *)
Fixpoint validateItemsFrom (i : Z) (items : list JSValue) (location : string)
  : Result unit :=
  match items with
  | [] => Ok tt
  | item :: rest =>
      if negb (isObjectLike (Some item)) then
        Throw (JS.template ["Item at index "; JS.showZ i; " in "; location;
                            " must be an object"])
      else if negb (isNonBlankString (prop item "text")) then
        Throw (JS.template ["Item at index "; JS.showZ i; " in "; location;
                            " must have non-empty text property"])
      else validateItemsFrom (i + 1) rest location
  end.

Definition validateItemsArray (items : list JSValue) (location : string) : Result unit :=
  validateItemsFrom 0 items location.

(** The loop over the sections, from index [i] on. *)
Fixpoint validateSectionsFrom (i : Z) (sections : list JSValue) : Result unit :=
  match sections with
  | [] => Ok tt
  | section :: rest =>
      if negb (isObjectLike (Some section)) then
        Throw (JS.template ["Section at index "; JS.showZ i; " must be an object"])
      else if negb (isNonBlankString (prop section "title")) then
        Throw (JS.template ["Section at index "; JS.showZ i;
                            " must have a non-empty title"])
      else
        let title := showString (prop section "title") in
        match asArray (prop section "items") with
        | None =>
            Throw (JS.template ["Section "; JS.dq; title; JS.dq;
                                " must have an items array"])
        | Some [] =>
            Throw (JS.template ["Section "; JS.dq; title; JS.dq;
                                " cannot have empty items array"])
        | Some items =>
            try! _ <- validateItemsArray items
                        (JS.template ["section "; JS.dq; title; JS.dq]);
            validateSectionsFrom (i + 1) rest
        end
  end.

(** [validateInput] returns its argument under another type; the model
    returns [tt] and the caller keeps the argument. *)
Definition validateInput (input : JSValue) : Result unit :=
  if negb (isObjectLike (Some input)) then Throw "Input must be an object"
  else
    match asArray (prop input "items"), asArray (prop input "sections") with
    | None, None =>
        Throw (JS.template ["Must provide either "; JS.dq; "items"; JS.dq;
                            " (flat mode) or "; JS.dq; "sections"; JS.dq;
                            " (sectioned mode)"])
    | Some _, Some _ =>
        Throw (JS.template ["Cannot use both "; JS.dq; "items"; JS.dq; " and ";
                            JS.dq; "sections"; JS.dq; " - choose one mode"])
    | Some items, None =>
        match items with
        | [] => Throw "Items array cannot be empty"
        | _ => validateItemsArray items "items"
        end
    | None, Some sections =>
        match sections with
        | [] => Throw "Sections array cannot be empty"
        | _ => validateSectionsFrom 0 sections
        end
    end.

(** *** The validated argument as a [BulletInput]

    [validateInput] ends with a cast.  The functions below read a JSON value
    as the type the cast claims; they answer [None] on a value that is not
    of that type, on which the behaviour of the engine is not modelled. *)

Module Input.
(** [BulletInput].  Modelled from the spec: the optional [sections], [title],
    [description] and [intro] of the sections-capable engine, with which
    [items] becomes optional too. *)
Record t : Type :=
  mk { items : option (list BulletItem);
       sections : option (list BulletSection);
       context : option Context;
       title : option string;
       description : option string;
       intro : option string }.
End Input.
Abbreviation BulletInput := Input.t.

Definition decodeOptionalString (v : option JSValue) : option (option string) :=
  match v with
  | None => Some None
  | Some (JString s) => Some (Some s)
  | Some _ => None
  end.

Definition decodeImportance (v : option JSValue) : option (option Importance) :=
  match v with
  | None => Some None
  | Some (JString s) =>
      if String.eqb s "high" then Some (Some high)
      else if String.eqb s "medium" then Some (Some medium)
      else if String.eqb s "low" then Some (Some low)
      else None
  | Some _ => None
  end.

Definition decodeContext (v : option JSValue) : option (option Context) :=
  match v with
  | None => Some None
  | Some (JString s) =>
      if String.eqb s "document" then Some (Some document)
      else if String.eqb s "presentation" then Some (Some presentation)
      else if String.eqb s "reference" then Some (Some reference)
      else None
  | Some _ => None
  end.

Fixpoint decodeItem (v : JSValue) : option BulletItem :=
  match v with
  | JObject properties =>
      match lookup "text" properties, decodeImportance (lookup "importance" properties) with
      | Some (JString t), Some imp =>
          match
            (fix childrenOf (ps : list (string * JSValue))
               : option (option (list BulletItem)) :=
               match ps with
               | [] => Some None
               | (k, c) :: ps' =>
                   if String.eqb k "children" then
                     match c with
                     | JArray l =>
                         option_map Some
                           ((fix all (l : list JSValue) : option (list BulletItem) :=
                               match l with
                               | [] => Some []
                               | x :: l' =>
                                   match decodeItem x, all l' with
                                   | Some i, Some rest => Some (i :: rest)
                                   | _, _ => None
                                   end
                               end) l)
                     | _ => None
                     end
                   else childrenOf ps'
               end) properties
          with
          | Some cs => Some (mkItem t cs imp)
          | None => None
          end
      | _, _ => None
      end
  | _ => None
  end.

Fixpoint decodeAll {X : Type} (decode : JSValue -> option X) (l : list JSValue)
  : option (list X) :=
  match l with
  | [] => Some []
  | x :: l' =>
      match decode x, decodeAll decode l' with
      | Some i, Some rest => Some (i :: rest)
      | _, _ => None
      end
  end.

(** An optional array property: absent, or an array of decodable elements. *)
Definition decodeOptionalArray {X : Type} (decode : JSValue -> option X)
  (v : option JSValue) : option (option (list X)) :=
  match v with
  | None => Some None
  | Some (JArray l) => option_map Some (decodeAll decode l)
  | Some _ => None
  end.

Definition decodeSection (v : JSValue) : option BulletSection :=
  match prop v "title", asArray (prop v "items"),
        decodeOptionalString (prop v "description"),
        decodeOptionalString (prop v "intro"),
        decodeContext (prop v "context") with
  | Some (JString title), Some items, Some description, Some intro, Some context =>
      match decodeAll decodeItem items with
      | Some items => Some (Section.mk title description intro items context)
      | None => None
      end
  | _, _, _, _, _ => None
  end.

Definition decodeInput (v : JSValue) : option BulletInput :=
  match decodeOptionalArray decodeItem (prop v "items"),
        decodeOptionalArray decodeSection (prop v "sections"),
        decodeContext (prop v "context"),
        decodeOptionalString (prop v "title"),
        decodeOptionalString (prop v "description"),
        decodeOptionalString (prop v "intro") with
  | Some items, Some sections, Some context, Some title, Some description, Some intro =>
      Some (Input.mk items sections context title description intro)
  | _, _, _, _, _, _ => None
  end.

(** What [analyze] returns: the report, or the error payload with [isError]. *)
Inductive Response : Type :=
| Report (analysis : BulletAnalysis)
| Failure (error : string) (hint : string).

Definition usageHint : string :=
  JS.template ["Provide "; JS.dq; "items"; JS.dq; " (flat mode) or "; JS.dq;
               "sections"; JS.dq;
               " (sectioned mode). Each item: {text: string, children?: [...], importance?: ";
               JS.dq; "high"; JS.dq; "|"; JS.dq; "medium"; JS.dq; "|"; JS.dq; "low";
               JS.dq; "}"].

(** The body of [analyze] after the validation. *)
Definition dispatch (config : BulletConfig) (bulletInput : BulletInput)
  : Result BulletAnalysis :=
  let globalContext :=
    match Input.context bulletInput with
    | Some c => c
    | None => document
    end in
  match Input.sections bulletInput with
  | Some (first :: rest) =>
      analyzeSections config (first :: rest) globalContext
        (Input.title bulletInput) (Input.description bulletInput)
        (Input.intro bulletInput)
  | _ =>
      match Input.items bulletInput with
      | Some items =>
          analyzeFlat config items globalContext
            (Input.title bulletInput) (Input.description bulletInput)
            (Input.intro bulletInput)
      | None => Throw "Cannot read properties of undefined (reading 'length')"
      end
  end.

(** [analyze]; [None] when the argument passes the validation without being
    a [BulletInput].  The source goes on with such an argument as it is, and
    returns a report or, when a rule throws, the error payload; the model
    does not say which, and the theorems below that speak of a report or of
    a failure after the validation take a [BulletInput]. *)
Definition analyze (config : BulletConfig) (input : JSValue) : option Response :=
  match validateInput input with
  | Throw message => Some (Failure message usageHint)
  | Ok _ =>
      match decodeInput input with
      | None => None
      | Some bulletInput =>
          match dispatch config bulletInput with
          | Ok analysis => Some (Report analysis)
          | Throw message => Some (Failure message usageHint)
          end
      end
  end.

(** ** The flat-only engine

    The repository also holds the earlier, flat-only [BulletServer], without
    sections and without strict mode.  Its functions that differ from the
    ones above are modelled here: the classifier, whose gerund test has no
    excluded nouns, the selection of the improvements, which returns the list
    alone, [getMostCommon], the two rules that call it, the context analysis,
    the validation and the entry point.  The other rules and helpers are the
    ones above, character for character. *)

Module FlatOnly.

Definition detectGrammarPattern (text : string) : GrammarPattern :=
  match firstWordOf text with
  | None => unknown
  | Some firstWord =>
      if has IMPERATIVE_VERBS firstWord then verb_imperative
      else if (JS.endsWith "ing" firstWord && (4 <? JS.len firstWord))%bool
           then verb_gerund
      else if has determiners firstWord then noun_phrase
      else if existsb (fun aux => JS.includes aux (JS.toLowerCase text)) auxiliaries
           then sentence
      else unknown
  end.

Definition getTopImprovements (issues : list ValidationIssue) : list string :=
  let sorted :=
    sort bySeverity (filter (fun i => JS.truthy (Issue.suggestion i)) issues) in
  collectUnique sorted [].

Section MostCommon.
Context {T : Type} (eqb : T -> T -> bool).

(** The running pair [(maxCount, mostCommon)] of the second loop;
    [mostCommon] starts as [arr[0]], which is [undefined] on an empty array. *)
Definition pickMax (acc : Z * option T) (entry : T * Z) : Z * option T :=
  let '(maxCount, mostCommon) := acc in
  let '(item, count) := entry in
  if count >? maxCount then (count, Some item) else (maxCount, mostCommon).

Definition getMostCommon (arr : list T) : option T :=
  snd (fold_left pickMax (countAll eqb arr) (0, hd_error arr)).

End MostCommon.

(** The dominant pattern is [undefined] on no patterns only, where the loop
    has nothing to visit. *)
Definition validateStructure (items : list BulletItem) : RuleScore :=
  if lengthZ items <? 2 then Rule.mk "STRUCTURE" STRUCTURE.POINTS STRUCTURE.POINTS []
  else
    let patterns := map (fun item => detectGrammarPattern (text item)) items in
    let '(issues, points) :=
      match getMostCommon GrammarPattern_eqb patterns with
      | Some dominantPattern =>
          fold_left (checkPattern dominantPattern) (indexed patterns)
            ([], STRUCTURE.POINTS)
      | None => ([], STRUCTURE.POINTS)
      end in
    Rule.mk "STRUCTURE" STRUCTURE.POINTS (Z.max 0 points) issues.

(** Against an [undefined] dominant class every element differs, which is not
    fewer than all of them: no issue is raised. *)
Definition validateFormatting (items : list BulletItem) : Result RuleScore :=
  if lengthZ items <? 2
  then Ok (Rule.mk "FORMATTING" FORMATTING.POINTS FORMATTING.POINTS [])
  else
    let endChars := map endClass items in
    let '(issues, points) :=
      match getMostCommon EndClass_eqb endChars with
      | Some dominantEnd =>
          let inconsistentEnds := countDiffering EndClass_eqb dominantEnd endChars in
          if ((inconsistentEnds >? 0) && (inconsistentEnds <? lengthZ endChars))%bool then
            ([ Issue.mk "FORMATTING" suggestion
                 (JS.template ["Inconsistent ending punctuation: ";
                               JS.showZ inconsistentEnds;
                               " items differ from the majority"])
                 None
                 (Some (if EndClass_eqb dominantEnd endSentence
                        then "Add periods to all items for consistency"
                        else "Remove periods from all items for consistency"))
                 (Some RESEARCH_CITATIONS.FORMATTING) ], FORMATTING.POINTS - 2)
          else ([], FORMATTING.POINTS)
      | None => ([], FORMATTING.POINTS)
      end in
    try! capitalizations <- mapResult capClass items;
    let '(issues, points) :=
      match getMostCommon CapClass_eqb capitalizations with
      | Some dominantCap =>
          let inconsistentCaps :=
            countDiffering CapClass_eqb dominantCap capitalizations in
          if ((inconsistentCaps >? 0)
              && (inconsistentCaps <? lengthZ capitalizations))%bool then
            (issues ++
               [ Issue.mk "FORMATTING" suggestion
                   (JS.template ["Inconsistent capitalization: ";
                                 JS.showZ inconsistentCaps;
                                 " items differ from the majority"])
                   None
                   (Some (if CapClass_eqb dominantCap upper
                          then "Capitalize the first letter of all items"
                          else "Use lowercase for the first letter of all items"))
                   (Some RESEARCH_CITATIONS.FORMATTING) ], points - 2)
          else (issues, points)
      | None => (issues, points)
      end in
    Ok (Rule.mk "FORMATTING" FORMATTING.POINTS (Z.max 0 points) issues).

(** Any context but [presentation] is judged by the patterns. *)
Definition analyzeContext (items : list BulletItem) (context : Context)
  : ContextFit * option string :=
  match context with
  | presentation =>
      (poor, Some "3M research shows presentations are 43% more persuasive with visuals instead of bullets. Consider using graphics with narration.")
  | _ =>
      let patterns := map (fun item => detectGrammarPattern (text item)) items in
      let uniquePatterns :=
        distinctCount
          (filter (fun p => negb (GrammarPattern_eqb p unknown)) patterns) in
      if uniquePatterns >? 2 then
        (good, Some "Content appears heterogeneous. Bullets work best with related, similar items. Consider grouping by category.")
      else (excellent, None)
  end.

(** The seven validators, in the order of the array literal. *)
Definition runValidators (items : list BulletItem) : Result (list RuleScore) :=
  let listLength := validateListLength items in
  let hierarchy := validateHierarchy items in
  let lineLength := validateLineLength items in
  let serialPosition := validateSerialPosition items in
  let structure := validateStructure items in
  let firstWords := validateFirstWords items in
  try! formatting <- validateFormatting items;
  Ok [listLength; hierarchy; lineLength; serialPosition; structure; firstWords;
      formatting].

Module Input.
(** [BulletInput] of the flat-only engine. *)
Record t : Type :=
  mk { items : list BulletItem;
       context : option Context }.
End Input.

Module Analysis.
(** [BulletAnalysis] of the flat-only engine. *)
Record t : Type :=
  mk { overall_score : Z;
       grade : Grade;
       scores : list RuleScore;
       errors : list ValidationIssue;
       warnings : list ValidationIssue;
       suggestions : list ValidationIssue;
       summary : string;
       top_improvements : list string;
       item_count : Z;
       max_depth : Z;
       avg_line_length : Z;
       context_fit : ContextFit;
       context_feedback : option string }.
End Analysis.

(** The loop of [validateInput] over the items, from index [i] on. *)
Fixpoint validateItemsFrom (i : Z) (items : list JSValue) : Result unit :=
  match items with
  | [] => Ok tt
  | item :: rest =>
      if negb (isObjectLike (Some item)) then
        Throw (JS.template ["Item at index "; JS.showZ i; " must be an object"])
      else if negb (isNonBlankString (prop item "text")) then
        Throw (JS.template ["Item at index "; JS.showZ i;
                            " must have non-empty text property"])
      else validateItemsFrom (i + 1) rest
  end.

Definition validateInput (input : JSValue) : Result unit :=
  if negb (isObjectLike (Some input)) then Throw "Input must be an object"
  else
    match asArray (prop input "items") with
    | None => Throw "Missing required field: items (array of bullet items)"
    | Some [] => Throw "Items array cannot be empty"
    | Some items => validateItemsFrom 0 items
    end.

(** The validated argument read as a [BulletInput]; [None] on a value that
    is not of that type, on which the behaviour of the engine after the
    validation is not modelled. *)
Definition decodeInput (v : JSValue) : option Input.t :=
  match asArray (prop v "items"), decodeContext (prop v "context") with
  | Some elements, Some context =>
      option_map (fun items => Input.mk items context) (decodeAll decodeItem elements)
  | _, _ => None
  end.

Inductive Response : Type :=
| Report (analysis : Analysis.t)
| Failure (error : string) (hint : string).

Definition usageHint : string :=
  JS.template ["Provide items as an array of {text: string, children?: [...], importance?: ";
               JS.dq; "high"; JS.dq; "|"; JS.dq; "medium"; JS.dq; "|"; JS.dq; "low";
               JS.dq; "} objects"].

(** The body of [analyze] after the validation; the strict mode of the
    configuration is not read. *)
Definition analyzeValidated (config : BulletConfig) (bulletInput : Input.t)
  : Result Analysis.t :=
  let context :=
    match Input.context bulletInput with
    | Some c => c
    | None => document
    end in
  try! scores <- runValidators (Input.items bulletInput);
  let totalEarned := totalEarnedOf scores in
  let overallScore := percentage totalEarned in
  let grade := calculateGrade overallScore in
  let allIssues := flat_map Rule.issues scores in
  let errors := filter (hasSeverity error) allIssues in
  let warnings := filter (hasSeverity warning) allIssues in
  let suggestions := filter (hasSeverity suggestion) allIssues in
  let contextAnalysis := analyzeContext (Input.items bulletInput) context in
  Ok (Analysis.mk overallScore grade (outputScores config scores)
        errors warnings suggestions
        (generateSummary overallScore (lengthZ errors) (lengthZ warnings))
        (getTopImprovements allIssues)
        (lengthZ (Input.items bulletInput))
        (calculateMaxDepth (Input.items bulletInput) 1)
        (calculateAvgLineLength (Input.items bulletInput))
        (fst contextAnalysis) (snd contextAnalysis)).

Definition analyze (config : BulletConfig) (input : JSValue) : option Response :=
  match validateInput input with
  | Throw message => Some (Failure message usageHint)
  | Ok _ =>
      match decodeInput input with
      | None => None
      | Some bulletInput =>
          match analyzeValidated config bulletInput with
          | Ok analysis => Some (Report analysis)
          | Throw message => Some (Failure message usageHint)
          end
      end
  end.

End FlatOnly.

(** ** Well-formed inputs *)

(** The text of an item that [validateItemsArray] accepts. *)
Definition nonBlank (item : BulletItem) : Prop :=
  JS.len (JS.trim (text item)) <> 0.

(** The items of a validated list: each top-level text is not blank.
    Children are not constrained, because the validation does not visit them. *)
Definition wellFormed (items : list BulletItem) : Prop := Forall nonBlank items.

Definition withinBounds (s : RuleScore) : Prop :=
  0 <= Rule.earned_points s <= Rule.max_points s.

(** ** Induction on item trees *)

Section ItemInduction.
Variable P : BulletItem -> Prop.
Hypothesis step :
  forall t cs imp,
    match cs with Some l => Forall P l | None => True end -> P (mkItem t cs imp).

Fixpoint BulletItem_nested_ind (item : BulletItem) : P item :=
  match item with
  | mkItem t cs imp =>
      step t cs imp
        (match cs return match cs with Some l => Forall P l | None => True end with
         | Some l =>
             (fix all (l : list BulletItem) : Forall P l :=
                match l with
                | [] => Forall_nil P
                | x :: l' => Forall_cons x (BulletItem_nested_ind x) (all l')
                end) l
         | None => I
         end)
  end.

End ItemInduction.

(** The seven scores, their fixed order and their fixed maxima. *)
Definition ruleNames : list string :=
  [ "LIST_LENGTH"; "HIERARCHY"; "LINE_LENGTH"; "SERIAL_POSITION"; "STRUCTURE";
    "FIRST_WORDS"; "FORMATTING" ].

(** Reduction of record projections and pairs only, leaving arithmetic alone. *)
Ltac fields :=
  cbn [Rule.rule Rule.earned_points Rule.max_points Rule.issues fst snd] in *.

Ltac points :=
  unfold LIST_LENGTH.POINTS, HIERARCHY.POINTS, LINE_LENGTH.POINTS,
    SERIAL_POSITION.POINTS, STRUCTURE.POINTS, FIRST_WORDS.POINTS,
    FORMATTING.POINTS in *.

(** ** The merged scores, as the specification words them *)

(** The scores of one rule among [allScores], in their order. *)
Definition scoresOf (rule : string) (allScores : list RuleScore) : list RuleScore :=
  filter (fun s => String.eqb (Rule.rule s) rule) allScores.

Definition addKey (keys : list string) (rule : string) : list string :=
  if has keys rule then keys else keys ++ [rule].

(** The strings among [names], each once, in the order of first appearance. *)
Definition keysOf (names : list string) : list string := fold_left addKey names [].

(** The mean of a group of scores of one rule over [count] sections: both
    numbers are rounded means, the issues are concatenated. *)
Definition meanOfRule (count : Z) (rule : string) (group : list RuleScore) : RuleScore :=
  Rule.mk rule
    (JS.roundDiv (totalMaxOf group) count)
    (JS.roundDiv (totalEarnedOf group) count)
    (flat_map Rule.issues group).

(** The prefixed rule scores of one section, and the score of the section. *)
Definition sectionBlock (section : BulletSection) : Result (list RuleScore) :=
  try! scores <- runValidators (Section.items section);
  Ok (map (mapIssues (prefixIssue (Section.title section))) scores).

Definition blockScore (block : list RuleScore) : Z := percentage (totalEarnedOf block).

(** The sections of a validated sectioned input. *)
Definition wellFormedSections (sections : list BulletSection) : Prop :=
  sections <> [] /\ Forall (fun s => wellFormed (Section.items s)) sections.

(** ** Sample inputs *)

Definition plain (t : string) : BulletItem := mkItem t None None.

Definition sampleItems : list BulletItem :=
  [ plain "Use cats."; plain "Use dogs."; plain "Use cats." ].

Definition sampleSections : list BulletSection :=
  [ Section.mk "Pets" None None sampleItems None;
    Section.mk "Plans" (Some "What comes next") None
      [ plain "Building the shelter takes a week";
        mkItem "The roof is next" (Some [ plain "Order the tiles" ]) (Some high) ]
      (Some reference) ].

Definition defaultConfig : BulletConfig := mkConfig false true.

Definition strictConfig : BulletConfig := mkConfig true true.

(** ** The recall valley, as the specification words it *)

(** An indexed item outside the primacy zone (the first two positions) and
    outside the recency zone (the last position) of a list of [count] items. *)
Definition outsideZones (count : Z) (entry : BulletItem * Z) : bool :=
  (negb (snd entry <? 2) && negb (snd entry >=? count - 1))%bool.

(** The high-importance items of a list that lie outside both zones. *)
Definition valley (items : list BulletItem) : list (BulletItem * Z) :=
  filter (fun entry => (isHigh (fst entry) && outsideZones (lengthZ items) entry)%bool)
    (indexed items).

Definition sampleRanked : list BulletItem :=
  [ plain "Open the valve"; plain "Check the gauge";
    mkItem "Close the hatch" None (Some high);
    mkItem "Log the reading" None (Some low); plain "Leave the room" ].

Definition sampleUnranked : list BulletItem :=
  [ plain "Open the valve"; plain "Check the gauge"; plain "Close the hatch";
    plain "Log the reading"; plain "Leave the room" ].

(** ** The selection of the improvements, as the specification words it *)

Definition carriesSuggestion (i : ValidationIssue) : bool :=
  JS.truthy (Issue.suggestion i).

Definition suggestionText (i : ValidationIssue) : string :=
  match Issue.suggestion i with
  | Some s => s
  | None => EmptyString
  end.

(** The issues in the order of their severity rank, each rank in the order
    of the input: what a stable sort by rank produces. *)
Definition rankedStably (l : list ValidationIssue) : list ValidationIssue :=
  filter (hasSeverity error) l ++ filter (hasSeverity warning) l
  ++ filter (hasSeverity suggestion) l.

Definition sampleIssues : list ValidationIssue :=
  [ Issue.mk "LINE_LENGTH" warning "Item 1 is too long" (Some 0)
      (Some "Break into two bullets") None;
    Issue.mk "FORMATTING" suggestion "Inconsistent capitalization" None
      (Some "Capitalize the first letter") None;
    Issue.mk "LIST_LENGTH" error "List has 12 items" None
      (Some "Subdivide into 3 groups") None;
    Issue.mk "LINE_LENGTH" warning "Item 2 is too long" (Some 1)
      (Some "Break into two bullets") None ].

(** ** Reports that differ in the severity buckets only *)

(** Two reports agree on every field other than [errors], [warnings] and
    [summary]. *)
Definition agreeOutsideBuckets (a b : BulletAnalysis) : Prop :=
  Analysis.title a = Analysis.title b /\
  Analysis.description a = Analysis.description b /\
  Analysis.intro a = Analysis.intro b /\
  Analysis.overall_score a = Analysis.overall_score b /\
  Analysis.grade a = Analysis.grade b /\
  Analysis.scores a = Analysis.scores b /\
  Analysis.suggestions a = Analysis.suggestions b /\
  Analysis.top_improvements a = Analysis.top_improvements b /\
  Analysis.item_count a = Analysis.item_count b /\
  Analysis.max_depth a = Analysis.max_depth b /\
  Analysis.avg_line_length a = Analysis.avg_line_length b /\
  Analysis.context_fit a = Analysis.context_fit b /\
  Analysis.context_feedback a = Analysis.context_feedback b /\
  Analysis.section_scores a = Analysis.section_scores b.

(** The flat request with plain items of the given texts. *)
Definition flatRequest (texts : list string) : JSValue :=
  JObject [("items", JArray (map (fun t => JObject [("text", JString t)]) texts))].

Definition sampleRequest : JSValue :=
  flatRequest ["Use cats."; "Use dogs."; "Use cats."].

Definition sampleSectionedRequest : JSValue :=
  JObject
    [("sections",
      JArray
        [ JObject [("title", JString "Pets");
                   ("items", JArray [ JObject [("text", JString "Use cats.")];
                                      JObject [("text", JString "Use dogs.")];
                                      JObject [("text", JString "Use cats.")] ])];
          JObject [("title", JString "Plans");
                   ("items", JArray [ JObject [("text", JString "The roof is next");
                                               ("importance", JString "high")] ])] ])].

(** ** Items as the validation sees them *)

(** A [text] that is missing, not a string, or blank once trimmed. *)
Definition blankText (item : JSValue) : Prop :=
  isNonBlankString (prop item "text") = false.

(** An element that [validateItemsArray] passes over. *)
Definition acceptedItem (item : JSValue) : Prop :=
  isObjectLike (Some item) = true /\ isNonBlankString (prop item "text") = true.

Definition blankChild : JSValue := JObject [("text", JString "")].

(** A flat request whose only item has a child with an empty text. *)
Definition nestedBlankRequest : JSValue :=
  JObject
    [("items",
      JArray [ JObject [("text", JString "Valid");
                        ("children", JArray [blankChild])] ])].

(** ** The classifier, as the specification words it *)

(** The gerund test of the specification: the suffix, the length, and the
    exclusion of the listed nouns. *)
Definition looksGerund (firstWord : string) : bool :=
  (JS.endsWith "ing" firstWord && (4 <? JS.len firstWord)
   && negb (has nonGerunds firstWord))%bool.

Definition looksSentence (text : string) : bool :=
  existsb (fun aux => JS.includes aux (JS.toLowerCase text)) auxiliaries.

(** The checks in the order of the specification. *)
Definition classifyInOrder (firstWord text : string) : GrammarPattern :=
  if has IMPERATIVE_VERBS firstWord then verb_imperative
  else if looksGerund firstWord then verb_gerund
  else if has determiners firstWord then noun_phrase
  else if looksSentence text then sentence
  else unknown.

(** The location that [validateInput] passes for the items of a section. *)
Definition sectionLocation (section : JSValue) : string :=
  JS.template ["section "; JS.dq; showString (prop section "title"); JS.dq].

(** A section that the loop of [validateInput] passes over. *)
Definition acceptedSection (section : JSValue) : Prop :=
  isObjectLike (Some section) = true /\
  isNonBlankString (prop section "title") = true /\
  exists first rest,
    asArray (prop section "items") = Some (first :: rest) /\
    validateItemsArray (first :: rest) (sectionLocation section) = Ok tt.

Definition untitledItem : JSValue := JObject [("importance", JString "high")].

Definition petsSection : JSValue :=
  JObject [("title", JString "Pets");
           ("items", JArray [JObject [("text", JString "Use cats.")]; untitledItem])].

(** A sectioned request whose second section holds an item without a text. *)
Definition sampleRejectedRequest : JSValue :=
  JObject
    [("sections",
      JArray [ JObject [("title", JString "Plans");
                        ("items", JArray [JObject [("text", JString "Build it")]])];
               petsSection ])].

(** ** The shape of an item tree *)

(** The number of levels below an item: none without children, else one
    more than the most any child has below it. *)
Fixpoint levelsBelow (item : BulletItem) : Z :=
  match item with
  | mkItem _ (Some cs) _ => fold_right (fun c m => Z.max (1 + levelsBelow c) m) 0 cs
  | mkItem _ None _ => 0
  end.

(** The most levels any item of a list has below it. *)
Definition deepest (items : list BulletItem) : Z :=
  fold_right (fun item m => Z.max (levelsBelow item) m) 0 items.

Definition sampleNested : list BulletItem :=
  [ plain "Plan the release";
    mkItem "Ship the build"
      (Some [ mkItem "Tag the commit" (Some [ plain "Sign the tag" ]) None;
              plain "Upload the artefacts" ]) None ].

(** ** Line lengths, as a function of the length alone *)

(** The points one text of the given length costs. *)
Definition lengthPenalty (length : Z) : Z :=
  if length >? 80 then 5
  else if length >? 75 then 2
  else if ((length <? 40) && (length >? 0))%bool then 1
  else 0.

(** The severity of the issue one text of the given length raises, if any. *)
Definition lengthSeverity (length : Z) : list Severity :=
  if length >? 80 then [warning]
  else if length >? 75 then [suggestion]
  else if ((length <? 40) && (length >? 0))%bool then [suggestion]
  else [].

(** ** Repeated openings, as counts *)

(** How many of the keys equal [k]. *)
Definition occurrencesOf (k : string) (keys : list string) : Z :=
  lengthZ (filter (fun w => String.eqb w k) keys).

(** The keys that occur more than once, each once, in the order of first
    appearance. *)
Definition repeatedKeys (keys : list string) : list string :=
  filter (fun k => occurrencesOf k keys >? 1) (keysOf keys).

(** The map that [validateFirstWords] fills, from the pairs of key and index. *)
Definition seenOf (entries : list (string * Z)) : list (string * list Z) :=
  fold_left (fun seen '(words, index) => remember words index seen) entries [].

(** The indices paired with the key [k]. *)
Definition indicesOf (k : string) (entries : list (string * Z)) : list Z :=
  map snd (filter (fun entry => String.eqb (fst entry) k) entries).

Definition sampleRepeated : list BulletItem :=
  [ plain "Use cats for the demo"; plain "use   CATS in the test";
    plain "Keep the dogs outside" ].

(** ** The most common element, as counts *)

Section Counting.
Context {T : Type} (eqb : T -> T -> bool).

(** How many elements of [arr] equal [x]. *)
Definition countOf (x : T) (arr : list T) : Z :=
  lengthZ (filter (fun y => eqb y x) arr).

Definition addSeen (seen : list T) (x : T) : list T :=
  if existsb (fun k => eqb k x) seen then seen else seen ++ [x].

(** The elements of [arr], each once, in the order of first appearance. *)
Definition seenKeys (arr : list T) : list T := fold_left addSeen arr [].

End Counting.

Definition samplePatterns : list GrammarPattern :=
  [ noun_phrase; verb_imperative; verb_imperative; unknown; noun_phrase ].

(** ** Patterns that break the parallel structure *)

(** A pattern that the structure rule flags against the dominant one: it is
    known, it differs, and the dominant one is known too. *)
Definition offPattern (dominant : GrammarPattern) (entry : GrammarPattern * Z) : bool :=
  (negb (GrammarPattern_eqb (fst entry) unknown)
   && negb (GrammarPattern_eqb (fst entry) dominant)
   && negb (GrammarPattern_eqb dominant unknown))%bool.

Definition patternsOf (items : list BulletItem) : list GrammarPattern :=
  map (fun item => detectGrammarPattern (text item)) items.

Definition sampleMixed : list BulletItem :=
  [ plain "Use the staging cluster"; plain "The logs are kept for a week";
    plain "Check the dashboards"; plain "Rollback" ].

(** ** Texts and scores of special kinds *)

(** A text that is empty once trimmed. *)
Definition blank (item : BulletItem) : Prop := JS.len (JS.trim (text item)) = 0.

(** A score whose issues are all suggestions. *)
Definition onlySuggestions (r : RuleScore) : Prop :=
  Forall (fun i => Issue.severity i = suggestion) (Rule.issues r).

Definition sampleClean : list BulletItem :=
  [ plain "Use the staging cluster for every integration run.";
    plain "Check the dashboards before and after each deploy.";
    plain "Keep the rollback script next to the release notes.";
    plain "Track every incident in the shared operations log.";
    plain "Review the alerts with the whole team on Mondays." ].

(** ** The sectioned aggregation, as the specification words it *)

(** The issue with its message prefixed by the title of its section in
    brackets. *)
Definition titledIssue (title : string) (i : ValidationIssue) : ValidationIssue :=
  Issue.mk (Issue.rule i) (Issue.severity i)
    ("[" ++ title ++ "] " ++ Issue.message i)%string
    (Issue.item_index i) (Issue.suggestion i) (Issue.research_basis i).

(** The score of a section out of 100: the rounded percentage of the sum of
    the earned points of its rule scores out of the sum of their maxima. *)
Definition sectionPercent (raw : list RuleScore) : Z :=
  JS.roundDiv (sumZ (map Rule.earned_points raw) * 100)
    (sumZ (map Rule.max_points raw)).

(** The issues of one rule in one section, given with the rule scores of the
    section, each under the title of the section. *)
Definition titledIssuesOf (rule : string) (entry : BulletSection * list RuleScore)
  : list ValidationIssue :=
  map (titledIssue (Section.title (fst entry)))
    (flat_map Rule.issues (scoresOf rule (snd entry))).

(** The merged score of one rule: the rounded means, over the sections, of
    the maxima and of the earned points of the rule, and the titled issues of
    the rule from all sections in order. *)
Definition mergedRule (sections : list BulletSection) (raws : list (list RuleScore))
  (rule : string) : RuleScore :=
  Rule.mk rule
    (JS.roundDiv (sumZ (map Rule.max_points (flat_map (scoresOf rule) raws)))
       (lengthZ sections))
    (JS.roundDiv (sumZ (map Rule.earned_points (flat_map (scoresOf rule) raws)))
       (lengthZ sections))
    (flat_map (titledIssuesOf rule) (combine sections raws)).

(** ** Sections against their items *)

(** All the items of the sections, in order: [sections.flatMap((s) => s.items)]. *)
Definition allItems (sections : list BulletSection) : list BulletItem :=
  flat_map Section.items sections.

(** The context a section is analysed in: [section.context || globalContext]. *)
Definition contextOf (globalContext : Context) (section : BulletSection) : Context :=
  match Section.context section with
  | Some c => c
  | None => globalContext
  end.

(** An entry of [section_scores] reports the flat analysis of the items of
    its section, the messages prefixed with the title. *)
Definition reportsSection (globalContext : Context) (section : BulletSection)
  (entry : SectionScore.t) : Prop :=
  exists flat,
    analyzeFlat defaultConfig (Section.items section) (contextOf globalContext section)
      None None None = Ok flat /\
    SectionScore.title entry = Section.title section /\
    SectionScore.context entry = contextOf globalContext section /\
    SectionScore.score entry = Analysis.overall_score flat /\
    SectionScore.grade entry = Analysis.grade flat /\
    SectionScore.item_count entry = Analysis.item_count flat /\
    SectionScore.issues entry =
      map (titledIssue (Section.title section))
        (flat_map Rule.issues (Analysis.scores flat)).

(** ** The best and the worst section *)

(** [r] is the first element of [l] of the highest rank: the elements before
    it rank strictly lower, the ones after it rank no higher. *)
Definition firstExtreme {T : Type} (rank : T -> Z) (l : list T) (r : T) : Prop :=
  exists before after,
    l = before ++ r :: after /\
    Forall (fun s => rank s < rank r) before /\
    Forall (fun s => rank s <= rank r) after.

Definition sampleEntries : list SectionScore.t :=
  [ SectionScore.mk "Pets" None None 85 B 3 [] document;
    SectionScore.mk "Plans" None None 91 A 2 [] reference;
    SectionScore.mk "Risks" None None 74 C 4 [] document;
    SectionScore.mk "Costs" None None 91 A 5 [] document;
    SectionScore.mk "Dates" None None 74 C 3 [] document ].

(** ** What every issue carries *)

(** An issue of a rule: it names the rule, it carries a suggestion that is
    not empty, and its research basis is the given citation. *)
Definition tagged (rule citation : string) (i : ValidationIssue) : Prop :=
  Issue.rule i = rule /\
  JS.truthy (Issue.suggestion i) = true /\
  Issue.research_basis i = Some citation.

(** The rules with their entries of [RESEARCH_CITATIONS], in the order in
    which the engine runs them. *)
Definition ruleCitations : list (string * string) :=
  [ ("LIST_LENGTH", RESEARCH_CITATIONS.LIST_LENGTH);
    ("HIERARCHY", RESEARCH_CITATIONS.HIERARCHY);
    ("LINE_LENGTH", RESEARCH_CITATIONS.LINE_LENGTH);
    ("SERIAL_POSITION", RESEARCH_CITATIONS.SERIAL_POSITION);
    ("STRUCTURE", RESEARCH_CITATIONS.STRUCTURE);
    ("FIRST_WORDS", RESEARCH_CITATIONS.FIRST_WORDS);
    ("FORMATTING", RESEARCH_CITATIONS.FORMATTING) ].

(** A score of the rule of a table entry whose issues are all tagged with it. *)
Definition taggedScore (entry : string * string) (s : RuleScore) : Prop :=
  Rule.rule s = fst entry /\ Forall (tagged (fst entry) (snd entry)) (Rule.issues s).

(** A report whose three buckets are empty. *)
Definition noIssue (a : BulletAnalysis) : Prop :=
  Analysis.errors a = [] /\ Analysis.warnings a = [] /\ Analysis.suggestions a = [].

(** ** Reports with and without citations *)

(** The report with the [research_basis] removed from the issues under
    [scores], and from nothing else. *)
Definition withoutScoreCitations (a : BulletAnalysis) : BulletAnalysis :=
  Analysis.mk (Analysis.title a) (Analysis.description a) (Analysis.intro a)
    (Analysis.overall_score a) (Analysis.grade a)
    (map (mapIssues withoutCitation) (Analysis.scores a))
    (Analysis.errors a) (Analysis.warnings a) (Analysis.suggestions a)
    (Analysis.summary a) (Analysis.top_improvements a)
    (Analysis.item_count a) (Analysis.max_depth a) (Analysis.avg_line_length a)
    (Analysis.context_fit a) (Analysis.context_feedback a)
    (Analysis.section_scores a).

Definition mapReport (f : BulletAnalysis -> BulletAnalysis) (r : Response) : Response :=
  match r with
  | Report a => Report (f a)
  | Failure message hint => Failure message hint
  end.

Definition cited (i : ValidationIssue) : Prop := Issue.research_basis i <> None.

(** The issues of the three buckets of a report. *)
Definition bucketIssues (a : BulletAnalysis) : list ValidationIssue :=
  Analysis.errors a ++ Analysis.warnings a ++ Analysis.suggestions a.

(** ** Requests that the validation accepts *)

(** A property that holds a non-empty array whose elements all satisfy [P]. *)
Definition nonEmptyArrayOf (P : JSValue -> Prop) (v : option JSValue) : Prop :=
  exists first rest, asArray v = Some (first :: rest) /\ Forall P (first :: rest).

(** A section with a title that is not blank and a non-empty array of
    accepted items. *)
Definition validSection (section : JSValue) : Prop :=
  isObjectLike (Some section) = true /\
  isNonBlankString (prop section "title") = true /\
  nonEmptyArrayOf acceptedItem (prop section "items").

(** A request in exactly one of the two modes: an array under one of [items]
    and [sections], and none under the other. *)
Definition validRequest (input : JSValue) : Prop :=
  isObjectLike (Some input) = true /\
  ((nonEmptyArrayOf acceptedItem (prop input "items") /\
    asArray (prop input "sections") = None) \/
   (nonEmptyArrayOf validSection (prop input "sections") /\
    asArray (prop input "items") = None)).

(** ** The two engines side by side *)

(** A report of the sections-capable engine under the declaration of the
    flat-only one: the fields they share, the improvements as the bare list. *)
Definition flatView (a : BulletAnalysis) : FlatOnly.Analysis.t :=
  FlatOnly.Analysis.mk (Analysis.overall_score a) (Analysis.grade a)
    (Analysis.scores a) (Analysis.errors a) (Analysis.warnings a)
    (Analysis.suggestions a) (Analysis.summary a)
    (Improvements.items (Analysis.top_improvements a))
    (Analysis.item_count a) (Analysis.max_depth a) (Analysis.avg_line_length a)
    (Analysis.context_fit a) (Analysis.context_feedback a).

(** An item whose first word is none of the nouns in [-ing] that the
    sections-capable classifier excludes. *)
Definition noListedNoun (item : BulletItem) : Prop :=
  forall firstWord,
    firstWordOf (text item) = Some firstWord -> has nonGerunds firstWord = false.

(** A request that carries an array under [items] and one under [sections]. *)
Definition sampleBothModes : JSValue :=
  JObject [("items", JArray [JObject [("text", JString "Use cats.")]]);
           ("sections", JArray [])].

(** ** Issues under the scores and in the buckets *)

(** What an issue says, apart from its severity and its citation. *)
Definition issueCore (i : ValidationIssue) : string * string * option Z * option string :=
  (Issue.rule i, Issue.message i, Issue.item_index i, Issue.suggestion i).

(** The issues listed under the rule scores of a report. *)
Definition scoreIssues (a : BulletAnalysis) : list ValidationIssue :=
  flat_map Rule.issues (Analysis.scores a).

(** ** Errors *)

(** An issue that is not an error. *)
Definition mild (i : ValidationIssue) : Prop := Issue.severity i <> error.

(** A score that carries an error. *)
Definition hasError (s : RuleScore) : Prop :=
  exists i, In i (Rule.issues s) /\ Issue.severity i = error.

(** Thirteen items, one more than the list-length rule tolerates. *)
Definition sampleLong : list BulletItem :=
  map (fun t => plain (t ++ " the shared operations log of the release team"))
    [ "Open"; "Check"; "Close"; "Track"; "Review"; "Sign"; "Tag"; "Ship"; "Plan";
      "Keep"; "Use"; "Move"; "Leave" ].

(** ** Promotion, as the specification words it *)

(** [e] is the warning [w] re-tagged as an error: the severity is [error]
    and every other field is that of [w]. *)
Definition retagged (w e : ValidationIssue) : Prop :=
  Issue.severity w = warning /\
  Issue.severity e = error /\
  Issue.rule e = Issue.rule w /\
  Issue.message e = Issue.message w /\
  Issue.item_index e = Issue.item_index w /\
  Issue.suggestion e = Issue.suggestion w /\
  Issue.research_basis e = Issue.research_basis w.

(** An issue without its severity. *)
Definition apartFromSeverity (i : ValidationIssue)
  : string * string * option Z * option string * option string :=
  (Issue.rule i, Issue.message i, Issue.item_index i, Issue.suggestion i,
   Issue.research_basis i).

(** * Properties *)

(** ** Rounding *)

Lemma roundDiv_nonneg p q : 0 <= p -> 0 < q -> 0 <= JS.roundDiv p q.
Proof.
  intros Hp Hq. unfold JS.roundDiv. apply Z.div_pos; lia.
Qed.

Lemma roundDiv_mono p p' q : p <= p' -> 0 < q -> JS.roundDiv p q <= JS.roundDiv p' q.
Proof.
  intros Hp Hq. unfold JS.roundDiv. apply Z.div_le_mono; lia.
Qed.

Lemma roundDiv_exact k q : 0 < q -> JS.roundDiv (k * q) q = k.
Proof.
  intros Hq. unfold JS.roundDiv.
  symmetry. apply Z.div_unique with (r := q); lia.
Qed.

Lemma roundDiv_one p : JS.roundDiv p 1 = p.
Proof.
  rewrite <- (Z.mul_1_r p) at 1. apply roundDiv_exact. lia.
Qed.

Lemma percentage_id n : percentage n = n.
Proof.
  unfold percentage. apply roundDiv_exact. reflexivity.
Qed.

(** The rounded quotient is the nearest integer, halves going up. *)
Lemma roundDiv_nearest p q :
  0 < q -> 2 * q * JS.roundDiv p q <= 2 * p + q < 2 * q * (JS.roundDiv p q + 1).
Proof.
  intros Hq. unfold JS.roundDiv.
  pose proof (Z.div_mod (2 * p + q) (2 * q) ltac:(lia)) as E.
  pose proof (Z.mod_pos_bound (2 * p + q) (2 * q) ltac:(lia)) as B.
  lia.
Qed.

(** ** Sums *)

Lemma fold_left_add_shift {X : Type} (f : X -> Z) (l : list X) (a : Z) :
  fold_left (fun sum x => sum + f x) l a = a + fold_left (fun sum x => sum + f x) l 0.
Proof.
  revert a. induction l as [|x l IH]; intros a; simpl.
  - lia.
  - rewrite IH. rewrite (IH (f x)). lia.
Qed.

Lemma totalEarnedOf_cons s l :
  totalEarnedOf (s :: l) = Rule.earned_points s + totalEarnedOf l.
Proof.
  unfold totalEarnedOf. simpl. apply fold_left_add_shift.
Qed.

Lemma totalMaxOf_cons s l :
  totalMaxOf (s :: l) = Rule.max_points s + totalMaxOf l.
Proof.
  unfold totalMaxOf. simpl. apply fold_left_add_shift.
Qed.

Lemma totals_within l :
  Forall withinBounds l -> 0 <= totalEarnedOf l <= totalMaxOf l.
Proof.
  induction 1 as [|s l Hs _ IH].
  - unfold totalEarnedOf, totalMaxOf. simpl. lia.
  - rewrite totalEarnedOf_cons, totalMaxOf_cons. unfold withinBounds in Hs. lia.
Qed.

Lemma lengthZ_cons {X : Type} (x : X) (l : list X) : lengthZ (x :: l) = lengthZ l + 1.
Proof.
  unfold lengthZ. simpl List.length. lia.
Qed.

Lemma lengthZ_nonneg {X : Type} (l : list X) : 0 <= lengthZ l.
Proof.
  unfold lengthZ. lia.
Qed.

(** ** The running number of a validator *)

(** A loop whose body never raises the running number ends at or below
    the number it started from; dually for a body that never lowers it. *)
Lemma fold_left_lowers {X : Type} (body : Acc -> X -> Acc) (l : list X) :
  (forall acc x, snd (body acc x) <= snd acc) ->
  forall acc, snd (fold_left body l acc) <= snd acc.
Proof.
  intros Hbody. induction l as [|x l IH]; intros acc; simpl.
  - lia.
  - specialize (IH (body acc x)). specialize (Hbody acc x). lia.
Qed.

Lemma fold_left_raises {X : Type} (body : Acc -> X -> Acc) (l : list X) :
  (forall acc x, snd acc <= snd (body acc x)) ->
  forall acc, snd acc <= snd (fold_left body l acc).
Proof.
  intros Hbody. induction l as [|x l IH]; intros acc; simpl.
  - lia.
  - specialize (IH (body acc x)). specialize (Hbody acc x). lia.
Qed.

Lemma checkOwnLength_raises t index acc : snd acc <= snd (checkOwnLength t index acc).
Proof.
  unfold checkOwnLength. destruct acc as [issues totalPenalty].
  repeat match goal with |- context [if ?b then _ else _] => destruct b end;
    simpl; lia.
Qed.

Lemma forEachChild_raises visit index l :
  Forall (fun child => forall i acc, snd acc <= snd (visit child i acc)) l ->
  forall childIndex acc, snd acc <= snd (forEachChild visit index l childIndex acc).
Proof.
  induction 1 as [|child l Hchild _ IH]; intros childIndex acc; simpl.
  - lia.
  - specialize (IH (childIndex + 1) (visit child (index * 100 + childIndex) acc)).
    specialize (Hchild (index * 100 + childIndex) acc). lia.
Qed.

Lemma checkItem_raises item : forall index acc, snd acc <= snd (checkItem item index acc).
Proof.
  induction item as [t cs imp IH] using BulletItem_nested_ind.
  intros index acc. simpl.
  pose proof (checkOwnLength_raises t index acc) as Hown.
  destruct cs as [l|]; [|exact Hown].
  pose proof (forEachChild_raises checkItem index l IH 0 (checkOwnLength t index acc)).
  lia.
Qed.

(** ** Bounds of the seven rule scores *)

Lemma validateListLength_bounds items : withinBounds (validateListLength items).
Proof.
  unfold validateListLength, withinBounds.
  repeat match goal with |- context [if ?b then _ else _] => destruct b end;
    fields; unfold LIST_LENGTH.POINTS; lia.
Qed.

Lemma validateHierarchy_bounds items : withinBounds (validateHierarchy items).
Proof.
  unfold validateHierarchy, withinBounds.
  repeat match goal with |- context [if ?b then _ else _] => destruct b end;
    fields; unfold HIERARCHY.POINTS; lia.
Qed.

Lemma validateLineLength_bounds items : withinBounds (validateLineLength items).
Proof.
  unfold validateLineLength, withinBounds.
  match goal with |- context [fold_left ?body ?l ?acc] =>
    assert (H : snd acc <= snd (fold_left body l acc))
      by (apply fold_left_raises; intros a [item index]; apply checkItem_raises);
    destruct (fold_left body l acc) as [issues totalPenalty]
  end.
  fields. unfold LINE_LENGTH.POINTS. lia.
Qed.

Lemma checkPosition_lowers count acc entry : snd (checkPosition count acc entry) <= snd acc.
Proof.
  unfold checkPosition. destruct acc as [issues points], entry as [item index].
  destruct (negb _ && negb _)%bool; simpl; lia.
Qed.

Lemma validateSerialPosition_bounds items : withinBounds (validateSerialPosition items).
Proof.
  unfold validateSerialPosition, withinBounds.
  destruct (existsb hasTag items && (lengthZ items >? 3))%bool.
  - pose proof (fold_left_lowers (checkPosition (lengthZ items))
                  (filter (fun '(item, _) => isHigh item) (indexed items))
                  (checkPosition_lowers (lengthZ items))
                  ([], SERIAL_POSITION.POINTS)) as H.
    destruct (fold_left _ _ _) as [issues points]. fields. points. lia.
  - destruct (lengthZ items >? 4); fields; unfold SERIAL_POSITION.POINTS; lia.
Qed.

Lemma checkPattern_lowers dominant acc entry : snd (checkPattern dominant acc entry) <= snd acc.
Proof.
  unfold checkPattern. destruct acc as [issues points], entry as [pattern index].
  destruct (_ && _)%bool; simpl; lia.
Qed.

Lemma validateStructure_bounds items : withinBounds (validateStructure items).
Proof.
  unfold validateStructure, withinBounds.
  destruct (lengthZ items <? 2); [fields; unfold STRUCTURE.POINTS; lia|].
  destruct (getMostCommon _ _) as [dominant|].
  - pose proof (fold_left_lowers (checkPattern dominant)
                  (indexed (map (fun item => detectGrammarPattern (text item)) items))
                  (checkPattern_lowers dominant) ([], STRUCTURE.POINTS)) as H.
    destruct (fold_left _ _ _) as [issues points]. fields. points. lia.
  - fields. unfold STRUCTURE.POINTS. lia.
Qed.

Lemma checkGroup_lowers acc entry : snd (checkGroup acc entry) <= snd acc.
Proof.
  unfold checkGroup. destruct acc as [issues points], entry as [words indices].
  destruct (lengthZ indices >? 1); simpl; lia.
Qed.

Lemma validateFirstWords_bounds items : withinBounds (validateFirstWords items).
Proof.
  unfold validateFirstWords, withinBounds.
  match goal with |- context [fold_left checkGroup ?seen ?acc] =>
    pose proof (fold_left_lowers checkGroup seen checkGroup_lowers acc) as H;
    destruct (fold_left checkGroup seen acc) as [issues points]
  end.
  fields. points. lia.
Qed.

Lemma firstChar_nonBlank item :
  nonBlank item -> exists c, JS.firstChar (JS.trim (text item)) = Some c.
Proof.
  unfold nonBlank, JS.firstChar, JS.len.
  destruct (JS.trim (text item)) as [|c rest]; simpl.
  - intros H. now contradiction H.
  - intros _. now exists c.
Qed.

Lemma capClass_nonBlank item : nonBlank item -> exists c, capClass item = Ok c.
Proof.
  intros H. destruct (firstChar_nonBlank item H) as [c Hc].
  unfold capClass. rewrite Hc. eauto.
Qed.

Lemma mapResult_total {X Y : Type} (f : X -> Result Y) (l : list X) :
  Forall (fun x => exists y, f x = Ok y) l -> exists ys, mapResult f l = Ok ys.
Proof.
  induction 1 as [|x l [y Hy] _ [ys IH]]; simpl.
  - eauto.
  - rewrite Hy, IH. simpl. eauto.
Qed.

(** Whenever [validateFormatting] returns, the score is within its bounds. *)
Lemma validateFormatting_bounds items r :
  validateFormatting items = Ok r -> withinBounds r.
Proof.
  unfold validateFormatting, withinBounds.
  destruct (lengthZ items <? 2).
  - intros [= <-]. fields. points. lia.
  - destruct (getMostCommon EndClass_eqb _) as [dominantEnd|];
      repeat match goal with |- context [if ?b then _ else _] => destruct b end;
      cbv beta iota zeta;
      (destruct (mapResult capClass items) as [caps|m]; [|discriminate]);
      cbn [bind];
      destruct (getMostCommon CapClass_eqb caps) as [dominantCap|];
      repeat match goal with |- context [if ?b then _ else _] => destruct b end;
      intros [= <-]; fields; points; lia.
Qed.

(** On validated items [validateFormatting] returns. *)
Lemma validateFormatting_total items :
  wellFormed items -> exists r, validateFormatting items = Ok r.
Proof.
  intros Hwf. unfold validateFormatting.
  destruct (lengthZ items <? 2); [eauto|].
  destruct (mapResult_total capClass items) as [caps ->].
  - eapply Forall_impl; [|exact Hwf]. intros item. apply capClass_nonBlank.
  - match goal with |- context [let '(_, _) := ?p in _] => destruct p end.
    cbn [bind].
    match goal with |- context [let '(_, _) := ?p in _] => destruct p end.
    eauto.
Qed.

Lemma runValidators_total items :
  wellFormed items -> exists scores, runValidators items = Ok scores.
Proof.
  intros Hwf. unfold runValidators.
  destruct (validateFormatting_total items Hwf) as [r ->]. cbn [bind]. eauto.
Qed.

Lemma validateFormatting_shape items r :
  validateFormatting items = Ok r ->
  Rule.rule r = "FORMATTING" /\ Rule.max_points r = FORMATTING.POINTS.
Proof.
  unfold validateFormatting.
  destruct (lengthZ items <? 2).
  - intros [= <-]. now fields.
  - match goal with |- context [let '(_, _) := ?p in _] => destruct p end.
    destruct (mapResult capClass items) as [caps|m]; [|discriminate].
    cbn [bind].
    match goal with |- context [let '(_, _) := ?p in _] => destruct p end.
    intros [= <-]. now fields.
Qed.

Lemma runValidators_shape items scores :
  runValidators items = Ok scores ->
  map Rule.rule scores = ruleNames /\
  map Rule.max_points scores =
    [ LIST_LENGTH.POINTS; HIERARCHY.POINTS; LINE_LENGTH.POINTS;
      SERIAL_POSITION.POINTS; STRUCTURE.POINTS; FIRST_WORDS.POINTS;
      FORMATTING.POINTS ] /\
  Forall withinBounds scores.
Proof.
  unfold runValidators.
  destruct (validateFormatting items) as [r|m] eqn:Hf; [|discriminate].
  cbn [bind]. intros [= <-].
  destruct (validateFormatting_shape items r Hf) as [Hname Hmax].
  split; [|split].
  - cbn [map]. rewrite Hname.
    unfold validateListLength, validateHierarchy, validateLineLength,
      validateSerialPosition, validateStructure, validateFirstWords.
    repeat match goal with
           | |- context [let '(_, _) := ?p in _] => destruct p
           end.
    destruct (lengthZ items <? 2); reflexivity.
  - cbn [map]. rewrite Hmax.
    unfold validateListLength, validateHierarchy, validateLineLength,
      validateSerialPosition, validateStructure, validateFirstWords.
    repeat match goal with
           | |- context [let '(_, _) := ?p in _] => destruct p
           end.
    destruct (lengthZ items <? 2); reflexivity.
  - repeat apply Forall_cons; [..|apply Forall_nil].
    + apply validateListLength_bounds.
    + apply validateHierarchy_bounds.
    + apply validateLineLength_bounds.
    + apply validateSerialPosition_bounds.
    + apply validateStructure_bounds.
    + apply validateFirstWords_bounds.
    + apply (validateFormatting_bounds items r Hf).
Qed.

(** ** Grouping by rule *)

Lemma has_In set w : has set w = true <-> In w set.
Proof.
  unfold has. rewrite existsb_exists. split.
  - intros [k [Hin Heq]]. apply String.eqb_eq in Heq. now subst.
  - intros Hin. exists w. split; [exact Hin|apply String.eqb_refl].
Qed.

Lemma has_false set w : has set w = false <-> ~ In w set.
Proof.
  rewrite <- has_In. destruct (has set w); split; congruence.
Qed.

Lemma scoresOf_snoc rule l x :
  scoresOf rule (l ++ [x]) =
  scoresOf rule l ++ (if String.eqb (Rule.rule x) rule then [x] else []).
Proof.
  unfold scoresOf. rewrite filter_app. reflexivity.
Qed.

Lemma addKey_In keys rule r : In r (addKey keys rule) <-> In r keys \/ r = rule.
Proof.
  unfold addKey. destruct (has keys rule) eqn:H.
  - apply has_In in H. split; [tauto|]. intros [Hin| ->]; assumption.
  - rewrite in_app_iff. simpl. intuition.
Qed.

Lemma addKey_NoDup keys rule : NoDup keys -> NoDup (addKey keys rule).
Proof.
  intros Hnd. unfold addKey. destruct (has keys rule) eqn:H; [exact Hnd|].
  apply has_false in H. apply NoDup_app; [exact Hnd|repeat constructor; tauto|].
  intros a Ha [<-|[]]. exact (H Ha).
Qed.

Lemma keysOf_snoc names rule : keysOf (names ++ [rule]) = addKey (keysOf names) rule.
Proof.
  unfold keysOf. now rewrite fold_left_app.
Qed.

Lemma keysOf_In names r : In r (keysOf names) <-> In r names.
Proof.
  induction names as [|rule names IH] using rev_ind.
  - reflexivity.
  - rewrite keysOf_snoc, addKey_In, in_app_iff, IH. simpl. intuition.
Qed.

Lemma keysOf_NoDup names : NoDup (keysOf names).
Proof.
  induction names as [|rule names IH] using rev_ind.
  - constructor.
  - rewrite keysOf_snoc. now apply addKey_NoDup.
Qed.

Lemma scoresOf_absent r l : ~ In r (map Rule.rule l) -> scoresOf r l = [].
Proof.
  unfold scoresOf. induction l as [|y l IH]; intros H; [reflexivity|]. cbn [filter].
  destruct (String.eqb (Rule.rule y) r) eqn:Hy.
  - apply String.eqb_eq in Hy. exfalso. apply H. cbn [map]. now left.
  - apply IH. intros Hin. apply H. cbn [map]. now right.
Qed.

(** One push, on a map that holds for every key the scores seen so far. *)
Lemma pushByRule_keys x l keys :
  NoDup keys ->
  pushByRule x (map (fun r => (r, scoresOf r l)) keys) =
  map (fun r => (r, scoresOf r (l ++ [x]))) keys
  ++ (if has keys (Rule.rule x) then [] else [(Rule.rule x, [x])]).
Proof.
  induction 1 as [|k keys Hk Hnd IH]; [reflexivity|].
  cbn [map pushByRule]. rewrite <- app_comm_cons. unfold has. cbn [existsb].
  rewrite (String.eqb_sym (Rule.rule x) k).
  destruct (String.eqb k (Rule.rule x)) eqn:Hkx.
  - apply String.eqb_eq in Hkx. subst k. cbn [orb]. rewrite app_nil_r.
    rewrite scoresOf_snoc, String.eqb_refl. f_equal.
    apply map_ext_in. intros r Hr. rewrite scoresOf_snoc.
    destruct (String.eqb (Rule.rule x) r) eqn:Hkr.
    + apply String.eqb_eq in Hkr. subst r. contradiction.
    + now rewrite app_nil_r.
  - cbn [orb]. rewrite IH. unfold has. f_equal.
    rewrite scoresOf_snoc, String.eqb_sym, Hkx. now rewrite app_nil_r.
Qed.

(** The map built by [aggregateRuleScores] holds, for each rule identifier in
    the order of first appearance, the scores of that rule in their order. *)
Lemma groupByRule_spec allScores :
  groupByRule allScores =
  map (fun r => (r, scoresOf r allScores)) (keysOf (map Rule.rule allScores)).
Proof.
  induction allScores as [|x l IH] using rev_ind; [reflexivity|].
  unfold groupByRule in *. rewrite fold_left_app. cbn [fold_left].
  rewrite IH, pushByRule_keys by apply keysOf_NoDup.
  rewrite map_app. cbn [map]. rewrite keysOf_snoc. unfold addKey.
  destruct (has _ (Rule.rule x)) eqn:H; [now rewrite app_nil_r|].
  rewrite map_app. cbn [map]. do 2 f_equal.
  rewrite scoresOf_snoc, String.eqb_refl.
  apply has_false in H. rewrite keysOf_In in H.
  now rewrite (scoresOf_absent _ _ H).
Qed.

Lemma aggregateRuleScores_spec allScores :
  aggregateRuleScores allScores =
  map (fun r => meanOfRule (lengthZ (scoresOf r allScores)) r (scoresOf r allScores))
    (keysOf (map Rule.rule allScores)).
Proof.
  unfold aggregateRuleScores. rewrite groupByRule_spec, map_map. reflexivity.
Qed.

Lemma scoresOf_nonempty r allScores :
  In r (map Rule.rule allScores) -> 0 < lengthZ (scoresOf r allScores).
Proof.
  intros Hin. apply in_map_iff in Hin. destruct Hin as [s [Hs Hin]].
  assert (Hmem : In s (scoresOf r allScores)).
  { unfold scoresOf. apply filter_In. split; [exact Hin|]. subst r. apply String.eqb_refl. }
  destruct (scoresOf r allScores); [destruct Hmem|]. rewrite lengthZ_cons.
  pose proof (lengthZ_nonneg l). lia.
Qed.

Lemma meanOfRule_bounds count r group :
  0 < count -> Forall withinBounds group -> withinBounds (meanOfRule count r group).
Proof.
  intros Hcount Hgroup. pose proof (totals_within group Hgroup) as [H0 H1].
  unfold meanOfRule, withinBounds. fields. split.
  - now apply roundDiv_nonneg.
  - now apply roundDiv_mono.
Qed.

(** Merging keeps every score within its bounds. *)
Lemma aggregateRuleScores_bounds allScores :
  Forall withinBounds allScores -> Forall withinBounds (aggregateRuleScores allScores).
Proof.
  intros Hall. rewrite aggregateRuleScores_spec. apply Forall_map.
  apply Forall_forall. intros r Hr. rewrite keysOf_In in Hr.
  apply meanOfRule_bounds.
  - apply scoresOf_nonempty. exact Hr.
  - unfold scoresOf. apply Forall_forall. intros s Hs. apply filter_In in Hs.
    rewrite Forall_forall in Hall. now apply Hall.
Qed.

(** ** The loop over the sections *)

Lemma totalEarnedOf_mapIssues f scores :
  totalEarnedOf (map (mapIssues f) scores) = totalEarnedOf scores.
Proof.
  induction scores as [|s l IH]; [reflexivity|].
  cbn [map]. rewrite !totalEarnedOf_cons, IH. reflexivity.
Qed.

Lemma Forall_withinBounds_mapIssues f scores :
  Forall withinBounds scores -> Forall withinBounds (map (mapIssues f) scores).
Proof.
  intros H. apply Forall_map. eapply Forall_impl; [|exact H]. intros s Hs. exact Hs.
Qed.

(** What the loop leaves in the variables it updates, read off the list of
    the prefixed per-section scores. *)
Lemma sections_loop globalContext sections : forall st st',
  forEachResult (analyzeSection globalContext) sections st = Ok st' ->
  exists blocks,
    mapResult sectionBlock sections = Ok blocks /\
    allRuleScores st' = allRuleScores st ++ List.concat blocks /\
    map SectionScore.score (sectionScores st') =
      map SectionScore.score (sectionScores st) ++ map blockScore blocks /\
    allErrors st' =
      allErrors st ++ filter (hasSeverity error) (flat_map Rule.issues (List.concat blocks)) /\
    allWarnings st' =
      allWarnings st ++ filter (hasSeverity warning) (flat_map Rule.issues (List.concat blocks)) /\
    allSuggestions st' =
      allSuggestions st
      ++ filter (hasSeverity suggestion) (flat_map Rule.issues (List.concat blocks)).
Proof.
  induction sections as [|section sections IH]; intros st st'.
  - intros [= <-]. exists []. cbn [mapResult List.concat flat_map filter map].
    rewrite !app_nil_r. repeat split; reflexivity.
  - cbn [forEachResult mapResult]. unfold analyzeSection at 1, sectionBlock at 1.
    destruct (runValidators (Section.items section)) as [scores|m]; [|discriminate].
    cbn [bind]. intros Hrest. apply IH in Hrest.
    destruct Hrest as [blocks [Hmap [Hrules [Hscores [He [Hw Hs]]]]]].
    exists (map (mapIssues (prefixIssue (Section.title section))) scores :: blocks).
    rewrite Hmap. cbn [bind List.concat].
    cbn [allRuleScores sectionScores allErrors allWarnings allSuggestions] in *.
    rewrite map_app in Hscores. cbn [map SectionScore.score] in Hscores.
    rewrite Hrules, Hscores, He, Hw, Hs.
    rewrite !flat_map_app, !filter_app, <- !app_assoc.
    cbn [map app]. unfold blockScore at 2.
    rewrite totalEarnedOf_mapIssues. repeat split; reflexivity.
Qed.

Lemma sections_loop_total globalContext sections : forall st blocks,
  mapResult sectionBlock sections = Ok blocks ->
  exists st', forEachResult (analyzeSection globalContext) sections st = Ok st'.
Proof.
  induction sections as [|section sections IH]; intros st blocks.
  - cbn [forEachResult]. eauto.
  - cbn [forEachResult mapResult]. unfold analyzeSection at 1, sectionBlock at 1.
    destruct (runValidators (Section.items section)) as [scores|m]; [|discriminate].
    cbn [bind].
    destruct (mapResult sectionBlock sections) as [rest|m] eqn:Hrest; [|discriminate].
    intros _. eapply IH. reflexivity.
Qed.

Lemma sectionBlock_total section :
  wellFormed (Section.items section) -> exists block, sectionBlock section = Ok block.
Proof.
  intros Hwf. unfold sectionBlock.
  destruct (runValidators_total _ Hwf) as [scores ->]. cbn [bind]. eauto.
Qed.

Lemma sectionBlock_shape section block :
  sectionBlock section = Ok block ->
  map Rule.rule block = ruleNames /\
  map Rule.max_points block =
    [ LIST_LENGTH.POINTS; HIERARCHY.POINTS; LINE_LENGTH.POINTS;
      SERIAL_POSITION.POINTS; STRUCTURE.POINTS; FIRST_WORDS.POINTS;
      FORMATTING.POINTS ] /\
  Forall withinBounds block.
Proof.
  unfold sectionBlock.
  destruct (runValidators (Section.items section)) as [scores|m] eqn:Hrun; [|discriminate].
  cbn [bind]. intros [= <-].
  destruct (runValidators_shape _ _ Hrun) as [Hnames [Hmax Hbounds]].
  rewrite !map_map. cbn [mapIssues Rule.rule Rule.max_points].
  repeat split; try assumption. now apply Forall_withinBounds_mapIssues.
Qed.

Lemma mapResult_Forall2 {X Y : Type} (f : X -> Result Y) l ys :
  mapResult f l = Ok ys -> Forall2 (fun x y => f x = Ok y) l ys.
Proof.
  revert ys. induction l as [|x l IH]; intros ys.
  - intros [= <-]. constructor.
  - cbn [mapResult]. destruct (f x) as [y|m] eqn:Hx; [|discriminate]. cbn [bind].
    destruct (mapResult f l) as [rest|m]; [|discriminate]. cbn [bind].
    intros [= <-]. constructor; auto.
Qed.

Lemma mapResult_length {X Y : Type} (f : X -> Result Y) l ys :
  mapResult f l = Ok ys -> List.length ys = List.length l.
Proof.
  intros H. apply mapResult_Forall2 in H. symmetry. eapply Forall2_length. exact H.
Qed.

(** ** The sectioned report *)

Lemma analyzeSections_Ok config sections globalContext title description intro a :
  analyzeSections config sections globalContext title description intro = Ok a ->
  exists totals,
    forEachResult (analyzeSection globalContext) sections initialTotals = Ok totals /\
    Analysis.overall_score a =
      JS.roundDiv (sumScores (sectionScores totals)) (lengthZ (sectionScores totals)) /\
    Analysis.grade a = calculateGrade (Analysis.overall_score a) /\
    Analysis.scores a = outputScores config (aggregateRuleScores (allRuleScores totals)).
Proof.
  unfold analyzeSections.
  destruct (forEachResult _ sections initialTotals) as [totals|m]; [|discriminate].
  cbn [bind]. destruct (strictMode config);
    (destruct (generateSectionedSummary _ _ _) as [summary|m]; [|discriminate]);
    cbn [bind]; intros [= <-]; exists totals; repeat split; reflexivity.
Qed.

Lemma generateSectionedSummary_total overallScore sectionCount sectionScores :
  sectionScores <> [] ->
  exists summary,
    generateSectionedSummary overallScore sectionCount sectionScores = Ok summary.
Proof.
  intros Hne. unfold generateSectionedSummary, reduceSections.
  destruct sectionScores as [|first rest]; [congruence|]. cbn [bind]. eauto.
Qed.

Lemma sectionScores_nonempty globalContext sections totals :
  sections <> [] ->
  forEachResult (analyzeSection globalContext) sections initialTotals = Ok totals ->
  sectionScores totals <> [].
Proof.
  intros Hne Hloop. apply sections_loop in Hloop.
  destruct Hloop as [blocks [Hmap [_ [Hscores _]]]].
  apply mapResult_length in Hmap. cbn [initialTotals sectionScores map app] in Hscores.
  intros Hnil. rewrite Hnil in Hscores. cbn [map] in Hscores.
  destruct blocks; [|discriminate]. destruct sections; [congruence|discriminate].
Qed.

(** On validated sections the sectioned analysis returns a report. *)
Lemma analyzeSections_total config sections globalContext title description intro :
  wellFormedSections sections ->
  exists a, analyzeSections config sections globalContext title description intro = Ok a.
Proof.
  intros [Hne Hwf].
  destruct (mapResult_total sectionBlock sections) as [blocks Hblocks].
  { eapply Forall_impl; [|exact Hwf]. intros s. apply sectionBlock_total. }
  destruct (sections_loop_total globalContext sections initialTotals blocks Hblocks)
    as [totals Hloop].
  pose proof (sectionScores_nonempty _ _ _ Hne Hloop) as Hscores.
  unfold analyzeSections. rewrite Hloop. cbn [bind].
  destruct (strictMode config);
    match goal with |- context [generateSectionedSummary ?o ?n ?l] =>
      destruct (generateSectionedSummary_total o n l Hscores) as [summary ->]
    end; cbn [bind]; eauto.
Qed.

Lemma outputScores_bounds config scores :
  Forall withinBounds scores -> Forall withinBounds (outputScores config scores).
Proof.
  intros H. unfold outputScores. destruct (enableResearchCitations config); [exact H|].
  now apply Forall_withinBounds_mapIssues.
Qed.

Lemma concat_Forall {X : Type} (P : X -> Prop) (blocks : list (list X)) :
  Forall (Forall P) blocks -> Forall P (List.concat blocks).
Proof.
  induction 1 as [|b blocks Hb _ IH]; cbn [List.concat].
  - constructor.
  - apply Forall_app. now split.
Qed.

Lemma blocks_withinBounds sections blocks :
  mapResult sectionBlock sections = Ok blocks -> Forall (Forall withinBounds) blocks.
Proof.
  intros H. apply mapResult_Forall2 in H.
  induction H as [|s b sections blocks Hb _ IH]; constructor; [|exact IH].
  now apply sectionBlock_shape in Hb.
Qed.

(** C2. Each of the seven validators returns a score whose earned points lie
    between zero and the maximum of the rule ([validateFormatting] returns on
    every validated list), and so does every merged score of a sectioned
    analysis, which returns a report on every validated list of sections. *)
Theorem rule_scores_within_bounds items sections config globalContext title description intro :
  withinBounds (validateListLength items) /\
  withinBounds (validateHierarchy items) /\
  withinBounds (validateLineLength items) /\
  withinBounds (validateSerialPosition items) /\
  withinBounds (validateStructure items) /\
  withinBounds (validateFirstWords items) /\
  (wellFormed items ->
   exists r, validateFormatting items = Ok r /\ withinBounds r) /\
  (wellFormedSections sections ->
   exists a,
     analyzeSections config sections globalContext title description intro = Ok a /\
     Forall withinBounds (Analysis.scores a)).
Proof.
  repeat split.
  1-12: first [ apply validateListLength_bounds | apply validateHierarchy_bounds
              | apply validateLineLength_bounds | apply validateSerialPosition_bounds
              | apply validateStructure_bounds | apply validateFirstWords_bounds ].
  - intros Hwf. destruct (validateFormatting_total items Hwf) as [r Hr].
    exists r. split; [exact Hr|]. exact (validateFormatting_bounds items r Hr).
  - intros Hwf.
    destruct (analyzeSections_total config sections globalContext title description
                intro Hwf) as [a Ha].
    exists a. split; [exact Ha|].
    destruct (analyzeSections_Ok _ _ _ _ _ _ _ Ha) as [totals [Hloop [_ [_ ->]]]].
    apply outputScores_bounds, aggregateRuleScores_bounds.
    destruct (sections_loop _ _ _ _ Hloop) as [blocks [Hblocks [-> _]]].
    cbn [initialTotals allRuleScores app].
    apply concat_Forall. exact (blocks_withinBounds sections blocks Hblocks).
Qed.

Lemma rule_scores_within_bounds_witness :
  (wellFormed sampleItems /\
   exists r, validateFormatting sampleItems = Ok r /\ withinBounds r) /\
  (wellFormedSections sampleSections /\
   exists a,
     analyzeSections defaultConfig sampleSections document None None None = Ok a /\
     Forall withinBounds (Analysis.scores a)).
Proof.
  pose proof (rule_scores_within_bounds sampleItems sampleSections defaultConfig
                document None None None) as H.
  destruct H as [_ [_ [_ [_ [_ [_ [Hformatting Hmerged]]]]]]].
  split; split.
  - repeat constructor; vm_compute; discriminate.
  - apply Hformatting. repeat constructor; vm_compute; discriminate.
  - split; [discriminate|]. repeat constructor; vm_compute; discriminate.
  - apply Hmerged. split; [discriminate|]. repeat constructor; vm_compute; discriminate.
Defined.

(** ** The flat report *)

Lemma totalMaxOf_map scores :
  totalMaxOf scores = fold_left Z.add (map Rule.max_points scores) 0.
Proof.
  unfold totalMaxOf. generalize 0. induction scores as [|s l IH]; intros z.
  - reflexivity.
  - cbn [map fold_left]. apply IH.
Qed.

Lemma runValidators_totalMax items scores :
  runValidators items = Ok scores -> totalMaxOf scores = TOTAL_POINTS.
Proof.
  intros H. apply runValidators_shape in H. destruct H as [_ [Hmax _]].
  rewrite totalMaxOf_map, Hmax. reflexivity.
Qed.

Lemma runValidators_totalEarned items scores :
  runValidators items = Ok scores -> 0 <= totalEarnedOf scores <= TOTAL_POINTS.
Proof.
  intros H. rewrite <- (runValidators_totalMax items scores H).
  apply totals_within. now apply runValidators_shape in H.
Qed.

Lemma calculateGrade_thresholds score :
  (90 <= score -> calculateGrade score = A) /\
  (80 <= score < 90 -> calculateGrade score = B) /\
  (70 <= score < 80 -> calculateGrade score = C) /\
  (60 <= score < 70 -> calculateGrade score = D) /\
  (score < 60 -> calculateGrade score = F).
Proof.
  unfold calculateGrade, GRADES.A, GRADES.B, GRADES.C, GRADES.D.
  rewrite !Z.geb_leb.
  destruct (Z.leb_spec 90 score), (Z.leb_spec 80 score), (Z.leb_spec 70 score),
    (Z.leb_spec 60 score); repeat split; intros; try reflexivity; lia.
Qed.

Lemma analyzeFlat_Ok config items context title description intro a :
  analyzeFlat config items context title description intro = Ok a ->
  exists scores,
    runValidators items = Ok scores /\
    Analysis.overall_score a = percentage (totalEarnedOf scores) /\
    Analysis.grade a = calculateGrade (Analysis.overall_score a) /\
    Analysis.scores a = outputScores config scores.
Proof.
  unfold analyzeFlat.
  destruct (runValidators items) as [scores|m]; [|discriminate].
  cbn [bind]. destruct (strictMode config); intros [= <-]; exists scores;
    repeat split; reflexivity.
Qed.

Lemma analyzeFlat_total config items context title description intro :
  wellFormed items ->
  exists a, analyzeFlat config items context title description intro = Ok a.
Proof.
  intros Hwf. unfold analyzeFlat.
  destruct (runValidators_total items Hwf) as [scores ->]. cbn [bind].
  destruct (strictMode config); eauto.
Qed.

Lemma totalEarnedOf_sum scores :
  totalEarnedOf scores = sumZ (map Rule.earned_points scores).
Proof.
  unfold totalEarnedOf, sumZ. generalize 0.
  induction scores as [|s l IH]; intros z; [reflexivity|].
  cbn [map fold_left]. apply IH.
Qed.

Lemma totalMaxOf_sum scores : totalMaxOf scores = sumZ (map Rule.max_points scores).
Proof.
  rewrite totalMaxOf_map. reflexivity.
Qed.

Lemma outputScores_numbers config scores :
  map Rule.rule (outputScores config scores) = map Rule.rule scores /\
  map Rule.max_points (outputScores config scores) = map Rule.max_points scores /\
  map Rule.earned_points (outputScores config scores) = map Rule.earned_points scores.
Proof.
  unfold outputScores. destruct (enableResearchCitations config);
    [repeat split; reflexivity|].
  rewrite !map_map. repeat split; reflexivity.
Qed.

(** C1. On a validated flat list the report exists.  Its [scores] are the
    seven rules in their order, with the maxima 20, 15, 15, 15, 20, 10 and 5,
    which add up to 100.  Its overall score is the rounded percentage of the
    sum of the earned points of these seven scores out of the sum of their
    maxima, hence that sum itself; it lies between 0 and 100; and the grade
    follows the thresholds 90, 80, 70 and 60. *)
Theorem flat_score_and_grade config items context title description intro :
  wellFormed items ->
  exists scores a,
    runValidators items = Ok scores /\
    analyzeFlat config items context title description intro = Ok a /\
    map Rule.rule (Analysis.scores a) = ruleNames /\
    map Rule.max_points (Analysis.scores a) = [20; 15; 15; 15; 20; 10; 5] /\
    map Rule.earned_points (Analysis.scores a) = map Rule.earned_points scores /\
    sumZ (map Rule.max_points (Analysis.scores a)) = 100 /\
    TOTAL_POINTS = 20 + 15 + 15 + 15 + 20 + 10 + 5 /\
    Analysis.overall_score a =
      JS.roundDiv (sumZ (map Rule.earned_points (Analysis.scores a)) * 100)
        (sumZ (map Rule.max_points (Analysis.scores a))) /\
    Analysis.overall_score a = sumZ (map Rule.earned_points (Analysis.scores a)) /\
    0 <= Analysis.overall_score a <= 100 /\
    (90 <= Analysis.overall_score a -> Analysis.grade a = A) /\
    (80 <= Analysis.overall_score a < 90 -> Analysis.grade a = B) /\
    (70 <= Analysis.overall_score a < 80 -> Analysis.grade a = C) /\
    (60 <= Analysis.overall_score a < 70 -> Analysis.grade a = D) /\
    (Analysis.overall_score a < 60 -> Analysis.grade a = F).
Proof.
  intros Hwf.
  destruct (analyzeFlat_total config items context title description intro Hwf)
    as [a Ha].
  destruct (analyzeFlat_Ok _ _ _ _ _ _ _ Ha)
    as [scores [Hrun [Hscore [Hgrade Hscores]]]].
  exists scores, a.
  pose proof (runValidators_shape items scores Hrun) as [Hnames [Hmaxima _]].
  pose proof (runValidators_totalMax items scores Hrun) as Hmax.
  pose proof (runValidators_totalEarned items scores Hrun) as Hearned.
  destruct (outputScores_numbers config scores) as [Hn [Hm He]].
  change TOTAL_POINTS with 100 in Hmax, Hearned.
  rewrite totalMaxOf_sum in Hmax. rewrite totalEarnedOf_sum in Hearned, Hscore.
  rewrite Hscores, Hn, Hm, He.
  split; [exact Hrun|]. split; [exact Ha|]. split; [exact Hnames|].
  split; [exact Hmaxima|]. split; [reflexivity|]. split; [exact Hmax|].
  split; [reflexivity|]. split; [now rewrite Hscore, Hmax|].
  split; [now rewrite Hscore, percentage_id|].
  split; [rewrite Hscore, percentage_id; exact Hearned|].
  rewrite Hgrade. apply calculateGrade_thresholds.
Qed.

Lemma flat_score_and_grade_witness :
  wellFormed sampleItems /\
  exists a,
    analyzeFlat defaultConfig sampleItems document None None None = Ok a /\
    map Rule.max_points (Analysis.scores a) = [20; 15; 15; 15; 20; 10; 5] /\
    map Rule.earned_points (Analysis.scores a) = [20; 15; 12; 15; 20; 7; 5] /\
    Analysis.overall_score a = 94 /\
    Analysis.overall_score a =
      JS.roundDiv (sumZ (map Rule.earned_points (Analysis.scores a)) * 100)
        (sumZ (map Rule.max_points (Analysis.scores a))) /\
    Analysis.grade a = A.
Proof.
  assert (Hwf : wellFormed sampleItems)
    by (repeat constructor; vm_compute; discriminate).
  split; [exact Hwf|].
  destruct (flat_score_and_grade defaultConfig sampleItems document None None None Hwf)
    as [scores [a [_ [Ha [_ [Hmaxima [_ [_ [_ [Hscore [_ [_ [Hgrade _]]]]]]]]]]]]].
  assert (E : match analyzeFlat defaultConfig sampleItems document None None None with
              | Ok r => map Rule.earned_points (Analysis.scores r)
                          = [20; 15; 12; 15; 20; 7; 5] /\
                        Analysis.overall_score r = 94
              | Throw _ => False
              end) by (vm_compute; split; reflexivity).
  rewrite Ha in E. destruct E as [Hearned Hoverall].
  exists a. split; [exact Ha|]. split; [exact Hmaxima|]. split; [exact Hearned|].
  split; [exact Hoverall|]. split; [exact Hscore|]. apply Hgrade. lia.
Defined.

(** ** The document-level score of a sectioned report *)

Lemma sumScores_map l : sumScores l = sumZ (map SectionScore.score l).
Proof.
  unfold sumScores, sumZ. generalize 0. induction l as [|s l IH]; intros z.
  - reflexivity.
  - cbn [map fold_left]. apply IH.
Qed.

Lemma lengthZ_map {X Y : Type} (f : X -> Y) l : lengthZ (map f l) = lengthZ l.
Proof.
  unfold lengthZ. now rewrite length_map.
Qed.

(** The overall score is the rounded mean of the scores of the sections. *)
Lemma sectioned_overall_score config sections globalContext title description intro a :
  analyzeSections config sections globalContext title description intro = Ok a ->
  exists blocks,
    mapResult sectionBlock sections = Ok blocks /\
    Analysis.overall_score a =
      JS.roundDiv (sumZ (map blockScore blocks)) (lengthZ sections).
Proof.
  intros Ha. destruct (analyzeSections_Ok _ _ _ _ _ _ _ Ha) as [totals [Hloop [-> _]]].
  destruct (sections_loop _ _ _ _ Hloop) as [blocks [Hblocks [_ [Hscores _]]]].
  exists blocks. split; [exact Hblocks|].
  cbn [initialTotals sectionScores map app] in Hscores.
  rewrite sumScores_map, <- (lengthZ_map SectionScore.score), Hscores, lengthZ_map.
  unfold lengthZ. now rewrite (mapResult_length _ _ _ Hblocks).
Qed.

Lemma sumZ_single z : sumZ [z] = z.
Proof.
  reflexivity.
Qed.

(** C4. A sectioned input of one section scores what the flat input with the
    items of that section scores: both analyses return a report on validated
    items and the two overall scores are equal. *)
Theorem single_section_matches_flat
  config config' section context globalContext title description intro
  title' description' intro' :
  wellFormed (Section.items section) ->
  exists flat sectioned,
    analyzeFlat config (Section.items section) context title description intro
      = Ok flat /\
    analyzeSections config' [section] globalContext title' description' intro'
      = Ok sectioned /\
    Analysis.overall_score sectioned = Analysis.overall_score flat.
Proof.
  intros Hwf.
  destruct (analyzeFlat_total config (Section.items section) context title
              description intro Hwf) as [flat Hflat].
  destruct (analyzeSections_total config' [section] globalContext title' description'
              intro') as [sectioned Hsectioned].
  { split; [discriminate|]. now constructor. }
  exists flat, sectioned. split; [exact Hflat|]. split; [exact Hsectioned|].
  destruct (analyzeFlat_Ok _ _ _ _ _ _ _ Hflat) as [scores [Hrun [-> _]]].
  destruct (sectioned_overall_score _ _ _ _ _ _ _ Hsectioned) as [blocks [Hblocks ->]].
  cbn [mapResult] in Hblocks. unfold sectionBlock in Hblocks.
  rewrite Hrun in Hblocks. cbn [bind] in Hblocks. injection Hblocks as <-.
  cbn [map]. rewrite sumZ_single. change (lengthZ [section]) with 1.
  rewrite roundDiv_one. unfold blockScore. now rewrite totalEarnedOf_mapIssues.
Qed.

Lemma single_section_matches_flat_witness :
  wellFormed sampleItems /\
  exists flat sectioned,
    analyzeFlat defaultConfig sampleItems document None None None = Ok flat /\
    analyzeSections defaultConfig [Section.mk "Pets" None None sampleItems None]
      document None None None = Ok sectioned /\
    Analysis.overall_score sectioned = Analysis.overall_score flat.
Proof.
  split; [repeat constructor; vm_compute; discriminate|].
  apply (single_section_matches_flat defaultConfig defaultConfig
           (Section.mk "Pets" None None sampleItems None) document document
           None None None None None None).
  repeat constructor; vm_compute; discriminate.
Defined.

(** ** Serial position *)

Lemma checkPosition_step count issues points entry :
  (outsideZones count entry = true /\
   exists w,
     checkPosition count (issues, points) entry = (issues ++ [w], points - 5) /\
     Issue.severity w = warning /\ Issue.item_index w = Some (snd entry)) \/
  (outsideZones count entry = false /\
   checkPosition count (issues, points) entry = (issues, points)).
Proof.
  destruct entry as [item index]. unfold checkPosition, outsideZones. cbn [snd].
  change SERIAL_POSITION.PRIMACY_ZONE with 2.
  change SERIAL_POSITION.RECENCY_ZONE with 1.
  destruct (negb (index <? 2) && negb (index >=? count - 1))%bool.
  - left. split; [reflexivity|]. eexists. split; [reflexivity|]. split; reflexivity.
  - right. split; reflexivity.
Qed.

Lemma checkPosition_fold count l : forall issues points,
  snd (fold_left (checkPosition count) l (issues, points)) =
    points - 5 * lengthZ (filter (outsideZones count) l) /\
  map Issue.item_index (fst (fold_left (checkPosition count) l (issues, points))) =
    map Issue.item_index issues
    ++ map (fun entry => Some (snd entry)) (filter (outsideZones count) l) /\
  map Issue.severity (fst (fold_left (checkPosition count) l (issues, points))) =
    map Issue.severity issues
    ++ map (fun _ => warning) (filter (outsideZones count) l).
Proof.
  induction l as [|entry l IH]; intros issues points.
  - cbn [fold_left filter map fst snd]. rewrite !app_nil_r.
    change (lengthZ []) with 0. repeat split; try reflexivity. lia.
  - cbn [fold_left filter].
    destruct (checkPosition_step count issues points entry)
      as [[-> [w [-> [Hsev Hidx]]]]|[-> ->]].
    + destruct (IH (issues ++ [w]) (points - 5)) as [Hp [Hi Hs]].
      rewrite Hp, Hi, Hs, !map_app, <- !app_assoc, lengthZ_cons.
      cbn [map app]. rewrite Hsev, Hidx.
      repeat split; try reflexivity. lia.
    + apply IH.
Qed.

Lemma filter_filter {X : Type} (f g : X -> bool) l :
  filter g (filter f l) = filter (fun x => (f x && g x)%bool) l.
Proof.
  induction l as [|x l IH]; [reflexivity|]. cbn [filter].
  destruct (f x); cbn [filter andb]; [destruct (g x)|]; now rewrite IH.
Qed.

Lemma existsb_isHigh_hasTag items :
  existsb isHigh items = true -> existsb hasTag items = true.
Proof.
  rewrite !existsb_exists. intros [item [Hin Hhigh]]. exists item. split; [exact Hin|].
  unfold isHigh in Hhigh. unfold hasTag. now destruct (importance item).
Qed.

(** C7. In a list of more than three items with a high-importance item,
    every high-importance item outside the first two and the last position
    costs 5 points, floored at 0, and raises one warning; five items with
    the only high-importance one at index 2 earn 10 of 15 with one warning;
    more than four items without any importance tag get one suggestion and
    keep all the points. *)
Theorem serial_position_valley items a b c d e :
  (3 < lengthZ items -> existsb isHigh items = true ->
   Rule.max_points (validateSerialPosition items) = 15 /\
   Rule.earned_points (validateSerialPosition items) =
     Z.max 0 (15 - 5 * lengthZ (valley items)) /\
   map Issue.item_index (Rule.issues (validateSerialPosition items)) =
     map (fun entry => Some (snd entry)) (valley items) /\
   map Issue.severity (Rule.issues (validateSerialPosition items)) =
     map (fun _ => warning) (valley items)) /\
  (isHigh a = false -> isHigh b = false -> isHigh c = true ->
   isHigh d = false -> isHigh e = false ->
   Rule.max_points (validateSerialPosition [a; b; c; d; e]) = 15 /\
   Rule.earned_points (validateSerialPosition [a; b; c; d; e]) = 10 /\
   map Issue.item_index (Rule.issues (validateSerialPosition [a; b; c; d; e]))
     = [Some 2] /\
   map Issue.severity (Rule.issues (validateSerialPosition [a; b; c; d; e]))
     = [warning]) /\
  (4 < lengthZ items -> existsb hasTag items = false ->
   Rule.max_points (validateSerialPosition items) = 15 /\
   Rule.earned_points (validateSerialPosition items) = 15 /\
   map Issue.severity (Rule.issues (validateSerialPosition items)) = [suggestion]).
Proof.
  assert (General : forall l, 3 < lengthZ l -> existsb isHigh l = true ->
    Rule.max_points (validateSerialPosition l) = 15 /\
    Rule.earned_points (validateSerialPosition l) =
      Z.max 0 (15 - 5 * lengthZ (valley l)) /\
    map Issue.item_index (Rule.issues (validateSerialPosition l)) =
      map (fun entry => Some (snd entry)) (valley l) /\
    map Issue.severity (Rule.issues (validateSerialPosition l)) =
      map (fun _ => warning) (valley l)).
  { intros l Hlen Hhigh. unfold validateSerialPosition.
    rewrite (existsb_isHigh_hasTag l Hhigh).
    assert (Hgt : (lengthZ l >? 3) = true) by (apply Z.gtb_lt; exact Hlen).
    rewrite Hgt. cbn [andb].
    pose proof (checkPosition_fold (lengthZ l)
                  (filter (fun '(item, _) => isHigh item) (indexed l))
                  [] SERIAL_POSITION.POINTS) as [Hp [Hi Hs]].
    destruct (fold_left _ _ _) as [issues points]. fields.
    cbn [map app] in Hi, Hs. rewrite Hp, Hi, Hs.
    assert (E : filter (outsideZones (lengthZ l))
                  (filter (fun '(item, _) => isHigh item) (indexed l)) = valley l).
    { rewrite filter_filter. unfold valley. apply filter_ext.
      intros [item index]. reflexivity. }
    rewrite E. repeat split; reflexivity. }
  split; [exact (General items)|]. split.
  - intros Ha Hb Hc Hd He.
    destruct (General [a; b; c; d; e]) as [Hmax [Hearned [Hindex Hseverity]]].
    + reflexivity.
    + cbn [existsb]. rewrite Hc. now rewrite !orb_true_r.
    + assert (E : valley [a; b; c; d; e] = [(c, 2)]).
      { unfold valley, indexed. cbn [indexedFrom filter fst].
        rewrite Ha, Hb, Hc, Hd, He. reflexivity. }
      rewrite Hmax, Hearned, Hindex, Hseverity, E. repeat split; reflexivity.
  - intros Hlen Htag. unfold validateSerialPosition. rewrite Htag. cbn [andb].
    assert (Hgt : (lengthZ items >? 4) = true) by (apply Z.gtb_lt; exact Hlen).
    rewrite Hgt. fields. repeat split; reflexivity.
Qed.

Lemma serial_position_valley_witness :
  (3 < lengthZ sampleRanked /\ existsb isHigh sampleRanked = true /\
   Rule.earned_points (validateSerialPosition sampleRanked) =
     Z.max 0 (15 - 5 * lengthZ (valley sampleRanked))) /\
  Rule.earned_points (validateSerialPosition sampleRanked) = 10 /\
  (4 < lengthZ sampleUnranked /\ existsb hasTag sampleUnranked = false /\
   map Issue.severity (Rule.issues (validateSerialPosition sampleUnranked))
     = [suggestion]).
Proof.
  split; [|split].
  - split; [reflexivity|]. split; [reflexivity|].
    apply (serial_position_valley sampleRanked (plain "") (plain "") (plain "")
             (plain "") (plain "")); reflexivity.
  - apply (serial_position_valley [] (plain "Open the valve") (plain "Check the gauge")
             (mkItem "Close the hatch" None (Some high))
             (mkItem "Log the reading" None (Some low)) (plain "Leave the room"));
      reflexivity.
  - split; [reflexivity|]. split; [reflexivity|].
    apply (serial_position_valley sampleUnranked (plain "") (plain "") (plain "")
             (plain "") (plain "")); reflexivity.
Defined.

(** ** The stable sort by severity *)

Lemma insertSorted_front {X : Type} (compare : X -> X -> Z) x l :
  Forall (fun y => compare x y <= 0) l -> insertSorted compare x l = x :: l.
Proof.
  intros H. destruct H as [|y l Hy _]; [reflexivity|]. cbn [insertSorted].
  apply Z.leb_le in Hy. now rewrite Hy.
Qed.

Lemma insertSorted_skip {X : Type} (compare : X -> X -> Z) x before after :
  Forall (fun y => 0 < compare x y) before ->
  insertSorted compare x (before ++ after) = before ++ insertSorted compare x after.
Proof.
  induction 1 as [|y before Hy _ IH]; [reflexivity|].
  cbn [app insertSorted]. apply Z.leb_gt in Hy. now rewrite Hy, IH.
Qed.

Lemma filter_severity_Forall sev (P : ValidationIssue -> Prop) l :
  (forall i, Issue.severity i = sev -> P i) -> Forall P (filter (hasSeverity sev) l).
Proof.
  intros H. apply Forall_forall. intros i Hi. apply filter_In in Hi.
  destruct Hi as [_ Hi]. apply H. unfold hasSeverity in Hi.
  destruct (Issue.severity i), sev; try discriminate; reflexivity.
Qed.

(** The sort of [getTopImprovements] puts the errors first, then the
    warnings, then the suggestions, each group in the order of the input. *)
Lemma sort_bySeverity l : sort bySeverity l = rankedStably l.
Proof.
  induction l as [|x l IH]; [reflexivity|].
  unfold sort in *. cbn [fold_right]. rewrite IH. unfold rankedStably.
  cbn [filter].
  pose proof (eq_refl : hasSeverity error x = Severity_eqb (Issue.severity x) error)
    as He.
  pose proof (eq_refl : hasSeverity warning x = Severity_eqb (Issue.severity x) warning)
    as Hw.
  pose proof (eq_refl
              : hasSeverity suggestion x = Severity_eqb (Issue.severity x) suggestion)
    as Hs.
  destruct (Issue.severity x) eqn:Hx; cbn [Severity_eqb] in He, Hw, Hs;
    rewrite He, Hw, Hs; clear He Hw Hs.
  - apply insertSorted_front. rewrite !Forall_app. repeat split;
      apply Forall_forall; intros y _; unfold bySeverity; rewrite Hx;
      destruct (Issue.severity y); cbn [severityOrder]; lia.
  - rewrite insertSorted_skip.
    + f_equal. apply insertSorted_front. rewrite Forall_app. split;
        apply filter_severity_Forall; intros y Hy; unfold bySeverity;
        rewrite Hx, Hy; cbn [severityOrder]; lia.
    + apply filter_severity_Forall. intros y Hy. unfold bySeverity.
      rewrite Hx, Hy. cbn [severityOrder]. lia.
  - rewrite insertSorted_skip.
    + f_equal. rewrite insertSorted_skip.
      * f_equal. apply insertSorted_front. apply filter_severity_Forall.
        intros y Hy. unfold bySeverity. rewrite Hx, Hy. cbn [severityOrder]. lia.
      * apply filter_severity_Forall. intros y Hy. unfold bySeverity.
        rewrite Hx, Hy. cbn [severityOrder]. lia.
    + apply filter_severity_Forall. intros y Hy. unfold bySeverity.
      rewrite Hx, Hy. cbn [severityOrder]. lia.
Qed.

(** ** Deduplication in first-seen order *)

Lemma addKey_extends keys s : exists tail, addKey keys s = keys ++ tail /\
  (List.length tail <= 1)%nat /\ forall t, In t tail -> ~ In t keys.
Proof.
  unfold addKey. destruct (has keys s) eqn:H.
  - exists []. rewrite app_nil_r. repeat split; [cbn; lia|intros t []].
  - exists [s]. repeat split; [cbn; lia|]. intros t [<-|[]]. now apply has_false.
Qed.

Lemma fold_addKey_extends names : forall keys,
  exists tail, fold_left addKey names keys = keys ++ tail /\
    forall t, In t tail -> ~ In t keys.
Proof.
  induction names as [|s names IH]; intros keys.
  - exists []. cbn [fold_left]. rewrite app_nil_r. split; [reflexivity|intros t []].
  - cbn [fold_left]. destruct (addKey_extends keys s) as [one [-> [_ Hone]]].
    destruct (IH (keys ++ one)) as [tail [-> Htail]].
    exists (one ++ tail). rewrite app_assoc. split; [reflexivity|].
    intros t Ht. apply in_app_or in Ht. destruct Ht as [Ht|Ht]; [now apply Hone|].
    intros Hin. apply (Htail t Ht). apply in_or_app. now left.
Qed.

Lemma keysOf_app names names' :
  exists tail, keysOf (names ++ names') = keysOf names ++ tail /\
    forall t, In t tail -> ~ In t names.
Proof.
  unfold keysOf. rewrite fold_left_app.
  destruct (fold_addKey_extends names' (fold_left addKey names [])) as [tail [-> H]].
  exists tail. split; [reflexivity|]. intros t Ht Hin. apply (H t Ht).
  now apply (keysOf_In names t).
Qed.

(** ** The loop that collects the suggestions *)

Lemma collectUnique_spec sorted : forall unique,
  Forall (fun i => carriesSuggestion i = true) sorted ->
  (List.length unique < 3)%nat ->
  collectUnique sorted unique =
  firstn 3 (fold_left addKey (map suggestionText sorted) unique).
Proof.
  induction sorted as [|issue sorted IH]; intros unique Hall Hlen.
  - cbn [collectUnique map fold_left]. symmetry. apply firstn_all2. lia.
  - inversion Hall as [|? ? Hissue Hrest]; subst.
    cbn [collectUnique map fold_left].
    unfold carriesSuggestion in Hissue.
    assert (Htext : forall s, Issue.suggestion issue = Some s -> suggestionText issue = s)
      by (intros s0 H0; unfold suggestionText; now rewrite H0).
    destruct (Issue.suggestion issue) as [s|] eqn:Hs; [|discriminate].
    rewrite (Htext s eq_refl), Hissue. cbn [andb]. clear Htext.
    assert (E : (if negb (has unique s) then unique ++ [s] else unique)
                = addKey unique s).
    { unfold addKey. now destruct (has unique s). }
    rewrite E. clear E.
    destruct (addKey_extends unique s) as [one [Hone [Hle _]]].
    destruct (lengthZ (addKey unique s) >=? 3) eqn:Hfull.
    + rewrite Z.geb_leb in Hfull. apply Z.leb_le in Hfull. unfold lengthZ in Hfull.
      destruct (fold_addKey_extends (map suggestionText sorted) (addKey unique s))
        as [tail [-> _]].
      assert (Hthree : List.length (addKey unique s) = 3%nat).
      { rewrite Hone in *. rewrite length_app in *. lia. }
      rewrite firstn_app, Hthree, Nat.sub_diag, firstn_O, app_nil_r.
      symmetry. apply firstn_all2. lia.
    + rewrite Z.geb_leb in Hfull. apply Z.leb_gt in Hfull. unfold lengthZ in Hfull.
      apply IH; [exact Hrest|lia].
Qed.

Lemma rankedStably_carrying l :
  Forall (fun i => carriesSuggestion i = true) l ->
  Forall (fun i => carriesSuggestion i = true) (rankedStably l).
Proof.
  intros H. unfold rankedStably. rewrite !Forall_app.
  repeat split; apply Forall_forall; intros i Hi; apply filter_In in Hi;
    rewrite Forall_forall in H; now apply H.
Qed.

Lemma getTopImprovements_items issues score :
  Improvements.items (getTopImprovements issues score) =
  firstn 3 (keysOf (map suggestionText
                      (rankedStably (filter carriesSuggestion issues)))).
Proof.
  unfold getTopImprovements. cbn [Improvements.items].
  rewrite sort_bySeverity. apply collectUnique_spec.
  - apply rankedStably_carrying. apply Forall_forall. intros i Hi.
    now apply filter_In in Hi.
  - cbn. lia.
Qed.

Lemma firstn_In {X : Type} n (l : list X) x : In x (firstn n l) -> In x l.
Proof.
  intros H. rewrite <- (firstn_skipn n l). apply in_or_app. now left.
Qed.

Lemma firstn_NoDup {X : Type} n (l : list X) : NoDup l -> NoDup (firstn n l).
Proof.
  intros H. rewrite <- (firstn_skipn n l) in H. now apply NoDup_app_remove_r in H.
Qed.

(** C9. The improvements are the suggestion texts of the issues that carry
    one, taken in the order of a stable sort by severity rank, each text once
    at its first place, cut after the third; so they are at most three and
    distinct, and the text of an error comes before every text that no error
    carries.  The flat-only engine computes the same list. *)
Theorem top_improvements_selection issues score s t :
  sort bySeverity (filter carriesSuggestion issues)
    = rankedStably (filter carriesSuggestion issues) /\
  Improvements.items (getTopImprovements issues score) =
    firstn 3 (keysOf (map suggestionText
                        (rankedStably (filter carriesSuggestion issues)))) /\
  FlatOnly.getTopImprovements issues =
    Improvements.items (getTopImprovements issues score) /\
  (List.length (Improvements.items (getTopImprovements issues score)) <= 3)%nat /\
  NoDup (Improvements.items (getTopImprovements issues score)) /\
  (In s (map suggestionText
           (filter (hasSeverity error) (filter carriesSuggestion issues))) ->
   In t (Improvements.items (getTopImprovements issues score)) ->
   ~ In t (map suggestionText
             (filter (hasSeverity error) (filter carriesSuggestion issues))) ->
   exists before after,
     Improvements.items (getTopImprovements issues score) = before ++ s :: after /\
     In t after).
Proof.
  split; [apply sort_bySeverity|].
  split; [apply getTopImprovements_items|].
  split; [reflexivity|].
  rewrite getTopImprovements_items.
  split; [apply firstn_le_length|].
  split; [apply firstn_NoDup, keysOf_NoDup|].
  unfold rankedStably. rewrite map_app.
  set (errorTexts := map suggestionText
                       (filter (hasSeverity error) (filter carriesSuggestion issues))).
  set (otherTexts := map suggestionText _).
  intros Hs Ht Hnot.
  destruct (keysOf_app errorTexts otherTexts) as [tail [Hkeys Htail]].
  rewrite Hkeys in *. rewrite firstn_app in *.
  apply in_app_or in Ht. destruct Ht as [Ht|Ht].
  - exfalso. apply Hnot. apply (keysOf_In errorTexts t). now apply firstn_In in Ht.
  - assert (Hshort : (List.length (keysOf errorTexts) < 3)%nat).
    { destruct (Nat.ltb_spec (List.length (keysOf errorTexts)) 3) as [H|H]; [exact H|].
      replace (3 - List.length (keysOf errorTexts))%nat with 0%nat in Ht by lia.
      destruct Ht. }
    rewrite (firstn_all2 (keysOf errorTexts)) by lia.
    apply (keysOf_In errorTexts s) in Hs. apply in_split in Hs.
    destruct Hs as [before [after Hsplit]]. rewrite Hsplit.
    exists before, (after ++ firstn (3 - List.length (before ++ s :: after)) tail).
    split.
    + now rewrite <- app_assoc, <- app_comm_cons.
    + apply in_or_app. right. now rewrite <- Hsplit.
Qed.

Lemma top_improvements_selection_witness :
  In "Subdivide into 3 groups"
    (map suggestionText
       (filter (hasSeverity error) (filter carriesSuggestion sampleIssues))) /\
  In "Break into two bullets"
    (Improvements.items (getTopImprovements sampleIssues 55)) /\
  exists before after,
    Improvements.items (getTopImprovements sampleIssues 55)
      = before ++ "Subdivide into 3 groups" :: after /\
    In "Break into two bullets" after.
Proof.
  split; [vm_compute; tauto|]. split; [vm_compute; tauto|].
  apply (top_improvements_selection sampleIssues 55
           "Subdivide into 3 groups" "Break into two bullets").
  - vm_compute. tauto.
  - vm_compute. tauto.
  - vm_compute. intros [H|[]]. discriminate H.
Defined.

(** ** Strict mode *)

Lemma promote_severity l : Forall (fun i => Issue.severity i = error) (map promote l).
Proof.
  apply Forall_map, Forall_forall. intros i _. reflexivity.
Qed.

Lemma hasSeverity_eq sev i : hasSeverity sev i = true <-> Issue.severity i = sev.
Proof.
  unfold hasSeverity. destruct (Issue.severity i), sev; cbn; split; congruence.
Qed.

Lemma filter_hasSeverity sev l :
  Forall (fun i => Issue.severity i = sev) (filter (hasSeverity sev) l).
Proof.
  apply filter_severity_Forall. auto.
Qed.

Lemma filter_same_severity sev l :
  Forall (fun i => Issue.severity i = sev) l -> filter (hasSeverity sev) l = l.
Proof.
  induction 1 as [|i l Hi _ IH]; [reflexivity|]. cbn [filter].
  apply hasSeverity_eq in Hi. now rewrite Hi, IH.
Qed.

Lemma filter_other_severity sev sev' l :
  sev <> sev' ->
  Forall (fun i => Issue.severity i = sev) l -> filter (hasSeverity sev') l = [].
Proof.
  intros Hne. induction 1 as [|i l Hi _ IH]; [reflexivity|]. cbn [filter].
  destruct (hasSeverity sev' i) eqn:H; [|exact IH].
  apply hasSeverity_eq in H. congruence.
Qed.

Lemma filter_carrying_severity sev l :
  Forall (fun i => Issue.severity i = sev) l ->
  Forall (fun i => Issue.severity i = sev) (filter carriesSuggestion l).
Proof.
  intros H. apply Forall_forall. intros i Hi. apply filter_In in Hi.
  rewrite Forall_forall in H. now apply H.
Qed.

(** A list already in the order of the ranks is left as it is. *)
Lemma rankedStably_buckets errs warns suggs :
  Forall (fun i => Issue.severity i = error) errs ->
  Forall (fun i => Issue.severity i = warning) warns ->
  Forall (fun i => Issue.severity i = suggestion) suggs ->
  rankedStably (errs ++ warns ++ suggs) = errs ++ warns ++ suggs.
Proof.
  intros He Hw Hs. unfold rankedStably. rewrite !filter_app.
  rewrite (filter_same_severity error errs He).
  rewrite (filter_other_severity warning error warns) by (discriminate || exact Hw).
  rewrite (filter_other_severity suggestion error suggs) by (discriminate || exact Hs).
  rewrite (filter_other_severity error warning errs) by (discriminate || exact He).
  rewrite (filter_same_severity warning warns Hw).
  rewrite (filter_other_severity suggestion warning suggs) by (discriminate || exact Hs).
  rewrite (filter_other_severity error suggestion errs) by (discriminate || exact He).
  rewrite (filter_other_severity warning suggestion warns) by (discriminate || exact Hw).
  rewrite (filter_same_severity suggestion suggs Hs).
  now rewrite !app_nil_r.
Qed.

Lemma filter_carrying_promote l :
  map suggestionText (filter carriesSuggestion (map promote l)) =
  map suggestionText (filter carriesSuggestion l).
Proof.
  induction l as [|i l IH]; [reflexivity|]. cbn [map filter].
  change (carriesSuggestion (promote i)) with (carriesSuggestion i).
  destruct (carriesSuggestion i); [|exact IH]. cbn [map]. now rewrite IH.
Qed.

(** The improvements depend on the issues only through the suggestion texts
    in the order of the stable sort. *)
Lemma getTopImprovements_determined l l' score :
  map suggestionText (rankedStably (filter carriesSuggestion l)) =
  map suggestionText (rankedStably (filter carriesSuggestion l')) ->
  getTopImprovements l score = getTopImprovements l' score.
Proof.
  intros H.
  assert (E : forall x,
    collectUnique (sort bySeverity (filter (fun i => JS.truthy (Issue.suggestion i)) x)) []
    = firstn 3 (keysOf (map suggestionText (rankedStably (filter carriesSuggestion x))))).
  { intros x. exact (getTopImprovements_items x 0). }
  unfold getTopImprovements. now rewrite !E, H.
Qed.

(** Promoting the warnings does not change the improvements drawn from the
    three buckets. *)
Lemma getTopImprovements_promoted errs warns suggs score :
  Forall (fun i => Issue.severity i = error) errs ->
  Forall (fun i => Issue.severity i = warning) warns ->
  Forall (fun i => Issue.severity i = suggestion) suggs ->
  getTopImprovements ((errs ++ map promote warns) ++ [] ++ suggs) score =
  getTopImprovements (errs ++ warns ++ suggs) score.
Proof.
  intros He Hw Hs. apply getTopImprovements_determined.
  rewrite !filter_app. cbn [filter app].
  rewrite <- (app_nil_l (filter carriesSuggestion suggs)) at 1.
  rewrite (rankedStably_buckets _ [] _).
  - rewrite (rankedStably_buckets _ _ _).
    + rewrite app_nil_l, !map_app, filter_carrying_promote, <- app_assoc. reflexivity.
    + now apply filter_carrying_severity.
    + now apply filter_carrying_severity.
    + now apply filter_carrying_severity.
  - apply Forall_app. split.
    + now apply filter_carrying_severity.
    + apply filter_carrying_severity, promote_severity.
  - constructor.
  - now apply filter_carrying_severity.
Qed.

Lemma analyzeFlat_strict citations items context title description intro normal :
  analyzeFlat (mkConfig false citations) items context title description intro
    = Ok normal ->
  exists strict,
    analyzeFlat (mkConfig true citations) items context title description intro
      = Ok strict /\
    Analysis.warnings strict = [] /\
    Analysis.errors strict =
      Analysis.errors normal ++ map promote (Analysis.warnings normal) /\
    Forall (fun i => Issue.severity i = error) (Analysis.errors normal) /\
    agreeOutsideBuckets strict normal /\
    Analysis.section_scores normal = None /\
    Analysis.summary strict =
      generateSummary (Analysis.overall_score normal)
        (lengthZ (Analysis.errors strict)) (lengthZ (Analysis.warnings strict)).
Proof.
  unfold analyzeFlat.
  destruct (runValidators items) as [scores|m]; [|discriminate].
  cbn [bind strictMode enableResearchCitations]. intros [= <-].
  eexists. split; [reflexivity|]. cbn.
  split; [reflexivity|]. split; [reflexivity|].
  split; [apply filter_hasSeverity|].
  split; [|split; reflexivity].
  unfold agreeOutsideBuckets. cbn. repeat split; reflexivity.
Qed.

Lemma analyzeSections_strict citations sections globalContext title description intro
  normal :
  analyzeSections (mkConfig false citations) sections globalContext title description
    intro = Ok normal ->
  exists strict,
    analyzeSections (mkConfig true citations) sections globalContext title description
      intro = Ok strict /\
    Analysis.warnings strict = [] /\
    Analysis.errors strict =
      Analysis.errors normal ++ map promote (Analysis.warnings normal) /\
    Forall (fun i => Issue.severity i = error) (Analysis.errors normal) /\
    agreeOutsideBuckets strict normal /\
    Analysis.section_scores normal <> None /\
    Analysis.summary strict = Analysis.summary normal.
Proof.
  unfold analyzeSections.
  destruct (forEachResult _ sections initialTotals) as [totals|m] eqn:Hloop;
    [|discriminate].
  cbn [bind strictMode enableResearchCitations].
  destruct (generateSectionedSummary _ _ _) as [summary|m]; [|discriminate].
  cbn [bind]. intros [= <-].
  eexists. split; [reflexivity|].
  destruct (sections_loop _ _ _ _ Hloop) as [blocks [_ [_ [_ [He [Hw Hs]]]]]].
  cbn [initialTotals allErrors allWarnings allSuggestions app] in He, Hw, Hs.
  cbn [Analysis.warnings Analysis.errors Analysis.summary Analysis.section_scores].
  split; [reflexivity|]. split; [reflexivity|].
  split; [rewrite He; apply filter_hasSeverity|].
  split; [|split; [discriminate|reflexivity]].
  unfold agreeOutsideBuckets.
  cbn [Analysis.title Analysis.description Analysis.intro Analysis.overall_score
       Analysis.grade Analysis.scores Analysis.suggestions Analysis.top_improvements
       Analysis.item_count Analysis.max_depth Analysis.avg_line_length
       Analysis.context_fit Analysis.context_feedback Analysis.section_scores].
  repeat split; try reflexivity.
  apply getTopImprovements_promoted.
  - rewrite He. apply filter_hasSeverity.
  - rewrite Hw. apply filter_hasSeverity.
  - rewrite Hs. apply filter_hasSeverity.
Qed.

(** ** The entry point *)

Lemma analyze_Report config input a :
  analyze config input = Some (Report a) <->
  exists bulletInput,
    validateInput input = Ok tt /\ decodeInput input = Some bulletInput /\
    dispatch config bulletInput = Ok a.
Proof.
  unfold analyze. split.
  - destruct (validateInput input) as [[]|m]; [|discriminate].
    destruct (decodeInput input) as [bulletInput|]; [|discriminate].
    destruct (dispatch config bulletInput) as [a'|m] eqn:H; [|discriminate].
    intros [= <-]. eauto.
  - intros [bulletInput [-> [-> ->]]]. reflexivity.
Qed.

(** The two modes of a decoded input, as [dispatch] tells them apart. *)
Lemma dispatch_cases config bulletInput a :
  dispatch config bulletInput = Ok a ->
  (exists sections globalContext,
     sections <> [] /\
     forall config',
       dispatch config' bulletInput =
       analyzeSections config' sections globalContext (Input.title bulletInput)
         (Input.description bulletInput) (Input.intro bulletInput)) \/
  (exists items globalContext,
     forall config',
       dispatch config' bulletInput =
       analyzeFlat config' items globalContext (Input.title bulletInput)
         (Input.description bulletInput) (Input.intro bulletInput)).
Proof.
  unfold dispatch.
  destruct (Input.sections bulletInput) as [[|first rest]|].
  - destruct (Input.items bulletInput) as [items|]; [|discriminate].
    intros _. right. eauto.
  - intros _. left. exists (first :: rest). eexists. split; [discriminate|reflexivity].
  - destruct (Input.items bulletInput) as [items|]; [|discriminate].
    intros _. right. eauto.
Qed.

(** Whenever the analysis of an input reports with strict mode off, it
    reports with strict mode on; there the warnings are empty and the errors
    are the errors of the other report followed by its warnings, each
    re-tagged as an error. *)
Lemma promoted_from_normal citations input normal :
  analyze (mkConfig false citations) input = Some (Report normal) ->
  exists strict,
    analyze (mkConfig true citations) input = Some (Report strict) /\
    Analysis.warnings strict = [] /\
    Analysis.errors strict =
      Analysis.errors normal ++ map promote (Analysis.warnings normal) /\
    Forall (fun i => Issue.severity i = error) (Analysis.errors strict) /\
    map promote (Analysis.errors strict) =
      map promote (Analysis.errors normal ++ Analysis.warnings normal).
Proof.
  intros Hnormal. apply analyze_Report in Hnormal.
  destruct Hnormal as [bulletInput [Hvalid [Hdecode Hdispatch]]].
  assert (Core : exists strict,
    dispatch (mkConfig true citations) bulletInput = Ok strict /\
    Analysis.warnings strict = [] /\
    Analysis.errors strict =
      Analysis.errors normal ++ map promote (Analysis.warnings normal) /\
    Forall (fun i => Issue.severity i = error) (Analysis.errors normal)).
  { destruct (dispatch_cases _ _ _ Hdispatch)
      as [[sections [globalContext [_ Hmode]]]|[items [globalContext Hmode]]];
      rewrite Hmode in Hdispatch.
    - destruct (analyzeSections_strict _ _ _ _ _ _ _ Hdispatch)
        as [strict [Hs [Hw [He [Hsev _]]]]].
      exists strict. rewrite Hmode. auto.
    - destruct (analyzeFlat_strict _ _ _ _ _ _ _ Hdispatch)
        as [strict [Hs [Hw [He [Hsev _]]]]].
      exists strict. rewrite Hmode. auto. }
  destruct Core as [strict [Hs [Hw [He Hsev]]]].
  exists strict. split.
  { apply analyze_Report. exists bulletInput. auto. }
  split; [exact Hw|]. split; [exact He|]. split.
  - rewrite He. apply Forall_app. split; [exact Hsev|apply promote_severity].
  - rewrite He, !map_app, map_map. reflexivity.
Qed.

(** Whenever the analysis of an input reports with strict mode off, the
    report with strict mode on agrees with it on every field other than the
    errors, the warnings and the summary; the summary of a sectioned report is
    the same too, and the summary of a flat report is computed from the sizes
    of the buckets after the promotion. *)
Lemma frame_from_normal citations input normal :
  analyze (mkConfig false citations) input = Some (Report normal) ->
  exists strict,
    analyze (mkConfig true citations) input = Some (Report strict) /\
    agreeOutsideBuckets strict normal /\
    (Analysis.section_scores normal <> None ->
     Analysis.summary strict = Analysis.summary normal) /\
    (Analysis.section_scores normal = None ->
     Analysis.summary strict =
       generateSummary (Analysis.overall_score normal)
         (lengthZ (Analysis.errors strict)) (lengthZ (Analysis.warnings strict))).
Proof.
  intros Hnormal. apply analyze_Report in Hnormal.
  destruct Hnormal as [bulletInput [Hvalid [Hdecode Hdispatch]]].
  destruct (dispatch_cases _ _ _ Hdispatch)
    as [[sections [globalContext [_ Hmode]]]|[items [globalContext Hmode]]];
    rewrite Hmode in Hdispatch.
  - destruct (analyzeSections_strict _ _ _ _ _ _ _ Hdispatch)
      as [strict [Hs [_ [_ [_ [Hframe [Hsome Hsummary]]]]]]].
    exists strict. split.
    { apply analyze_Report. exists bulletInput. rewrite Hmode. auto. }
    split; [exact Hframe|]. split; [intros _; exact Hsummary|].
    intros Hnone. contradiction.
  - destruct (analyzeFlat_strict _ _ _ _ _ _ _ Hdispatch)
      as [strict [Hs [_ [_ [_ [Hframe [Hnone Hsummary]]]]]]].
    exists strict. split.
    { apply analyze_Report. exists bulletInput. rewrite Hmode. auto. }
    split; [exact Hframe|]. split; [intros Hsome; contradiction|].
    intros _. exact Hsummary.
Qed.

(** C10, as stated, fails on a flat input with a warning: besides the two
    buckets, the summary changes. *)
Lemma strict_mode_changes_flat_summary :
  exists normal strict,
    analyze defaultConfig sampleRequest = Some (Report normal) /\
    analyze strictConfig sampleRequest = Some (Report strict) /\
    Analysis.summary normal
      = "Excellent bullet list following evidence-based best practices." /\
    Analysis.summary strict
      = "Adequate bullet list. 0 issue(s) may impact effectiveness." /\
    Analysis.summary strict <> Analysis.summary normal.
Proof.
  do 2 eexists. split; [vm_compute; reflexivity|]. split; [vm_compute; reflexivity|].
  cbn [Analysis.summary]. split; [reflexivity|]. split; [reflexivity|]. discriminate.
Qed.

(** ** Validation of the texts *)

Lemma analyze_Failure config input message :
  validateInput input = Throw message ->
  analyze config input = Some (Failure message usageHint).
Proof.
  intros H. unfold analyze. now rewrite H.
Qed.

Lemma validateItemsFrom_rejects items item location : forall i,
  In item items -> blankText item ->
  exists message, validateItemsFrom i items location = Throw message.
Proof.
  unfold blankText.
  induction items as [|first rest IH]; intros i Hin Hblank; [destruct Hin|].
  cbn [validateItemsFrom].
  destruct (negb (isObjectLike (Some first))); [eauto|].
  destruct (isNonBlankString (prop first "text")) eqn:Hfirst; cbn [negb]; [|eauto].
  destruct Hin as [->|Hin]; [congruence|]. now apply IH.
Qed.

Lemma validateSectionsFrom_rejects sections section items item : forall i,
  In section sections ->
  asArray (prop section "items") = Some items ->
  In item items -> blankText item ->
  exists message, validateSectionsFrom i sections = Throw message.
Proof.
  induction sections as [|first rest IH]; intros i Hin Hitems Hitem Hblank;
    [destruct Hin|].
  cbn [validateSectionsFrom].
  destruct (negb (isObjectLike (Some first))); [eauto|].
  destruct (negb (isNonBlankString (prop first "title"))); [eauto|].
  destruct Hin as [->|Hin].
  - rewrite Hitems. destruct items as [|head tail]; [destruct Hitem|].
    unfold validateItemsArray.
    destruct (validateItemsFrom_rejects (head :: tail) item
                (JS.template ["section "; JS.dq; showString (prop section "title"); JS.dq])
                0 Hitem Hblank) as [message ->].
    cbn [bind]. eauto.
  - destruct (asArray (prop first "items")) as [[|head tail]|]; [eauto| |eauto].
    destruct (validateItemsArray _ _) as [[]|message]; cbn [bind]; [|eauto].
    now apply IH.
Qed.

(** The message names the index and the location of the first item with a
    blank text, when the elements before it are accepted. *)
Lemma validateItemsFrom_names before item after location : forall i,
  Forall acceptedItem before ->
  isObjectLike (Some item) = true -> blankText item ->
  validateItemsFrom i (before ++ item :: after) location =
  Throw (JS.template ["Item at index "; JS.showZ (i + lengthZ before); " in ";
                      location; " must have non-empty text property"]).
Proof.
  unfold blankText. intros i Hbefore Hobject Hblank. revert i.
  induction Hbefore as [|first before [Hfirst Htext] _ IH]; intros i.
  - cbn [app validateItemsFrom]. rewrite Hobject, Hblank. cbn [negb].
    change (lengthZ []) with 0. now rewrite Z.add_0_r.
  - cbn [app validateItemsFrom]. rewrite Hfirst, Htext. cbn [negb].
    rewrite IH, lengthZ_cons.
    replace (i + 1 + lengthZ before) with (i + (lengthZ before + 1)) by lia.
    reflexivity.
Qed.

Lemma validateSectionsFrom_names sectionsBefore section sectionsAfter before item after :
  forall i,
  Forall acceptedSection sectionsBefore ->
  isObjectLike (Some section) = true ->
  isNonBlankString (prop section "title") = true ->
  asArray (prop section "items") = Some (before ++ item :: after) ->
  Forall acceptedItem before ->
  isObjectLike (Some item) = true -> blankText item ->
  validateSectionsFrom i (sectionsBefore ++ section :: sectionsAfter) =
  Throw (JS.template ["Item at index "; JS.showZ (lengthZ before); " in ";
                      sectionLocation section; " must have non-empty text property"]).
Proof.
  intros i Hsections Hobject Htitle Hitems Hbefore Hitem Hblank. revert i.
  induction Hsections as [|first sectionsBefore Hfirst _ IH]; intros i.
  - cbn [app validateSectionsFrom]. rewrite Hobject, Htitle, Hitems. cbn [negb].
    destruct (before ++ item :: after) eqn:E; [now destruct before|].
    rewrite <- E. fold (sectionLocation section). unfold validateItemsArray.
    now rewrite (validateItemsFrom_names before item after (sectionLocation section) 0
                   Hbefore Hitem Hblank).
  - destruct Hfirst as [Hfo [Hft [head [tail [Hfi Hfv]]]]].
    cbn [app validateSectionsFrom]. rewrite Hfo, Hft, Hfi. cbn [negb].
    fold (sectionLocation first). rewrite Hfv. cbn [bind]. apply IH.
Qed.

(** C6, as the code has it. A blank text (missing, not a string, or empty
    once trimmed) in a top-level item of a flat input, or in an item of a
    section, makes the validation throw, and [analyze] answers with the error
    payload carrying the message of the validation, without running a rule;
    when the elements before the item are accepted (and, in a sectioned
    input, the sections before its own), the message names the index of the
    item and the location.  Children are not visited. *)
Theorem listed_blank_text_rejected
  config input items item sections section before after location :
  (asArray (prop input "items") = Some items ->
   In item items -> blankText item ->
   exists message,
     validateInput input = Throw message /\
     analyze config input = Some (Failure message usageHint)) /\
  (asArray (prop input "sections") = Some sections ->
   In section sections ->
   asArray (prop section "items") = Some items ->
   In item items -> blankText item ->
   exists message,
     validateInput input = Throw message /\
     analyze config input = Some (Failure message usageHint)) /\
  (Forall acceptedItem before ->
   isObjectLike (Some item) = true -> blankText item ->
   validateItemsArray (before ++ item :: after) location =
   Throw (JS.template ["Item at index "; JS.showZ (lengthZ before); " in ";
                       location; " must have non-empty text property"])) /\
  (isObjectLike (Some input) = true ->
   asArray (prop input "items") = Some (before ++ item :: after) ->
   asArray (prop input "sections") = None ->
   Forall acceptedItem before ->
   isObjectLike (Some item) = true -> blankText item ->
   analyze config input =
   Some (Failure
           (JS.template ["Item at index "; JS.showZ (lengthZ before);
                         " in items must have non-empty text property"])
           usageHint)) /\
  (forall sectionsBefore sectionsAfter,
   isObjectLike (Some input) = true ->
   asArray (prop input "items") = None ->
   asArray (prop input "sections")
     = Some (sectionsBefore ++ section :: sectionsAfter) ->
   Forall acceptedSection sectionsBefore ->
   isObjectLike (Some section) = true ->
   isNonBlankString (prop section "title") = true ->
   asArray (prop section "items") = Some (before ++ item :: after) ->
   Forall acceptedItem before ->
   isObjectLike (Some item) = true -> blankText item ->
   analyze config input =
   Some (Failure
           (JS.template ["Item at index "; JS.showZ (lengthZ before); " in ";
                         sectionLocation section;
                         " must have non-empty text property"])
           usageHint)).
Proof.
  assert (Rejected : forall message,
            validateInput input = Throw message ->
            exists message,
              validateInput input = Throw message /\
              analyze config input = Some (Failure message usageHint)).
  { intros message H. exists message. split; [exact H|now apply analyze_Failure]. }
  split; [|split; [|split; [|split]]].
  - intros Hitems Hin Hblank. unfold validateInput in *.
    destruct (negb (isObjectLike (Some input))); [eapply Rejected; reflexivity|].
    rewrite Hitems in *.
    destruct (asArray (prop input "sections")); [eapply Rejected; reflexivity|].
    destruct items as [|head tail]; [destruct Hin|].
    destruct (validateItemsFrom_rejects (head :: tail) item "items" 0 Hin Hblank)
      as [message Hmessage].
    apply (Rejected message). exact Hmessage.
  - intros Hsections Hsection Hitems Hin Hblank. unfold validateInput in *.
    destruct (negb (isObjectLike (Some input))); [eapply Rejected; reflexivity|].
    rewrite Hsections in *.
    destruct (asArray (prop input "items")); [eapply Rejected; reflexivity|].
    destruct sections as [|head tail]; [destruct Hsection|].
    destruct (validateSectionsFrom_rejects (head :: tail) section items item 0
                Hsection Hitems Hin Hblank) as [message Hmessage].
    apply (Rejected message). exact Hmessage.
  - intros Hbefore Hobject Hblank. unfold validateItemsArray.
    now rewrite (validateItemsFrom_names before item after location 0 Hbefore
                   Hobject Hblank).
  - intros Hinput Hitems Hsections Hbefore Hobject Hblank.
    apply analyze_Failure. unfold validateInput.
    rewrite Hinput, Hitems, Hsections. cbn [negb].
    destruct (before ++ item :: after) eqn:E; [now destruct before|].
    rewrite <- E. unfold validateItemsArray.
    now rewrite (validateItemsFrom_names before item after "items" 0 Hbefore
                   Hobject Hblank).
  - intros sectionsBefore sectionsAfter Hinput Hitems Hsections Hbefore Hobject
      Htitle Hlist Haccepted Hitem Hblank.
    apply analyze_Failure. unfold validateInput.
    rewrite Hinput, Hitems, Hsections. cbn [negb].
    destruct (sectionsBefore ++ section :: sectionsAfter) eqn:E;
      [now destruct sectionsBefore|].
    rewrite <- E.
    exact (validateSectionsFrom_names sectionsBefore section sectionsAfter before
             item after 0 Hbefore Hobject Htitle Hlist Haccepted Hitem Hblank).
Qed.

Lemma listed_blank_text_rejected_witness :
  blankText (JObject [("text", JString "   ")]) /\
  blankText untitledItem /\
  analyze defaultConfig (flatRequest ["Use cats."; "   "; "Use dogs."]) =
    Some (Failure "Item at index 1 in items must have non-empty text property"
            usageHint) /\
  (exists message,
     validateInput sampleRejectedRequest = Throw message /\
     analyze defaultConfig sampleRejectedRequest = Some (Failure message usageHint)) /\
  analyze defaultConfig sampleRejectedRequest =
    Some (Failure
            (JS.template ["Item at index 1 in section "; JS.dq; "Pets"; JS.dq;
                          " must have non-empty text property"])
            usageHint).
Proof.
  split; [reflexivity|]. split; [reflexivity|]. split; [|split].
  - apply (listed_blank_text_rejected defaultConfig
             (flatRequest ["Use cats."; "   "; "Use dogs."]) []
             (JObject [("text", JString "   ")]) [] JNull
             [JObject [("text", JString "Use cats.")]]
             [JObject [("text", JString "Use dogs.")]] "").
    + reflexivity.
    + reflexivity.
    + reflexivity.
    + repeat constructor.
    + reflexivity.
    + reflexivity.
  - apply (listed_blank_text_rejected defaultConfig sampleRejectedRequest
             [JObject [("text", JString "Use cats.")]; untitledItem] untitledItem
             [ JObject [("title", JString "Plans");
                        ("items", JArray [JObject [("text", JString "Build it")]])];
               petsSection ]
             petsSection [] [] "").
    + reflexivity.
    + right. left. reflexivity.
    + reflexivity.
    + right. left. reflexivity.
    + reflexivity.
  - refine (proj2 (proj2 (proj2 (proj2
              (listed_blank_text_rejected defaultConfig sampleRejectedRequest []
                 untitledItem [] petsSection
                 [JObject [("text", JString "Use cats.")]] [] ""))))
              [ JObject [("title", JString "Plans");
                         ("items", JArray [JObject [("text", JString "Build it")]])] ]
              [] _ _ _ _ _ _ _ _ _ _).
    + reflexivity.
    + reflexivity.
    + reflexivity.
    + repeat constructor. exists (JObject [("text", JString "Build it")]), [].
      split; reflexivity.
    + reflexivity.
    + reflexivity.
    + reflexivity.
    + repeat constructor.
    + reflexivity.
    + reflexivity.
Defined.

(** C6, as stated, fails on a nested child: an item whose child has an empty
    text passes the validation and is analyzed. *)
Lemma nested_blank_text_accepted :
  blankText blankChild /\
  validateInput nestedBlankRequest = Ok tt /\
  exists analysis,
    analyze defaultConfig nestedBlankRequest = Some (Report analysis) /\
    Analysis.overall_score analysis = 94.
Proof.
  split; [reflexivity|]. split; [reflexivity|].
  eexists. split; [vm_compute; reflexivity|]. reflexivity.
Qed.

(** ** The pattern classifier *)

Lemma splitSpaces_nonempty s : JS.splitSpaces s <> [].
Proof.
  induction s as [|c s IH]; cbn [JS.splitSpaces]; [discriminate|].
  destruct (JS.isWhiteSpace c).
  - destruct (JS.startsWithSpace s); [exact IH|discriminate].
  - destruct (JS.splitSpaces s); discriminate.
Qed.

(** Every text has a first word (possibly empty). *)
Lemma firstWordOf_total text : exists firstWord, firstWordOf text = Some firstWord.
Proof.
  unfold firstWordOf. pose proof (splitSpaces_nonempty (JS.trim text)) as H.
  destruct (JS.splitSpaces (JS.trim text)); [congruence|eauto].
Qed.

(** The classifier of the sections-capable engine is total and applies the
    checks of the specification in their order, on the first word lowercased
    and stripped of everything but the letters a to z. *)
Lemma detectGrammarPattern_order text :
  exists firstWord,
    firstWordOf text = Some firstWord /\
    detectGrammarPattern text = classifyInOrder firstWord text.
Proof.
  destruct (firstWordOf_total text) as [firstWord H]. exists firstWord.
  split; [exact H|]. unfold detectGrammarPattern. now rewrite H.
Qed.

(** The classifier of the flat-only engine differs only by the set of
    excluded nouns, which it does not have. *)
Lemma flatOnly_detectGrammarPattern_agrees text firstWord :
  firstWordOf text = Some firstWord ->
  has nonGerunds firstWord = false ->
  FlatOnly.detectGrammarPattern text = detectGrammarPattern text.
Proof.
  intros H Hnoun. unfold FlatOnly.detectGrammarPattern, detectGrammarPattern.
  rewrite H, Hnoun. cbn [negb]. now rewrite andb_true_r.
Qed.

(** C8, at the input on which the flat-only engine departs from it: the first
    word of the text is one of the excluded nouns, the classifier of the
    sections-capable engine passes it over as the specification says, and the
    classifier of the flat-only engine calls it a gerund. *)
Theorem flatOnly_classifier_takes_noun_for_gerund :
  firstWordOf "String theory needs funding" = Some "string" /\
  has nonGerunds "string" = true /\
  detectGrammarPattern "String theory needs funding" = unknown /\
  FlatOnly.detectGrammarPattern "String theory needs funding" = verb_gerund.
Proof.
  repeat split; reflexivity.
Qed.

(** ** The merged scores of a sectioned report *)

Lemma fold_addKey_blocks blocks :
  Forall (fun block => map Rule.rule block = ruleNames) blocks ->
  fold_left addKey (map Rule.rule (List.concat blocks)) ruleNames = ruleNames.
Proof.
  induction 1 as [|block blocks Hblock _ IH]; [reflexivity|].
  cbn [List.concat]. rewrite map_app, fold_left_app, Hblock.
  change (fold_left addKey ruleNames ruleNames) with ruleNames. exact IH.
Qed.

(** With at least one section, the merged scores are the seven rules in
    their order. *)
Lemma keysOf_blocks blocks :
  blocks <> [] ->
  Forall (fun block => map Rule.rule block = ruleNames) blocks ->
  keysOf (map Rule.rule (List.concat blocks)) = ruleNames.
Proof.
  intros Hne Hall. destruct Hall as [|block blocks Hblock Hall]; [congruence|].
  unfold keysOf. cbn [List.concat]. rewrite map_app, fold_left_app, Hblock.
  change (fold_left addKey ruleNames []) with ruleNames.
  now apply fold_addKey_blocks.
Qed.

Lemma scoresOf_length rule l :
  List.length (scoresOf rule l) =
  List.length (filter (fun name => String.eqb name rule) (map Rule.rule l)).
Proof.
  unfold scoresOf. induction l as [|s l IH]; [reflexivity|]. cbn [filter map].
  destruct (String.eqb (Rule.rule s) rule); cbn [List.length]; now rewrite IH.
Qed.

Lemma scoresOf_concat rule blocks :
  scoresOf rule (List.concat blocks) = flat_map (scoresOf rule) blocks.
Proof.
  unfold scoresOf. induction blocks as [|block blocks IH]; [reflexivity|].
  cbn [List.concat flat_map]. now rewrite filter_app, IH.
Qed.

(** Each section contributes one score to each of the seven rules. *)
Lemma scoresOf_one_per_block rule blocks :
  In rule ruleNames ->
  Forall (fun block => map Rule.rule block = ruleNames) blocks ->
  lengthZ (scoresOf rule (List.concat blocks)) = lengthZ blocks.
Proof.
  intros Hrule Hall. rewrite scoresOf_concat. unfold lengthZ. f_equal.
  induction Hall as [|block blocks Hblock _ IH]; [reflexivity|].
  cbn [flat_map]. rewrite length_app, IH, scoresOf_length, Hblock.
  cbn [List.length]. f_equal.
  unfold ruleNames in Hrule. cbn [In] in Hrule.
  repeat (destruct Hrule as [<-|Hrule]; [reflexivity|]). destruct Hrule.
Qed.

Lemma blocks_named sections blocks :
  mapResult sectionBlock sections = Ok blocks ->
  Forall (fun block => map Rule.rule block = ruleNames) blocks.
Proof.
  intros H. apply mapResult_Forall2 in H.
  induction H as [|s b sections blocks Hb _ IH]; constructor; [|exact IH].
  now apply sectionBlock_shape in Hb.
Qed.

Lemma flat_map_issues_mapIssues f scores :
  flat_map Rule.issues (map (mapIssues f) scores) = map f (flat_map Rule.issues scores).
Proof.
  induction scores as [|s scores IH]; [reflexivity|].
  cbn [map flat_map]. rewrite map_app, IH. reflexivity.
Qed.

(** The aggregation read off the prefixed rule scores of the sections. *)
Lemma aggregation_by_blocks config sections globalContext title description intro :
  wellFormedSections sections ->
  exists blocks a,
    mapResult sectionBlock sections = Ok blocks /\
    analyzeSections config sections globalContext title description intro = Ok a /\
    Analysis.overall_score a =
      JS.roundDiv (sumZ (map blockScore blocks)) (lengthZ sections) /\
    Analysis.grade a = calculateGrade (Analysis.overall_score a) /\
    Analysis.scores a =
      outputScores config
        (map (fun rule =>
                meanOfRule (lengthZ sections) rule
                  (scoresOf rule (List.concat blocks)))
           ruleNames) /\
    forall rule, In rule ruleNames ->
      lengthZ (scoresOf rule (List.concat blocks)) = lengthZ sections.
Proof.
  intros Hwf.
  destruct (analyzeSections_total config sections globalContext title description
              intro Hwf) as [a Ha].
  destruct (sectioned_overall_score _ _ _ _ _ _ _ Ha) as [blocks [Hblocks Hoverall]].
  destruct (analyzeSections_Ok _ _ _ _ _ _ _ Ha) as [totals [Hloop [_ [Hgrade Hscores]]]].
  destruct (sections_loop _ _ _ _ Hloop) as [blocks' [Hblocks' [Hall _]]].
  assert (blocks' = blocks) by congruence. subst blocks'.
  cbn [initialTotals allRuleScores app] in Hall.
  pose proof (blocks_named sections blocks Hblocks) as Hnamed.
  assert (Hcount : lengthZ blocks = lengthZ sections).
  { unfold lengthZ. now rewrite (mapResult_length _ _ _ Hblocks). }
  assert (Hne : blocks <> []).
  { destruct Hwf as [Hsections _]. intros ->. apply Hsections.
    apply mapResult_length in Hblocks. now destruct sections. }
  exists blocks, a.
  split; [exact Hblocks|]. split; [exact Ha|]. split; [exact Hoverall|].
  split; [exact Hgrade|]. split.
  - rewrite Hscores, Hall, aggregateRuleScores_spec, (keysOf_blocks blocks Hne Hnamed).
    f_equal. apply map_ext_in. intros rule Hrule.
    now rewrite (scoresOf_one_per_block rule blocks Hrule Hnamed), Hcount.
  - intros rule Hrule.
    now rewrite (scoresOf_one_per_block rule blocks Hrule Hnamed).
Qed.

Lemma prefixIssue_titled title issue : prefixIssue title issue = titledIssue title issue.
Proof.
  reflexivity.
Qed.

Lemma scoresOf_mapIssues rule f raw :
  scoresOf rule (map (mapIssues f) raw) = map (mapIssues f) (scoresOf rule raw).
Proof.
  unfold scoresOf. induction raw as [|s raw IH]; [reflexivity|].
  cbn [map filter mapIssues Rule.rule].
  destruct (String.eqb (Rule.rule s) rule); cbn [map]; now rewrite IH.
Qed.

(** The prefixed rule scores of the sections, from the rule scores that the
    validators return on each of them. *)
Lemma blocks_of_raws sections : forall blocks,
  mapResult sectionBlock sections = Ok blocks ->
  exists raws,
    Forall2 (fun section raw => runValidators (Section.items section) = Ok raw)
      sections raws /\
    blocks =
      map (fun entry =>
             map (mapIssues (prefixIssue (Section.title (fst entry)))) (snd entry))
        (combine sections raws).
Proof.
  induction sections as [|section sections IH]; intros blocks.
  - intros [= <-]. exists []. split; [constructor|reflexivity].
  - cbn [mapResult]. unfold sectionBlock at 1.
    destruct (runValidators (Section.items section)) as [raw|m] eqn:Hrun;
      [|discriminate].
    cbn [bind].
    destruct (mapResult sectionBlock sections) as [rest|m]; [|discriminate].
    cbn [bind]. intros [= <-].
    destruct (IH rest eq_refl) as [raws [Hall ->]].
    exists (raw :: raws). split; [now constructor|reflexivity].
Qed.

Lemma sectionPercent_blockScore section raw f :
  runValidators (Section.items section) = Ok raw ->
  blockScore (map (mapIssues f) raw) = sectionPercent raw /\
  0 <= sectionPercent raw <= 100.
Proof.
  intros Hrun. unfold blockScore, sectionPercent, percentage.
  rewrite totalEarnedOf_mapIssues, <- totalEarnedOf_sum, <- totalMaxOf_sum,
    (runValidators_totalMax _ _ Hrun).
  split; [reflexivity|].
  change (JS.roundDiv (totalEarnedOf raw * 100) TOTAL_POINTS)
    with (percentage (totalEarnedOf raw)).
  rewrite percentage_id. exact (runValidators_totalEarned _ _ Hrun).
Qed.

Lemma group_of_blocks rule sections : forall raws,
  List.length sections = List.length raws ->
  let blocks :=
    map (fun entry =>
           map (mapIssues (prefixIssue (Section.title (fst entry)))) (snd entry))
      (combine sections raws) in
  map Rule.max_points (flat_map (scoresOf rule) blocks)
    = map Rule.max_points (flat_map (scoresOf rule) raws) /\
  map Rule.earned_points (flat_map (scoresOf rule) blocks)
    = map Rule.earned_points (flat_map (scoresOf rule) raws) /\
  flat_map Rule.issues (flat_map (scoresOf rule) blocks)
    = flat_map (titledIssuesOf rule) (combine sections raws).
Proof.
  induction sections as [|section sections IH]; intros [|raw raws] Hlen;
    try discriminate; [repeat split; reflexivity|].
  injection Hlen as Hlen. destruct (IH raws Hlen) as [Hmax [Hearned Hissues]].
  cbn [combine map flat_map fst snd]. cbn zeta in Hmax, Hearned, Hissues.
  rewrite scoresOf_mapIssues, !map_app, !flat_map_app, Hmax, Hearned, Hissues,
    flat_map_issues_mapIssues, !map_map.
  repeat split; reflexivity.
Qed.

(** C5. On validated sections the validators return the rule scores of each
    section and the report exists.  Its overall score is the rounded mean of
    the section scores, each the rounded percentage of the points earned in
    its section and between 0 and 100.  Its rule scores are the seven rules
    in their order, each with one score from every section: a merged score
    holds the rounded means, over the sections, of the maxima and of the
    earned points of its rule, and the issues of that rule from all sections
    in order, each message prefixed by the title of its section in
    brackets. *)
Theorem sectioned_aggregation config sections globalContext title description intro :
  wellFormedSections sections ->
  exists raws a,
    Forall2 (fun section raw => runValidators (Section.items section) = Ok raw)
      sections raws /\
    analyzeSections config sections globalContext title description intro = Ok a /\
    Forall (fun raw => 0 <= sectionPercent raw <= 100) raws /\
    Analysis.overall_score a =
      JS.roundDiv (sumZ (map sectionPercent raws)) (lengthZ sections) /\
    Analysis.grade a = calculateGrade (Analysis.overall_score a) /\
    Analysis.scores a =
      outputScores config (map (mergedRule sections raws) ruleNames) /\
    (enableResearchCitations config = true ->
     Analysis.scores a = map (mergedRule sections raws) ruleNames) /\
    map Rule.rule (Analysis.scores a) = ruleNames /\
    map Rule.max_points (Analysis.scores a) =
      map (fun rule => Rule.max_points (mergedRule sections raws rule)) ruleNames /\
    map Rule.earned_points (Analysis.scores a) =
      map (fun rule => Rule.earned_points (mergedRule sections raws rule)) ruleNames /\
    forall rule, In rule ruleNames ->
      lengthZ (flat_map (scoresOf rule) raws) = lengthZ sections.
Proof.
  intros Hwf.
  destruct (aggregation_by_blocks config sections globalContext title description
              intro Hwf)
    as [blocks [a [Hblocks [Ha [Hoverall [Hgrade [Hscores Hcount]]]]]]].
  destruct (blocks_of_raws sections blocks Hblocks) as [raws [Hraws Heq]].
  pose proof (Forall2_length Hraws) as Hlen.
  assert (Hpercent : map blockScore blocks = map sectionPercent raws /\
                     Forall (fun raw => 0 <= sectionPercent raw <= 100) raws).
  { rewrite Heq. clear -Hraws.
    induction Hraws as [|section raw sections raws Hrun _ [IHs IHr]];
      [split; [reflexivity|constructor]|].
    cbn [combine map fst snd].
    destruct (sectionPercent_blockScore section raw
                (prefixIssue (Section.title section)) Hrun) as [-> Hrange].
    rewrite IHs. split; [reflexivity|now constructor]. }
  destruct Hpercent as [Hpercent Hrange].
  exists raws, a.
  split; [exact Hraws|]. split; [exact Ha|]. split; [exact Hrange|].
  split; [now rewrite Hoverall, Hpercent|]. split; [exact Hgrade|].
  assert (Hgroup : forall rule,
            meanOfRule (lengthZ sections) rule (scoresOf rule (List.concat blocks))
              = mergedRule sections raws rule /\
            lengthZ (scoresOf rule (List.concat blocks))
              = lengthZ (flat_map (scoresOf rule) raws)).
  { intros rule. rewrite scoresOf_concat, Heq.
    destruct (group_of_blocks rule sections raws Hlen) as [Hmax [Hearned Hissues]].
    cbn zeta in Hmax, Hearned, Hissues.
    unfold meanOfRule, mergedRule.
    rewrite totalMaxOf_sum, totalEarnedOf_sum, Hmax, Hearned, Hissues.
    split; [reflexivity|].
    rewrite <- (lengthZ_map Rule.max_points), Hmax, lengthZ_map. reflexivity. }
  assert (Hmerged : Analysis.scores a =
                    outputScores config (map (mergedRule sections raws) ruleNames)).
  { rewrite Hscores. f_equal. apply map_ext. intros rule. apply Hgroup. }
  destruct (outputScores_numbers config (map (mergedRule sections raws) ruleNames))
    as [Hn [Hm He]].
  split; [exact Hmerged|]. split; [|split; [|split; [|split]]].
  - intros Hcited. rewrite Hmerged. unfold outputScores. now rewrite Hcited.
  - rewrite Hmerged, Hn, map_map. cbn [mergedRule Rule.rule]. apply map_id.
  - rewrite Hmerged, Hm, map_map. reflexivity.
  - rewrite Hmerged, He, map_map. reflexivity.
  - intros rule Hrule. rewrite <- (proj2 (Hgroup rule)). now apply Hcount.
Qed.

Lemma sectioned_aggregation_witness :
  wellFormedSections sampleSections /\
  exists raws a,
    Forall2 (fun section raw => runValidators (Section.items section) = Ok raw)
      sampleSections raws /\
    analyzeSections defaultConfig sampleSections document None None None = Ok a /\
    Analysis.scores a = map (mergedRule sampleSections raws) ruleNames /\
    Analysis.overall_score a = 91 /\
    map Rule.max_points (Analysis.scores a) = [20; 15; 15; 15; 20; 10; 5] /\
    map Rule.earned_points (Analysis.scores a) = [18; 15; 12; 15; 18; 9; 5] /\
    map (fun s => map Issue.message (Rule.issues s)) (firstn 3 (Analysis.scores a))
      = [ [ "[Plans] List has only 2 item(s), below minimum of 3" ];
          [];
          [ "[Pets] Item 1 is short (9 chars), may appear sparse";
            "[Pets] Item 2 is short (9 chars), may appear sparse";
            "[Pets] Item 3 is short (9 chars), may appear sparse";
            "[Plans] Item 1 is short (33 chars), may appear sparse";
            "[Plans] Item 2 is short (16 chars), may appear sparse";
            "[Plans] Item 101 is short (15 chars), may appear sparse" ] ].
Proof.
  assert (Hwf : wellFormedSections sampleSections)
    by (split; [discriminate|repeat constructor; vm_compute; discriminate]).
  split; [exact Hwf|].
  destruct (sectioned_aggregation defaultConfig sampleSections document None None None
              Hwf) as [raws [a [Hraws [Ha [_ [_ [_ [_ [Hscores _]]]]]]]]].
  specialize (Hscores eq_refl).
  assert (E : match analyzeSections defaultConfig sampleSections document None None None
              with
              | Ok r =>
                  Analysis.overall_score r = 91 /\
                  map Rule.max_points (Analysis.scores r) = [20; 15; 15; 15; 20; 10; 5] /\
                  map Rule.earned_points (Analysis.scores r) = [18; 15; 12; 15; 18; 9; 5] /\
                  map (fun s => map Issue.message (Rule.issues s))
                    (firstn 3 (Analysis.scores r))
                    = [ [ "[Plans] List has only 2 item(s), below minimum of 3" ];
                        [];
                        [ "[Pets] Item 1 is short (9 chars), may appear sparse";
                          "[Pets] Item 2 is short (9 chars), may appear sparse";
                          "[Pets] Item 3 is short (9 chars), may appear sparse";
                          "[Plans] Item 1 is short (33 chars), may appear sparse";
                          "[Plans] Item 2 is short (16 chars), may appear sparse";
                          "[Plans] Item 101 is short (15 chars), may appear sparse" ] ]
              | Throw _ => False
              end) by (vm_compute; repeat split; reflexivity).
  rewrite Ha in E. destruct E as [Hoverall [Hmax [Hearned Hmessages]]].
  exists raws, a. repeat split; assumption.
Defined.

(** ** Validated requests are well formed *)

Lemma decodeItem_text v item :
  decodeItem v = Some item -> prop v "text" = Some (JString (text item)).
Proof.
  destruct v as [| | | |elements|properties]; try discriminate.
  cbn [decodeItem prop].
  destruct (lookup "text" properties) as [[| | |t| |]|]; try discriminate.
  destruct (decodeImportance _) as [imp|]; try discriminate.
  match goal with
  | |- match ?children with Some _ => _ | None => _ end = _ -> _ =>
      destruct children as [cs|]; [|discriminate]
  end.
  intros [= <-]. reflexivity.
Qed.

Lemma validated_items_wellFormed elements location : forall i items,
  validateItemsFrom i elements location = Ok tt ->
  decodeAll decodeItem elements = Some items ->
  wellFormed items.
Proof.
  induction elements as [|v elements IH]; intros i items.
  - intros _ [= <-]. constructor.
  - cbn [validateItemsFrom decodeAll].
    destruct (negb (isObjectLike (Some v))); [discriminate|].
    destruct (isNonBlankString (prop v "text")) eqn:Htext; [|discriminate].
    cbn [negb]. intros Hrest.
    destruct (decodeItem v) as [item|] eqn:Hitem; [|discriminate].
    destruct (decodeAll decodeItem elements) as [rest|] eqn:Hdecode; [|discriminate].
    intros [= <-]. constructor; [|now apply (IH (i + 1))].
    apply decodeItem_text in Hitem. rewrite Hitem in Htext.
    unfold nonBlank. cbn [isNonBlankString] in Htext.
    apply negb_true_iff, Z.eqb_neq in Htext. exact Htext.
Qed.

Lemma decodeSection_items v section :
  decodeSection v = Some section ->
  exists elements,
    asArray (prop v "items") = Some elements /\
    decodeAll decodeItem elements = Some (Section.items section).
Proof.
  unfold decodeSection.
  destruct (prop v "title") as [[| | |title| |]|]; try discriminate.
  destruct (asArray (prop v "items")) as [elements|]; [|discriminate].
  destruct (decodeOptionalString (prop v "description")); [|discriminate].
  destruct (decodeOptionalString (prop v "intro")); [|discriminate].
  destruct (decodeContext (prop v "context")); [|discriminate].
  destruct (decodeAll decodeItem elements) as [items|] eqn:H; [|discriminate].
  intros [= <-]. exists elements. split; [reflexivity|exact H].
Qed.

Lemma validated_sections_wellFormed elements : forall i sections,
  validateSectionsFrom i elements = Ok tt ->
  decodeAll decodeSection elements = Some sections ->
  Forall (fun s => wellFormed (Section.items s)) sections.
Proof.
  induction elements as [|v elements IH]; intros i sections.
  - intros _ [= <-]. constructor.
  - cbn [validateSectionsFrom decodeAll].
    destruct (negb (isObjectLike (Some v))); [discriminate|].
    destruct (negb (isNonBlankString (prop v "title"))); [discriminate|].
    destruct (decodeSection v) as [section|] eqn:Hsection.
    + destruct (decodeSection_items v section Hsection) as [items [-> Hitems]].
      destruct items as [|head tail]; [discriminate|].
      destruct (validateItemsArray (head :: tail) _) as [[]|m] eqn:Hvalid;
        [|discriminate].
      cbn [bind]. intros Hrest.
      destruct (decodeAll decodeSection elements) as [rest|] eqn:Hdecode;
        [|discriminate].
      intros [= <-]. constructor; [|now apply (IH (i + 1))].
      unfold validateItemsArray in Hvalid.
      exact (validated_items_wellFormed _ _ _ _ Hvalid Hitems).
    + intros _. destruct (decodeAll decodeSection elements); discriminate.
Qed.

Lemma decodeAll_length {X : Type} (decode : JSValue -> option X) elements xs :
  decodeAll decode elements = Some xs -> List.length xs = List.length elements.
Proof.
  revert xs. induction elements as [|v elements IH]; intros xs.
  - intros [= <-]. reflexivity.
  - cbn [decodeAll]. destruct (decode v); [|discriminate].
    destruct (decodeAll decode elements) as [rest|]; [|discriminate].
    intros [= <-]. cbn [List.length]. f_equal. now apply IH.
Qed.

Lemma decodeOptionalArray_absent {X : Type} (decode : JSValue -> option X) v decoded :
  asArray v = None -> decodeOptionalArray decode v = Some decoded -> decoded = None.
Proof.
  unfold asArray, decodeOptionalArray.
  destruct v as [[| | | |elements|]|]; try discriminate; intros _ [= <-]; reflexivity.
Qed.

Lemma decodeOptionalArray_present {X : Type} (decode : JSValue -> option X) v elements
  decoded :
  asArray v = Some elements -> decodeOptionalArray decode v = Some decoded ->
  exists xs, decoded = Some xs /\ decodeAll decode elements = Some xs.
Proof.
  unfold asArray, decodeOptionalArray.
  destruct v as [[| | | |l|]|]; try discriminate. intros [= ->].
  destruct (decodeAll decode elements) as [xs|]; [|discriminate].
  cbn [option_map]. intros [= <-]. eauto.
Qed.

(** A request that passes the validation and is a [BulletInput] is analyzed
    to a report, whatever the configuration: in flat mode its items are well
    formed, in sectioned mode its sections are. *)
Lemma valid_request_reports config input bulletInput :
  validateInput input = Ok tt ->
  decodeInput input = Some bulletInput ->
  exists a, analyze config input = Some (Report a).
Proof.
  intros Hvalid Hdecode.
  assert (Core : exists a, dispatch config bulletInput = Ok a).
  { unfold validateInput in Hvalid. unfold decodeInput in Hdecode.
    destruct (negb (isObjectLike (Some input))); [discriminate|].
    destruct (decodeOptionalArray decodeItem (prop input "items")) as [items|] eqn:Hi;
      [|discriminate].
    destruct (decodeOptionalArray decodeSection (prop input "sections"))
      as [sections|] eqn:Hs; [|discriminate].
    destruct (decodeContext (prop input "context")) as [context|]; [|discriminate].
    destruct (decodeOptionalString (prop input "title")) as [title|]; [|discriminate].
    destruct (decodeOptionalString (prop input "description")) as [description|];
      [|discriminate].
    destruct (decodeOptionalString (prop input "intro")) as [intro|]; [|discriminate].
    injection Hdecode as <-. unfold dispatch.
    cbn [Input.sections Input.items Input.context Input.title Input.description
         Input.intro].
    destruct (asArray (prop input "items")) as [elements|] eqn:Hitems,
             (asArray (prop input "sections")) as [sectionElements|] eqn:Hsections;
      try discriminate.
    - rewrite (decodeOptionalArray_absent _ _ _ Hsections Hs).
      destruct (decodeOptionalArray_present _ _ _ _ Hitems Hi) as [xs [-> Hxs]].
      destruct elements as [|head tail]; [discriminate|].
      apply analyzeFlat_total.
      exact (validated_items_wellFormed _ _ _ _ Hvalid Hxs).
    - rewrite (decodeOptionalArray_absent _ _ _ Hitems Hi).
      destruct (decodeOptionalArray_present _ _ _ _ Hsections Hs) as [xs [-> Hxs]].
      destruct sectionElements as [|head tail]; [discriminate|].
      pose proof (decodeAll_length _ _ _ Hxs) as Hlen.
      destruct xs as [|first rest]; [discriminate|].
      apply analyzeSections_total. split; [discriminate|].
      exact (validated_sections_wellFormed _ _ _ Hvalid Hxs). }
  destruct Core as [a Ha]. exists a. apply analyze_Report. eauto.
Qed.

(** ** Strict mode on validated requests *)

Lemma retagged_promoted warnings :
  Forall (fun i => Issue.severity i = warning) warnings ->
  Forall2 retagged warnings (map promote warnings).
Proof.
  induction 1 as [|w warnings Hw _ IH]; cbn [map]; constructor; [|exact IH].
  unfold retagged. cbn [promote Issue.severity Issue.rule Issue.message
    Issue.item_index Issue.suggestion Issue.research_basis].
  repeat split; try reflexivity. exact Hw.
Qed.

Lemma retagged_apartFromSeverity warnings promoted :
  Forall2 retagged warnings promoted ->
  map apartFromSeverity promoted = map apartFromSeverity warnings.
Proof.
  induction 1 as [|w e warnings promoted [_ [_ [Hr [Hm [Hi [Hs Hb]]]]]] _ IH];
    [reflexivity|].
  cbn [map]. rewrite IH. unfold apartFromSeverity.
  now rewrite Hr, Hm, Hi, Hs, Hb.
Qed.

Lemma dispatch_warnings citations bulletInput a :
  dispatch (mkConfig false citations) bulletInput = Ok a ->
  Forall (fun i => Issue.severity i = warning) (Analysis.warnings a).
Proof.
  unfold dispatch.
  destruct (Input.sections bulletInput) as [[|first rest]|];
    try (destruct (Input.items bulletInput) as [items|]; [|discriminate]).
  1,3: unfold analyzeFlat;
       destruct (runValidators items) as [scores|m]; [|discriminate];
       cbn [bind strictMode]; intros [= <-]; cbn [Analysis.warnings];
       apply filter_hasSeverity.
  unfold analyzeSections.
  destruct (forEachResult _ _ initialTotals) as [totals|m] eqn:Hloop; [|discriminate].
  destruct (sections_loop _ _ _ _ Hloop) as [blocks [_ [_ [_ [_ [Hw _]]]]]].
  cbn [initialTotals allWarnings app] in Hw.
  cbn [bind strictMode].
  destruct (generateSectionedSummary _ _ _) as [summary|m]; [|discriminate].
  cbn [bind]. intros [= <-]. cbn [Analysis.warnings]. rewrite Hw.
  apply filter_hasSeverity.
Qed.

(** C3. Every request that passes the validation and is a [BulletInput] is
    reported with strict mode off and with strict mode on (the citation
    toggle being the same).  In the strict report the warnings are empty and
    the errors are the errors of the other report followed by one issue for
    each of its warnings, in order: the same rule, message, item index,
    suggestion and research basis, with the severity [error].  So all the
    errors of the strict report are errors, and apart from the severity they
    are the errors and the warnings of the other report. *)
Theorem strict_mode_promotes_warnings citations input bulletInput :
  validateInput input = Ok tt ->
  decodeInput input = Some bulletInput ->
  exists normal strict promoted,
    analyze (mkConfig false citations) input = Some (Report normal) /\
    analyze (mkConfig true citations) input = Some (Report strict) /\
    Analysis.warnings strict = [] /\
    Analysis.errors strict = Analysis.errors normal ++ promoted /\
    Forall2 retagged (Analysis.warnings normal) promoted /\
    Forall (fun i => Issue.severity i = error) (Analysis.errors strict) /\
    map apartFromSeverity (Analysis.errors strict) =
      map apartFromSeverity (Analysis.errors normal ++ Analysis.warnings normal).
Proof.
  intros Hvalid Hdecode.
  destruct (valid_request_reports (mkConfig false citations) input bulletInput
              Hvalid Hdecode) as [normal Hnormal].
  destruct (promoted_from_normal citations input normal Hnormal)
    as [strict [Hstrict [Hw [He [Hsev _]]]]].
  assert (Hwarnings : Forall (fun i => Issue.severity i = warning)
                        (Analysis.warnings normal)).
  { apply analyze_Report in Hnormal.
    destruct Hnormal as [bulletInput' [_ [_ Hdispatch]]].
    exact (dispatch_warnings _ _ _ Hdispatch). }
  pose proof (retagged_promoted _ Hwarnings) as Hretagged.
  exists normal, strict, (map promote (Analysis.warnings normal)).
  split; [exact Hnormal|]. split; [exact Hstrict|]. split; [exact Hw|].
  split; [exact He|]. split; [exact Hretagged|]. split; [exact Hsev|].
  rewrite He, !map_app. f_equal. now apply retagged_apartFromSeverity.
Qed.

Lemma strict_mode_promotes_warnings_witness :
  validateInput sampleRequest = Ok tt /\
  exists normal strict,
    analyze defaultConfig sampleRequest = Some (Report normal) /\
    analyze strictConfig sampleRequest = Some (Report strict) /\
    Analysis.errors normal = [] /\
    map Issue.severity (Analysis.warnings normal) = [warning] /\
    Analysis.warnings strict = [] /\
    map Issue.severity (Analysis.errors strict) = [error] /\
    map apartFromSeverity (Analysis.errors strict) =
      [ ("FIRST_WORDS",
         JS.template ["Items 1, 3 start with similar words "; JS.dq; "use cats.";
                      JS.dq],
         None,
         Some "Vary the opening words to help readers quickly distinguish between items",
         Some RESEARCH_CITATIONS.FIRST_WORDS) ] /\
    map apartFromSeverity (Analysis.errors strict) =
      map apartFromSeverity (Analysis.errors normal ++ Analysis.warnings normal).
Proof.
  split; [reflexivity|].
  destruct (strict_mode_promotes_warnings true sampleRequest
              (Input.mk (Some sampleItems) None None None None None)
              eq_refl eq_refl)
    as [normal [strict [promoted [Hnormal [Hstrict [Hw [_ [_ [_ Hsame]]]]]]]]].
  assert (E : match analyze defaultConfig sampleRequest,
                    analyze strictConfig sampleRequest with
              | Some (Report n), Some (Report s) =>
                  Analysis.errors n = [] /\
                  map Issue.severity (Analysis.warnings n) = [warning] /\
                  map Issue.severity (Analysis.errors s) = [error] /\
                  map apartFromSeverity (Analysis.errors s) =
                    [ ("FIRST_WORDS",
         JS.template ["Items 1, 3 start with similar words "; JS.dq; "use cats.";
                      JS.dq],
         None,
                       Some "Vary the opening words to help readers quickly distinguish between items",
                       Some RESEARCH_CITATIONS.FIRST_WORDS) ]
              | _, _ => False
              end) by (vm_compute; repeat split; reflexivity).
  change (mkConfig false true) with defaultConfig in Hnormal.
  change (mkConfig true true) with strictConfig in Hstrict.
  rewrite Hnormal, Hstrict in E. destruct E as [He [Hsev [Hsev' Hcore]]].
  exists normal, strict. repeat split; assumption.
Defined.

(** C10, as the code has it. Every request that passes the validation and
    is a [BulletInput] is reported with strict mode off and on, and the two
    reports agree on every field other than the errors, the warnings and the
    summary: the rule scores, with the severities of their issues, and the
    improvements are the same.  The summary of a sectioned report is the same
    too; the summary of a flat report is computed from the sizes of the
    buckets after the promotion. *)
Theorem strict_mode_frame citations input bulletInput :
  validateInput input = Ok tt ->
  decodeInput input = Some bulletInput ->
  exists normal strict,
    analyze (mkConfig false citations) input = Some (Report normal) /\
    analyze (mkConfig true citations) input = Some (Report strict) /\
    agreeOutsideBuckets strict normal /\
    (Analysis.section_scores normal <> None ->
     Analysis.summary strict = Analysis.summary normal) /\
    (Analysis.section_scores normal = None ->
     Analysis.summary strict =
       generateSummary (Analysis.overall_score normal)
         (lengthZ (Analysis.errors strict)) (lengthZ (Analysis.warnings strict))).
Proof.
  intros Hvalid Hdecode.
  destruct (valid_request_reports (mkConfig false citations) input bulletInput
              Hvalid Hdecode) as [normal Hnormal].
  destruct (frame_from_normal citations input normal Hnormal) as [strict Hstrict].
  exists normal, strict. split; [exact Hnormal|exact Hstrict].
Qed.

Lemma strict_mode_frame_witness :
  validateInput sampleSectionedRequest = Ok tt /\
  exists normal strict,
    analyze defaultConfig sampleSectionedRequest = Some (Report normal) /\
    analyze strictConfig sampleSectionedRequest = Some (Report strict) /\
    agreeOutsideBuckets strict normal /\
    (Analysis.section_scores normal <> None ->
     Analysis.summary strict = Analysis.summary normal) /\
    (Analysis.section_scores normal = None ->
     Analysis.summary strict =
       generateSummary (Analysis.overall_score normal)
         (lengthZ (Analysis.errors strict)) (lengthZ (Analysis.warnings strict))).
Proof.
  split; [reflexivity|].
  apply (strict_mode_frame true sampleSectionedRequest
           (Input.mk None
              (Some [ Section.mk "Pets" None None sampleItems None;
                      Section.mk "Plans" None None
                        [ mkItem "The roof is next" None (Some high) ] None ])
              None None None None)).
  - reflexivity.
  - reflexivity.
Defined.

(** * Further properties of the engine *)

(** ** Nesting depth *)

Lemma levelsBelow_nonneg item : 0 <= levelsBelow item.
Proof.
  destruct item as [t [cs|] imp]; cbn [levelsBelow]; [|lia].
  induction cs as [|c cs IH]; cbn [fold_right]; lia.
Qed.

Lemma deepest_nonneg items : 0 <= deepest items.
Proof.
  unfold deepest. induction items as [|item items IH]; cbn [fold_right]; lia.
Qed.

Lemma hasChildren_false_levels item : hasChildren item = false -> levelsBelow item = 0.
Proof.
  destruct item as [t [[|c cs]|] imp]; cbn; intros H; try reflexivity. discriminate.
Qed.

(** The loop of [calculateMaxDepth], started from any running maximum. *)
Lemma depth_loop below currentDepth items : forall max,
  Forall (fun item =>
            hasChildren item = true ->
            below item (currentDepth + 1) = currentDepth + levelsBelow item) items ->
  currentDepth <= max ->
  fold_left (depthStep below currentDepth) items max =
  Z.max max (currentDepth + deepest items).
Proof.
  induction items as [|item items IH]; intros max Hall Hmax.
  - cbn [fold_left deepest fold_right]. lia.
  - inversion Hall as [|? ? Hitem Hrest]; subst.
    cbn [fold_left]. unfold deepest in *. cbn [fold_right].
    rewrite IH; [|exact Hrest|unfold depthStep; destruct (hasChildren item); lia].
    unfold depthStep. destruct (hasChildren item) eqn:Hc.
    + rewrite (Hitem eq_refl). lia.
    + rewrite (hasChildren_false_levels item Hc).
      pose proof (deepest_nonneg items) as Hd. unfold deepest in Hd. lia.
Qed.

Lemma depthBelow_levels item : forall currentDepth,
  hasChildren item = true ->
  depthBelow item currentDepth = currentDepth - 1 + levelsBelow item.
Proof.
  induction item as [t cs imp IH] using BulletItem_nested_ind.
  intros currentDepth Hc. destruct cs as [cs|]; [|discriminate].
  cbn [depthBelow levelsBelow].
  rewrite (depth_loop depthBelow currentDepth cs currentDepth).
  - assert (E : fold_right (fun c m => Z.max (1 + levelsBelow c) m) 0 cs
                = 1 + deepest cs).
    { destruct cs as [|c0 cs0]; [discriminate|]. clear IH Hc.
      unfold deepest. generalize c0. induction cs0 as [|c1 cs1 IHc]; intros c.
      - cbn [fold_right]. pose proof (levelsBelow_nonneg c). lia.
      - cbn [fold_right] in *. rewrite (IHc c1). lia. }
    rewrite E. pose proof (deepest_nonneg cs). lia.
  - eapply Forall_impl; [|exact IH]. intros c Hrec Hcc.
    rewrite (Hrec (currentDepth + 1) Hcc). lia.
  - lia.
Qed.

Lemma depth_by_levels items currentDepth :
  calculateMaxDepth items currentDepth = currentDepth + deepest items.
Proof.
  unfold calculateMaxDepth.
  rewrite (depth_loop depthBelow currentDepth items currentDepth).
  - pose proof (deepest_nonneg items). lia.
  - apply Forall_forall. intros item _ Hc.
    rewrite (depthBelow_levels item (currentDepth + 1) Hc). lia.
  - lia.
Qed.

(** X1. [calculateMaxDepth] started at a depth returns that depth plus the
    most levels any item has below it; so a list without children has depth
    1, and an empty [children] array counts as no children. *)
Theorem calculateMaxDepth_levels items currentDepth :
  calculateMaxDepth items currentDepth = currentDepth + deepest items.
Proof. apply depth_by_levels. Qed.

(** X2. One level of sub-bullets is free for the hierarchy rule, a second
    one costs 8 of the 15 points with a warning, and a third one or more
    forfeits the rule with an error. *)
Theorem validateHierarchy_levels items :
  (deepest items <= 1 ->
   validateHierarchy items = Rule.mk "HIERARCHY" 15 15 []) /\
  (deepest items = 2 ->
   Rule.earned_points (validateHierarchy items) = 7 /\
   map Issue.severity (Rule.issues (validateHierarchy items)) = [warning]) /\
  (3 <= deepest items ->
   Rule.earned_points (validateHierarchy items) = 0 /\
   map Issue.severity (Rule.issues (validateHierarchy items)) = [error]).
Proof.
  unfold validateHierarchy. rewrite depth_by_levels.
  change HIERARCHY.HARD_MAX_DEPTH with 3. change HIERARCHY.MAX_DEPTH with 2.
  change HIERARCHY.POINTS with 15.
  split; [|split]; intros Hdepth.
  - destruct (Z.gtb_spec (1 + deepest items) 3); [lia|].
    destruct (Z.gtb_spec (1 + deepest items) 2); [lia|]. reflexivity.
  - destruct (Z.gtb_spec (1 + deepest items) 3); [lia|].
    destruct (Z.gtb_spec (1 + deepest items) 2); [|lia]. split; reflexivity.
  - destruct (Z.gtb_spec (1 + deepest items) 3); [|lia]. split; reflexivity.
Qed.

Lemma validateHierarchy_levels_witness :
  deepest sampleNested = 2 /\
  Rule.earned_points (validateHierarchy sampleNested) = 7 /\
  map Issue.severity (Rule.issues (validateHierarchy sampleNested)) = [warning].
Proof.
  split; [reflexivity|].
  apply (validateHierarchy_levels sampleNested). reflexivity.
Defined.

(** ** Line lengths *)

Lemma checkOwnLength_spec t index issues totalPenalty :
  exists raised,
    checkOwnLength t index (issues, totalPenalty) =
      (issues ++ raised, totalPenalty + lengthPenalty (JS.len t)) /\
    map Issue.severity raised = lengthSeverity (JS.len t) /\
    Forall (fun i => Issue.item_index i = Some index) raised.
Proof.
  unfold checkOwnLength, lengthPenalty, lengthSeverity.
  change LINE_LENGTH.HARD_MAX_CHARS with 80.
  change LINE_LENGTH.OPTIMAL_MAX_CHARS with 75.
  change LINE_LENGTH.MIN_CHARS with 40.
  destruct (JS.len t >? 80);
    [|destruct (JS.len t >? 75);
      [|destruct ((JS.len t <? 40) && (JS.len t >? 0))%bool]].
  1-3: eexists; split; [reflexivity|split; [reflexivity|]];
       constructor; [reflexivity|constructor].
  exists []. rewrite app_nil_r, Z.add_0_r. repeat split. constructor.
Qed.

Lemma sumZ_app l l' : sumZ (l ++ l') = sumZ l + sumZ l'.
Proof.
  unfold sumZ. rewrite fold_left_app.
  apply (fold_left_add_shift (fun z => z)).
Qed.

Lemma sumZ_cons z l : sumZ (z :: l) = z + sumZ l.
Proof.
  change (z :: l) with ([z] ++ l). rewrite sumZ_app. reflexivity.
Qed.

Lemma forEachChild_lengths visit index l :
  Forall (fun child => forall i issues totalPenalty,
            exists raised,
              visit child i (issues, totalPenalty) =
                (issues ++ raised,
                 totalPenalty + sumZ (map lengthPenalty (lengthsOf child))) /\
              map Issue.severity raised = flat_map lengthSeverity (lengthsOf child)) l ->
  forall childIndex issues totalPenalty,
  exists raised,
    forEachChild visit index l childIndex (issues, totalPenalty) =
      (issues ++ raised,
       totalPenalty + sumZ (map lengthPenalty (flat_map lengthsOf l))) /\
    map Issue.severity raised = flat_map lengthSeverity (flat_map lengthsOf l).
Proof.
  induction 1 as [|child l Hchild _ IH]; intros childIndex issues totalPenalty.
  - exists []. cbn [forEachChild flat_map map]. rewrite app_nil_r. split; [|reflexivity].
    f_equal. change (sumZ []) with 0. lia.
  - cbn [forEachChild flat_map].
    destruct (Hchild (index * 100 + childIndex) issues totalPenalty)
      as [first [-> Hfirst]].
    destruct (IH (childIndex + 1) (issues ++ first)
                (totalPenalty + sumZ (map lengthPenalty (lengthsOf child))))
      as [rest [-> Hrest]].
    exists (first ++ rest). rewrite map_app, sumZ_app, app_assoc. split.
    + f_equal. lia.
    + now rewrite map_app, flat_map_app, Hfirst, Hrest.
Qed.

Lemma checkItem_lengths item : forall index issues totalPenalty,
  exists raised,
    checkItem item index (issues, totalPenalty) =
      (issues ++ raised, totalPenalty + sumZ (map lengthPenalty (lengthsOf item))) /\
    map Issue.severity raised = flat_map lengthSeverity (lengthsOf item).
Proof.
  induction item as [t cs imp IH] using BulletItem_nested_ind.
  intros index issues totalPenalty. cbn [checkItem lengthsOf map flat_map].
  destruct (checkOwnLength_spec t index issues totalPenalty) as [own [-> [Hown _]]].
  rewrite sumZ_cons. destruct cs as [l|].
  - destruct (forEachChild_lengths checkItem index l IH 0 (issues ++ own)
                (totalPenalty + lengthPenalty (JS.len t))) as [rest [-> Hrest]].
    exists (own ++ rest). rewrite app_assoc. split.
    + f_equal. lia.
    + now rewrite map_app, Hown, Hrest.
  - exists own. split.
    + f_equal. cbn [map]. change (sumZ []) with 0. lia.
    + now rewrite Hown, app_nil_r.
Qed.

Lemma lineLength_by_lengths items :
  Rule.earned_points (validateLineLength items) =
    Z.max 0 (15 - sumZ (map lengthPenalty (collectLengths items))) /\
  map Issue.severity (Rule.issues (validateLineLength items)) =
    flat_map lengthSeverity (collectLengths items).
Proof.
  unfold validateLineLength, collectLengths, indexed.
  assert (Loop : forall l start issues totalPenalty,
    exists raised,
      fold_left (fun acc '(item, index) => checkItem item index acc)
        (indexedFrom start l) (issues, totalPenalty) =
        (issues ++ raised,
         totalPenalty + sumZ (map lengthPenalty (flat_map lengthsOf l))) /\
      map Issue.severity raised = flat_map lengthSeverity (flat_map lengthsOf l)).
  { induction l as [|item l IH]; intros start issues totalPenalty.
    - exists []. cbn. rewrite app_nil_r. split; [f_equal; lia|reflexivity].
    - cbn [indexedFrom fold_left flat_map].
      destruct (checkItem_lengths item start issues totalPenalty)
        as [first [-> Hfirst]].
      destruct (IH (start + 1) (issues ++ first)
                  (totalPenalty + sumZ (map lengthPenalty (lengthsOf item))))
        as [rest [-> Hrest]].
      exists (first ++ rest). rewrite map_app, sumZ_app, app_assoc. split.
      + f_equal. lia.
      + now rewrite map_app, flat_map_app, Hfirst, Hrest. }
  destruct (Loop items 0 [] 0) as [raised [-> Hraised]].
  fields. cbn [app]. change LINE_LENGTH.POINTS with 15.
  split; [f_equal; lia|exact Hraised].
Qed.

(** X3. The line-length rule visits the texts in the order in which the
    average line length collects them, children included: it earns 15 minus
    the penalties of all the lengths, floored at 0, and raises for each
    length the issue of that length, in that order. *)
Theorem validateLineLength_by_lengths items :
  Rule.earned_points (validateLineLength items) =
    Z.max 0 (15 - sumZ (map lengthPenalty (collectLengths items))) /\
  map Issue.severity (Rule.issues (validateLineLength items)) =
    flat_map lengthSeverity (collectLengths items).
Proof. apply lineLength_by_lengths. Qed.

(** ** Repeated openings *)

Lemma indicesOf_snoc k entries w i :
  indicesOf k (entries ++ [(w, i)]) =
  indicesOf k entries ++ (if String.eqb w k then [i] else []).
Proof.
  unfold indicesOf. rewrite filter_app, map_app. cbn [filter fst].
  now destruct (String.eqb w k).
Qed.

Lemma remember_keys w i entries keys :
  NoDup keys ->
  remember w i (map (fun k => (k, indicesOf k entries)) keys) =
  map (fun k => (k, indicesOf k (entries ++ [(w, i)]))) keys
  ++ (if has keys w then [] else [(w, [i])]).
Proof.
  induction 1 as [|k keys Hk Hnd IH]; [reflexivity|].
  cbn [map remember]. rewrite <- app_comm_cons. unfold has. cbn [existsb].
  rewrite (String.eqb_sym w k).
  destruct (String.eqb k w) eqn:Hkw.
  - apply String.eqb_eq in Hkw. subst k. cbn [orb]. rewrite app_nil_r.
    rewrite indicesOf_snoc, String.eqb_refl. f_equal.
    apply map_ext_in. intros r Hr. rewrite indicesOf_snoc.
    destruct (String.eqb w r) eqn:Hwr.
    + apply String.eqb_eq in Hwr. subst r. contradiction.
    + now rewrite app_nil_r.
  - cbn [orb]. rewrite IH. unfold has. f_equal.
    rewrite indicesOf_snoc, String.eqb_sym, Hkw. now rewrite app_nil_r.
Qed.

Lemma indicesOf_absent k entries : ~ In k (map fst entries) -> indicesOf k entries = [].
Proof.
  unfold indicesOf. induction entries as [|[w i] entries IH]; intros H; [reflexivity|].
  cbn [filter fst]. destruct (String.eqb w k) eqn:Hw.
  - apply String.eqb_eq in Hw. exfalso. apply H. cbn [map fst]. now left.
  - apply IH. intros Hin. apply H. cbn [map]. now right.
Qed.

(** The map holds, for each key in the order of first appearance, the
    indices at which the key occurs, in their order. *)
Lemma seenOf_spec entries :
  seenOf entries =
  map (fun k => (k, indicesOf k entries)) (keysOf (map fst entries)).
Proof.
  induction entries as [|[w i] entries IH] using rev_ind; [reflexivity|].
  unfold seenOf in *. rewrite fold_left_app. cbn [fold_left].
  rewrite IH, remember_keys by apply keysOf_NoDup.
  rewrite map_app. cbn [map fst]. rewrite keysOf_snoc. unfold addKey.
  destruct (has _ w) eqn:H; [now rewrite app_nil_r|].
  rewrite map_app. cbn [map]. do 2 f_equal.
  rewrite indicesOf_snoc, String.eqb_refl.
  apply has_false in H. rewrite keysOf_In in H.
  now rewrite (indicesOf_absent _ _ H).
Qed.

Lemma indexedFrom_fst {X : Type} (l : list X) : forall start,
  map fst (indexedFrom start l) = l.
Proof.
  induction l as [|x l IH]; intros start; [reflexivity|].
  cbn [indexedFrom map fst]. now rewrite IH.
Qed.

Lemma indicesOf_indexed k keys : forall start,
  lengthZ (indicesOf k (indexedFrom start keys)) = occurrencesOf k keys.
Proof.
  unfold indicesOf, occurrencesOf.
  induction keys as [|w keys IH]; intros start; [reflexivity|].
  cbn [indexedFrom filter fst]. specialize (IH (start + 1)).
  destruct (String.eqb w k); cbn [map]; rewrite ?lengthZ_cons; lia.
Qed.

Lemma checkGroup_step issues points entry :
  ((lengthZ (snd entry) >? 1) = true /\
   exists w,
     checkGroup (issues, points) entry = (issues ++ [w], points - 3) /\
     Issue.severity w = warning) \/
  ((lengthZ (snd entry) >? 1) = false /\
   checkGroup (issues, points) entry = (issues, points)).
Proof.
  destruct entry as [words indices]. unfold checkGroup. cbn [snd].
  destruct (lengthZ indices >? 1).
  - left. split; [reflexivity|]. eexists. split; reflexivity.
  - right. split; reflexivity.
Qed.

Lemma checkGroup_fold seen : forall issues points,
  snd (fold_left checkGroup seen (issues, points)) =
    points - 3 * lengthZ (filter (fun entry => lengthZ (snd entry) >? 1) seen) /\
  map Issue.severity (fst (fold_left checkGroup seen (issues, points))) =
    map Issue.severity issues
    ++ map (fun _ => warning) (filter (fun entry => lengthZ (snd entry) >? 1) seen).
Proof.
  induction seen as [|entry seen IH]; intros issues points.
  - cbn [fold_left filter map fst snd]. rewrite app_nil_r.
    change (lengthZ []) with 0. split; [lia|reflexivity].
  - cbn [fold_left filter].
    destruct (checkGroup_step issues points entry) as [[-> [w [-> Hsev]]]|[-> ->]].
    + destruct (IH (issues ++ [w]) (points - 3)) as [Hp Hs].
      rewrite Hp, Hs, map_app, <- app_assoc, lengthZ_cons.
      cbn [map app]. rewrite Hsev. split; [lia|reflexivity].
    + apply IH.
Qed.

Lemma occurrencesOf_cons k w keys :
  occurrencesOf k (w :: keys) =
  (if String.eqb w k then 1 else 0) + occurrencesOf k keys.
Proof.
  unfold occurrencesOf. cbn [filter].
  destruct (String.eqb w k); rewrite ?lengthZ_cons; lia.
Qed.

Lemma occurrencesOf_nonneg k keys : 0 <= occurrencesOf k keys.
Proof.
  apply lengthZ_nonneg.
Qed.

Lemma occurrencesOf_In k keys : In k keys <-> 1 <= occurrencesOf k keys.
Proof.
  induction keys as [|w keys IH].
  - cbn. split; [tauto|]. unfold occurrencesOf. cbn. unfold lengthZ. cbn. lia.
  - rewrite occurrencesOf_cons. pose proof (occurrencesOf_nonneg k keys).
    cbn [In]. destruct (String.eqb w k) eqn:Hw.
    + apply String.eqb_eq in Hw. split; [lia|auto].
    + apply String.eqb_neq in Hw. rewrite IH. split; [intros [?|?]; [congruence|lia]|].
      intros ?. right. lia.
Qed.

Lemma NoDup_occurrences keys : NoDup keys <-> forall k, occurrencesOf k keys <= 1.
Proof.
  induction keys as [|w keys IH].
  - split; [|constructor]. intros _ k. unfold occurrencesOf, lengthZ. cbn. lia.
  - split.
    + intros Hnd k. inversion Hnd as [|? ? Hw Hrest]; subst.
      rewrite occurrencesOf_cons. destruct (String.eqb w k) eqn:E.
      * apply String.eqb_eq in E. subst k.
        rewrite occurrencesOf_In in Hw. pose proof (occurrencesOf_nonneg w keys). lia.
      * apply IH with (k := k) in Hrest. lia.
    + intros H. constructor.
      * intros Hin. apply occurrencesOf_In in Hin.
        specialize (H w). rewrite occurrencesOf_cons, String.eqb_refl in H. lia.
      * apply IH. intros k. specialize (H k). rewrite occurrencesOf_cons in H.
        destruct (String.eqb w k); lia.
Qed.

Lemma repeatedKeys_nil keys : repeatedKeys keys = [] <-> NoDup keys.
Proof.
  rewrite NoDup_occurrences. unfold repeatedKeys. split.
  - intros H k.
    destruct (Z.gtb_spec (occurrencesOf k keys) 1) as [Hgt|Hle]; [|exact Hle].
    assert (Hin : In k (filter (fun k => occurrencesOf k keys >? 1) (keysOf keys))).
    { apply filter_In. split.
      - apply keysOf_In, occurrencesOf_In. lia.
      - apply Z.gtb_lt. lia. }
    rewrite H in Hin. destruct Hin.
  - intros H. induction (keysOf keys) as [|k ks IH]; [reflexivity|]. cbn [filter].
    destruct (Z.gtb_spec (occurrencesOf k keys) 1) as [Hgt|Hle]; [|exact IH].
    specialize (H k). lia.
Qed.

Lemma firstWords_by_repeats items :
  Rule.earned_points (validateFirstWords items) =
    Z.max 0 (10 - 3 * lengthZ (repeatedKeys (map firstWordsKey items))) /\
  map Issue.severity (Rule.issues (validateFirstWords items)) =
    map (fun _ => warning) (repeatedKeys (map firstWordsKey items)) /\
  (Rule.issues (validateFirstWords items) = [] <->
   NoDup (map firstWordsKey items)).
Proof.
  unfold validateFirstWords.
  change (fold_left (fun seen '(words, index) => remember words index seen)
            (indexed (map firstWordsKey items)) [])
    with (seenOf (indexed (map firstWordsKey items))).
  rewrite seenOf_spec. unfold indexed. rewrite indexedFrom_fst.
  set (keys := map firstWordsKey items).
  assert (E : filter (fun entry : string * list Z => lengthZ (snd entry) >? 1)
                (map (fun k => (k, indicesOf k (indexedFrom 0 keys))) (keysOf keys))
              = map (fun k => (k, indicesOf k (indexedFrom 0 keys))) (repeatedKeys keys)).
  { unfold repeatedKeys. induction (keysOf keys) as [|k ks IH]; [reflexivity|].
    cbn [map filter snd]. rewrite indicesOf_indexed.
    destruct (occurrencesOf k keys >? 1); cbn [map]; now rewrite IH. }
  pose proof (checkGroup_fold
                (map (fun k => (k, indicesOf k (indexedFrom 0 keys))) (keysOf keys))
                [] FIRST_WORDS.POINTS) as [Hp Hs].
  rewrite E, !lengthZ_map, map_map in *. cbn [map app] in Hs.
  destruct (fold_left checkGroup _ _) as [issues points]. fields.
  change FIRST_WORDS.POINTS with 10 in Hp. subst points.
  split; [reflexivity|]. split; [exact Hs|].
  rewrite <- repeatedKeys_nil. split.
  - intros ->. cbn [map] in Hs. symmetry in Hs. now apply map_eq_nil in Hs.
  - intros Hnil. rewrite Hnil in Hs. cbn [map] in Hs. now apply map_eq_nil in Hs.
Qed.

(** X4. The first-words rule deducts 3 points, floored at 0, and raises one
    warning for every opening (the first two words, joined by one space and
    lowercased) that more than one item has; it raises no issue exactly when
    the openings are pairwise different. *)
Theorem validateFirstWords_repeated items :
  Rule.earned_points (validateFirstWords items) =
    Z.max 0 (10 - 3 * lengthZ (repeatedKeys (map firstWordsKey items))) /\
  map Issue.severity (Rule.issues (validateFirstWords items)) =
    map (fun _ => warning) (repeatedKeys (map firstWordsKey items)) /\
  (Rule.issues (validateFirstWords items) = [] <->
   NoDup (map firstWordsKey items)).
Proof. apply firstWords_by_repeats. Qed.

Lemma validateFirstWords_repeated_witness :
  repeatedKeys (map firstWordsKey sampleRepeated) = ["use cats"] /\
  Rule.earned_points (validateFirstWords sampleRepeated) = 7 /\
  ~ NoDup (map firstWordsKey sampleRepeated).
Proof.
  destruct (validateFirstWords_repeated sampleRepeated) as [Hearned [_ Hiff]].
  split; [reflexivity|]. split; [rewrite Hearned; reflexivity|].
  intros Hnd. apply Hiff in Hnd. discriminate Hnd.
Defined.

(** ** The most common element *)

Lemma lengthZ_app {X : Type} (l l' : list X) : lengthZ (l ++ l') = lengthZ l + lengthZ l'.
Proof.
  unfold lengthZ. rewrite length_app. lia.
Qed.

Section MostCommonFacts.
Context {T : Type} (eqb : T -> T -> bool).
Hypothesis eqb_spec : forall x y, eqb x y = true <-> x = y.

Lemma eqb_refl_spec x : eqb x x = true.
Proof.
  now apply eqb_spec.
Qed.

Lemma eqb_false_spec x y : eqb x y = false <-> x <> y.
Proof.
  rewrite <- eqb_spec. destruct (eqb x y); split; congruence.
Qed.

Lemma existsb_seen seen x : existsb (fun k => eqb k x) seen = true <-> In x seen.
Proof.
  rewrite existsb_exists. split.
  - intros [k [Hin Hk]]. apply eqb_spec in Hk. now subst.
  - intros Hin. exists x. split; [exact Hin|apply eqb_refl_spec].
Qed.

Lemma addSeen_In seen x y : In y (addSeen eqb seen x) <-> In y seen \/ y = x.
Proof.
  unfold addSeen. destruct (existsb _ seen) eqn:H.
  - apply existsb_seen in H. split; [tauto|]. intros [Hin| ->]; assumption.
  - rewrite in_app_iff. simpl. intuition.
Qed.

Lemma addSeen_NoDup seen x : NoDup seen -> NoDup (addSeen eqb seen x).
Proof.
  intros Hnd. unfold addSeen. destruct (existsb _ seen) eqn:H; [exact Hnd|].
  apply NoDup_app; [exact Hnd|repeat constructor; tauto|].
  intros a Ha [<-|[]]. apply existsb_seen in Ha. congruence.
Qed.

Lemma seenKeys_snoc arr x : seenKeys eqb (arr ++ [x]) = addSeen eqb (seenKeys eqb arr) x.
Proof.
  unfold seenKeys. now rewrite fold_left_app.
Qed.

Lemma seenKeys_In arr x : In x (seenKeys eqb arr) <-> In x arr.
Proof.
  induction arr as [|y arr IH] using rev_ind; [reflexivity|].
  rewrite seenKeys_snoc, addSeen_In, in_app_iff, IH. simpl. intuition.
Qed.

Lemma seenKeys_NoDup arr : NoDup (seenKeys eqb arr).
Proof.
  induction arr as [|y arr IH] using rev_ind; [constructor|].
  rewrite seenKeys_snoc. now apply addSeen_NoDup.
Qed.

Lemma countOf_snoc k arr x :
  countOf eqb k (arr ++ [x]) = countOf eqb k arr + (if eqb x k then 1 else 0).
Proof.
  unfold countOf. rewrite filter_app, lengthZ_app. cbn [filter].
  destruct (eqb x k); reflexivity.
Qed.

Lemma countOf_absent k arr : ~ In k arr -> countOf eqb k arr = 0.
Proof.
  unfold countOf. induction arr as [|y arr IH]; intros H; [reflexivity|].
  cbn [filter]. destruct (eqb y k) eqn:Hy.
  - apply eqb_spec in Hy. exfalso. apply H. now left.
  - apply IH. intros Hin. apply H. now right.
Qed.

Lemma countOf_present k arr : In k arr -> 1 <= countOf eqb k arr.
Proof.
  unfold countOf. induction arr as [|y arr IH]; intros H; [destruct H|].
  cbn [filter]. destruct (eqb y k) eqn:Hy.
  - rewrite lengthZ_cons. pose proof (lengthZ_nonneg (filter (fun y => eqb y k) arr)). lia.
  - apply IH. destruct H as [->|H]; [|exact H].
    rewrite eqb_refl_spec in Hy. discriminate.
Qed.

Lemma bump_keys x arr keys :
  NoDup keys ->
  bump eqb x (map (fun k => (k, countOf eqb k arr)) keys) =
  map (fun k => (k, countOf eqb k (arr ++ [x]))) keys
  ++ (if existsb (fun k => eqb k x) keys then [] else [(x, 1)]).
Proof.
  induction 1 as [|k keys Hk Hnd IH]; [reflexivity|].
  cbn [map bump existsb]. rewrite <- app_comm_cons.
  destruct (eqb k x) eqn:Hkx.
  - apply eqb_spec in Hkx. subst k. cbn [orb]. rewrite app_nil_r.
    rewrite countOf_snoc, eqb_refl_spec. f_equal.
    apply map_ext_in. intros r Hr. rewrite countOf_snoc.
    destruct (eqb x r) eqn:Hxr.
    + apply eqb_spec in Hxr. subst r. contradiction.
    + now rewrite Z.add_0_r.
  - cbn [orb]. rewrite IH. f_equal.
    rewrite countOf_snoc.
    assert (Hxk : eqb x k = false).
    { apply eqb_false_spec. apply eqb_false_spec in Hkx. congruence. }
    now rewrite Hxk, Z.add_0_r.
Qed.

(** The map of counts holds each element once, in the order of first
    appearance, with the number of its occurrences. *)
Lemma countAll_spec arr :
  countAll eqb arr = map (fun k => (k, countOf eqb k arr)) (seenKeys eqb arr).
Proof.
  induction arr as [|x arr IH] using rev_ind; [reflexivity|].
  unfold countAll in *. rewrite fold_left_app. cbn [fold_left].
  rewrite IH, bump_keys by apply seenKeys_NoDup.
  rewrite seenKeys_snoc. unfold addSeen.
  destruct (existsb _ (seenKeys eqb arr)) eqn:H; [now rewrite app_nil_r|].
  rewrite map_app. cbn [map]. do 3 f_equal.
  rewrite countOf_snoc, eqb_refl_spec.
  assert (Hout : ~ In x arr).
  { intros Hin. apply seenKeys_In, existsb_seen in Hin. congruence. }
  now rewrite (countOf_absent x arr Hout).
Qed.

(** The second loop keeps the first entry whose count is the largest. *)
Lemma pickMax_fold (entries : list (T * Z)) : forall maxCount mostCommon,
  (fold_left pickMax entries (maxCount, mostCommon) = (maxCount, mostCommon) /\
   Forall (fun e => snd e <= maxCount) entries) \/
  (exists before k c after,
     entries = before ++ (k, c) :: after /\
     fold_left pickMax entries (maxCount, mostCommon) = (c, k) /\
     maxCount < c /\
     Forall (fun e => snd e < c) before /\
     Forall (fun e => snd e <= c) after).
Proof.
  induction entries as [|[k c] entries IH]; intros maxCount mostCommon.
  - left. split; [reflexivity|constructor].
  - cbn [fold_left pickMax].
    destruct (Z.gtb_spec c maxCount) as [Hgt|Hle].
    + destruct (IH c k) as [[-> Hall]|[before [k' [c' [after [-> [-> [Hlt [Hb Ha]]]]]]]]].
      * right. exists [], k, c, entries. repeat split; try assumption. constructor.
      * right. exists ((k, c) :: before), k', c', after.
        repeat split; try assumption; try lia. constructor; [exact Hlt|exact Hb].
    + destruct (IH maxCount mostCommon)
        as [[-> Hall]|[before [k' [c' [after [-> [-> [Hlt [Hb Ha]]]]]]]]].
      * left. split; [reflexivity|]. constructor; [exact Hle|exact Hall].
      * right. exists ((k, c) :: before), k', c', after.
        repeat split; try assumption. constructor; [cbn [snd]; lia|exact Hb].
Qed.

(** An element listed after another among the first appearances first
    appears after it in the array. *)
Lemma seenKeys_order arr : forall m x before after,
  seenKeys eqb arr = before ++ m :: after -> In x after ->
  exists pre post, arr = pre ++ m :: post /\ ~ In x pre.
Proof.
  induction arr as [|y arr IH] using rev_ind; intros m x before after Hkeys Hx.
  - destruct before; discriminate.
  - rewrite seenKeys_snoc in Hkeys. unfold addSeen in Hkeys.
    destruct (existsb _ (seenKeys eqb arr)) eqn:Hy.
    + destruct (IH m x before after Hkeys Hx) as [pre [post [-> Hpre]]].
      exists pre, (post ++ [y]). split; [now rewrite <- app_assoc|exact Hpre].
    + destruct (exists_last (l := after)) as [after' [last Hlast]].
      { intros ->. destruct Hx. }
      subst after. rewrite app_comm_cons, app_assoc in Hkeys.
      apply app_inj_tail in Hkeys. destruct Hkeys as [Hkeys <-].
      apply in_app_or in Hx. destruct Hx as [Hx|[<-|[]]].
      * destruct (IH m x before after' Hkeys Hx) as [pre [post [-> Hpre]]].
        exists pre, (post ++ [y]). split; [now rewrite <- app_assoc|exact Hpre].
      * assert (Hm : In m arr).
        { apply seenKeys_In. rewrite Hkeys. apply in_or_app. right. now left. }
        apply in_split in Hm. destruct Hm as [pre [post ->]].
        exists pre, (post ++ [y]). split; [now rewrite <- app_assoc|].
        intros Hin.
        assert (Hseen : existsb (fun k => eqb k y) (seenKeys eqb (pre ++ m :: post)) = true).
        { apply existsb_seen, seenKeys_In, in_or_app. now left. }
        congruence.
Qed.

Lemma getMostCommon_counts arr :
  (getMostCommon eqb arr = None <-> arr = []) /\
  forall m, getMostCommon eqb arr = Some m ->
    In m arr /\
    (forall x, countOf eqb x arr <= countOf eqb m arr) /\
    (forall x, x <> m -> countOf eqb x arr = countOf eqb m arr ->
       exists pre post, arr = pre ++ m :: post /\ ~ In x pre).
Proof.
  split.
  - unfold getMostCommon. destruct arr; split; congruence.
  - intros m Hm. unfold getMostCommon in Hm.
    destruct arr as [|first rest] eqn:Harr; [discriminate|]. rewrite <- Harr in *.
    injection Hm as Hm. rewrite countAll_spec in Hm.
    set (entry := fun k => (k, countOf eqb k arr)) in *.
    destruct (pickMax_fold (map entry (seenKeys eqb arr)) 0 first)
      as [[_ Hall]|[before [k [c [after [Hsplit [Hfold [Hpos [Hb Ha]]]]]]]]].
    + exfalso. assert (Hin : In first arr) by (rewrite Harr; now left).
      pose proof (countOf_present first arr Hin) as Hcount.
      apply seenKeys_In in Hin. rewrite Forall_forall in Hall.
      specialize (Hall (entry first) (in_map entry _ _ Hin)). cbn [entry snd] in Hall. lia.
    + rewrite Hfold in Hm. cbn [snd] in Hm. subst k.
      apply map_eq_app in Hsplit. destruct Hsplit as [kb [krest [Hkeys [Hkb Hrest]]]].
      apply map_eq_cons in Hrest. destruct Hrest as [k [ka [-> [Hk Hka]]]].
      unfold entry in Hk. injection Hk as -> <-.
      subst before after.
      assert (Hmem : In m arr).
      { apply seenKeys_In. rewrite Hkeys. apply in_or_app. right. now left. }
      assert (Hmax : forall x, In x arr -> x <> m ->
                (In x kb /\ countOf eqb x arr < countOf eqb m arr) \/
                (In x ka /\ countOf eqb x arr <= countOf eqb m arr)).
      { intros x Hx Hne. apply seenKeys_In in Hx. rewrite Hkeys in Hx.
        apply in_app_or in Hx. destruct Hx as [Hx|[Hx|Hx]]; [|congruence|].
        - left. split; [exact Hx|]. rewrite Forall_forall in Hb.
          exact (Hb (entry x) (in_map entry _ _ Hx)).
        - right. split; [exact Hx|]. rewrite Forall_forall in Ha.
          exact (Ha (entry x) (in_map entry _ _ Hx)). }
      split; [exact Hmem|]. split.
      * intros x.
        destruct (eqb x m) eqn:Hxm; [apply eqb_spec in Hxm; subst; lia|].
        apply eqb_false_spec in Hxm.
        destruct (existsb (fun k => eqb k x) arr) eqn:Hx.
        -- apply existsb_seen in Hx. destruct (Hmax x Hx Hxm) as [[_ ?]|[_ ?]]; lia.
        -- rewrite countOf_absent; [lia|]. intros Hin. apply existsb_seen in Hin.
           congruence.
      * intros x Hne Htie.
        assert (Hx : In x arr).
        { destruct (existsb (fun k => eqb k x) arr) eqn:Hx;
            [now apply existsb_seen in Hx|].
          exfalso. rewrite countOf_absent in Htie; [lia|].
          intros Hin. apply existsb_seen in Hin. congruence. }
        destruct (Hmax x Hx Hne) as [[_ Hlt]|[Hafter _]]; [lia|].
        exact (seenKeys_order arr m x kb ka Hkeys Hafter).
Qed.

(** X5. [getMostCommon] answers [undefined] on the empty array only;
    otherwise it answers an element of the array that no element occurs
    more often than, and among the elements that occur as often, the one
    that appears first. *)
Theorem getMostCommon_spec arr :
  (getMostCommon eqb arr = None <-> arr = []) /\
  forall m, getMostCommon eqb arr = Some m ->
    In m arr /\
    (forall x, countOf eqb x arr <= countOf eqb m arr) /\
    (forall x, x <> m -> countOf eqb x arr = countOf eqb m arr ->
       exists pre post, arr = pre ++ m :: post /\ ~ In x pre).
Proof. apply getMostCommon_counts. Qed.

End MostCommonFacts.

Lemma GrammarPattern_eqb_spec x y : GrammarPattern_eqb x y = true <-> x = y.
Proof.
  destruct x, y; cbn; split; congruence.
Qed.

Lemma getMostCommon_spec_witness :
  getMostCommon GrammarPattern_eqb samplePatterns = Some noun_phrase /\
  countOf GrammarPattern_eqb verb_imperative samplePatterns
    = countOf GrammarPattern_eqb noun_phrase samplePatterns /\
  exists pre post,
    samplePatterns = pre ++ noun_phrase :: post /\ ~ In verb_imperative pre.
Proof.
  split; [reflexivity|]. split; [reflexivity|].
  destruct (getMostCommon_spec GrammarPattern_eqb GrammarPattern_eqb_spec samplePatterns)
    as [_ H].
  destruct (H noun_phrase eq_refl) as [_ [_ Htie]].
  apply Htie; [discriminate|reflexivity].
Defined.

(** ** Parallel structure *)

Lemma checkPattern_step dominant issues points entry :
  (offPattern dominant entry = true /\
   exists w,
     checkPattern dominant (issues, points) entry = (issues ++ [w], points - 4) /\
     Issue.severity w = warning /\ Issue.item_index w = Some (snd entry)) \/
  (offPattern dominant entry = false /\
   checkPattern dominant (issues, points) entry = (issues, points)).
Proof.
  destruct entry as [pattern index]. unfold checkPattern, offPattern. cbn [fst snd].
  destruct (_ && _)%bool.
  - left. split; [reflexivity|]. eexists. split; [reflexivity|]. split; reflexivity.
  - right. split; reflexivity.
Qed.

Lemma checkPattern_fold dominant l : forall issues points,
  snd (fold_left (checkPattern dominant) l (issues, points)) =
    points - 4 * lengthZ (filter (offPattern dominant) l) /\
  map Issue.item_index (fst (fold_left (checkPattern dominant) l (issues, points))) =
    map Issue.item_index issues
    ++ map (fun entry => Some (snd entry)) (filter (offPattern dominant) l) /\
  map Issue.severity (fst (fold_left (checkPattern dominant) l (issues, points))) =
    map Issue.severity issues
    ++ map (fun _ => warning) (filter (offPattern dominant) l).
Proof.
  induction l as [|entry l IH]; intros issues points.
  - cbn [fold_left filter map fst snd]. rewrite !app_nil_r.
    change (lengthZ []) with 0. repeat split; try reflexivity. lia.
  - cbn [fold_left filter].
    destruct (checkPattern_step dominant issues points entry)
      as [[-> [w [-> [Hsev Hidx]]]]|[-> ->]].
    + destruct (IH (issues ++ [w]) (points - 4)) as [Hp [Hi Hs]].
      rewrite Hp, Hi, Hs, !map_app, <- !app_assoc, lengthZ_cons.
      cbn [map app]. rewrite Hsev, Hidx.
      repeat split; try reflexivity. lia.
    + apply IH.
Qed.

Lemma filter_nil_Forall {X : Type} (f : X -> bool) l :
  Forall (fun x => f x = false) l -> filter f l = [].
Proof.
  induction 1 as [|x l Hx _ IH]; [reflexivity|]. cbn [filter]. now rewrite Hx.
Qed.

Lemma indexedFrom_In {X : Type} (l : list X) : forall start x i,
  In (x, i) (indexedFrom start l) -> In x l.
Proof.
  induction l as [|y l IH]; intros start x i; [intros []|].
  cbn [indexedFrom In]. intros [[= -> _]|H]; [now left|right; eapply IH; exact H].
Qed.

(** X6. With fewer than two items the structure rule is not applied.
    Otherwise it takes the most common pattern as dominant and, unless that
    one is [unknown], deducts 4 points (floored at 0) and raises a warning,
    with the index of the item, for every item of another known pattern; so
    it raises nothing when the dominant pattern is [unknown] or when all the
    items have one pattern. *)
Theorem validateStructure_dominant items :
  (lengthZ items < 2 -> validateStructure items = Rule.mk "STRUCTURE" 20 20 []) /\
  (2 <= lengthZ items ->
   exists dominant,
     getMostCommon GrammarPattern_eqb (patternsOf items) = Some dominant /\
     Rule.earned_points (validateStructure items) =
       Z.max 0 (20 - 4 * lengthZ (filter (offPattern dominant)
                                    (indexed (patternsOf items)))) /\
     map Issue.item_index (Rule.issues (validateStructure items)) =
       map (fun entry => Some (snd entry))
         (filter (offPattern dominant) (indexed (patternsOf items))) /\
     map Issue.severity (Rule.issues (validateStructure items)) =
       map (fun _ => warning)
         (filter (offPattern dominant) (indexed (patternsOf items))) /\
     (dominant = unknown -> Rule.issues (validateStructure items) = [])) /\
  (forall p, Forall (fun item => detectGrammarPattern (text item) = p) items ->
   Rule.earned_points (validateStructure items) = 20 /\
   Rule.issues (validateStructure items) = []).
Proof.
  assert (Long : 2 <= lengthZ items ->
   exists dominant,
     getMostCommon GrammarPattern_eqb (patternsOf items) = Some dominant /\
     Rule.earned_points (validateStructure items) =
       Z.max 0 (20 - 4 * lengthZ (filter (offPattern dominant)
                                    (indexed (patternsOf items)))) /\
     map Issue.item_index (Rule.issues (validateStructure items)) =
       map (fun entry => Some (snd entry))
         (filter (offPattern dominant) (indexed (patternsOf items))) /\
     map Issue.severity (Rule.issues (validateStructure items)) =
       map (fun _ => warning)
         (filter (offPattern dominant) (indexed (patternsOf items)))).
  { intros Hlen. unfold validateStructure.
    destruct (Z.ltb_spec (lengthZ items) 2) as [|_]; [lia|].
    fold (patternsOf items).
    destruct (getMostCommon GrammarPattern_eqb (patternsOf items)) as [dominant|] eqn:Hd.
    - exists dominant. split; [reflexivity|].
      pose proof (checkPattern_fold dominant (indexed (patternsOf items)) []
                    STRUCTURE.POINTS) as [Hp [Hi Hs]].
      destruct (fold_left _ _ _) as [issues points]. fields.
      cbn [map app] in Hi, Hs. change STRUCTURE.POINTS with 20 in Hp.
      subst points. repeat split; assumption.
    - exfalso.
      destruct (getMostCommon_counts GrammarPattern_eqb GrammarPattern_eqb_spec
                  (patternsOf items)) as [Hnone _].
      apply Hnone in Hd. unfold patternsOf in Hd. apply map_eq_nil in Hd.
      subst items. unfold lengthZ in Hlen. cbn in Hlen. lia. }
  split; [|split].
  - intros Hlen. unfold validateStructure.
    destruct (Z.ltb_spec (lengthZ items) 2); [reflexivity|lia].
  - intros Hlen. destruct (Long Hlen) as [dominant [Hd [He [Hi Hs]]]].
    exists dominant. repeat split; try assumption.
    intros ->. rewrite filter_nil_Forall in Hs; [now apply map_eq_nil in Hs|].
    apply Forall_forall. intros [p i] _. unfold offPattern. cbn.
    now rewrite !andb_false_r.
  - intros p Hall.
    destruct (Z.ltb_spec (lengthZ items) 2) as [Hshort|Hlen].
    + unfold validateStructure.
      destruct (Z.ltb_spec (lengthZ items) 2); [split; reflexivity|lia].
    + destruct (Long Hlen) as [dominant [Hd [He [_ Hs]]]].
      assert (Hpatterns : forall q, In q (patternsOf items) -> q = p).
      { intros q Hq. unfold patternsOf in Hq. apply in_map_iff in Hq.
        destruct Hq as [item [<- Hin]]. rewrite Forall_forall in Hall. now apply Hall. }
      assert (Hdom : dominant = p).
      { apply Hpatterns.
        now apply (getMostCommon_counts GrammarPattern_eqb GrammarPattern_eqb_spec
                     (patternsOf items)). }
      assert (Hnone : filter (offPattern dominant) (indexed (patternsOf items)) = []).
      { apply filter_nil_Forall, Forall_forall. intros [q i] Hq.
        apply indexedFrom_In, Hpatterns in Hq. subst q dominant.
        unfold offPattern. cbn [fst].
        assert (E : GrammarPattern_eqb p p = true) by now apply GrammarPattern_eqb_spec.
        rewrite E. cbn. now rewrite andb_false_r. }
      rewrite Hnone in He, Hs. cbn [map] in Hs. apply map_eq_nil in Hs.
      split; [rewrite He; reflexivity|exact Hs].
Qed.

Lemma validateStructure_dominant_witness :
  2 <= lengthZ sampleMixed /\
  exists dominant,
    getMostCommon GrammarPattern_eqb (patternsOf sampleMixed) = Some dominant /\
    Rule.earned_points (validateStructure sampleMixed) =
      Z.max 0 (20 - 4 * lengthZ (filter (offPattern dominant)
                                   (indexed (patternsOf sampleMixed)))) /\
    map Issue.item_index (Rule.issues (validateStructure sampleMixed)) =
      map (fun entry => Some (snd entry))
        (filter (offPattern dominant) (indexed (patternsOf sampleMixed))) /\
    map Issue.severity (Rule.issues (validateStructure sampleMixed)) =
      map (fun _ => warning)
        (filter (offPattern dominant) (indexed (patternsOf sampleMixed))) /\
    (dominant = unknown -> Rule.issues (validateStructure sampleMixed) = []).
Proof.
  split; [vm_compute; discriminate|].
  apply (validateStructure_dominant sampleMixed). vm_compute. discriminate.
Defined.

(** ** Formatting *)

Lemma mapResult_cases {X Y : Type} (f : X -> Result Y) l :
  (exists ys, mapResult f l = Ok ys /\ Forall (fun x => exists y, f x = Ok y) l) \/
  (exists m, mapResult f l = Throw m /\ Exists (fun x => f x = Throw m) l).
Proof.
  induction l as [|x l IH]; cbn [mapResult].
  - left. exists []. split; [reflexivity|constructor].
  - destruct (f x) as [y|m] eqn:Hx; cbn [bind].
    + destruct IH as [[ys [-> Hall]]|[m [-> Hex]]]; cbn [bind].
      * left. eexists. split; [reflexivity|]. constructor; eauto.
      * right. exists m. split; [reflexivity|]. now apply Exists_cons_tl.
    + right. exists m. split; [reflexivity|]. now apply Exists_cons_hd.
Qed.

Lemma capClass_throws item m : capClass item = Throw m <-> blank item /\
  m = "Cannot read properties of undefined (reading 'toUpperCase')".
Proof.
  unfold capClass, blank, JS.firstChar, JS.len.
  destruct (JS.trim (text item)) as [|c rest]; cbn.
  - split; [intros [= <-]; auto|intros [_ ->]; reflexivity].
  - split; [discriminate|]. intros [H _]. lia.
Qed.

Lemma formatting_outcome items :
  ((exists m, validateFormatting items = Throw m) <->
   2 <= lengthZ items /\ Exists blank items) /\
  (forall r, validateFormatting items = Ok r ->
     Rule.max_points r = 5 /\
     onlySuggestions r /\
     (lengthZ (Rule.issues r) <= 2) /\
     Rule.earned_points r = 5 - 2 * lengthZ (Rule.issues r)).
Proof.
  unfold validateFormatting, onlySuggestions.
  destruct (Z.ltb_spec (lengthZ items) 2) as [Hshort|Hlong].
  - split.
    + split; [intros [m H]; discriminate|intros [H _]; lia].
    + intros r [= <-]. fields. change FORMATTING.POINTS with 5.
      repeat split; try constructor. unfold lengthZ. cbn. lia.
  - match goal with |- context [let '(_, _) := ?p in _] =>
      assert (Hfirst : (p = ([], FORMATTING.POINTS)) \/
                       (exists s, p = ([s], FORMATTING.POINTS - 2) /\
                                  Issue.severity s = suggestion));
        [|destruct p as [issues points]]
    end.
    { destruct (getMostCommon EndClass_eqb _); [|now left].
      destruct (_ && _)%bool; [|now left].
      right. eexists. split; reflexivity. }
    destruct (mapResult_cases capClass items) as [[caps [-> Hall]]|[m [-> Hex]]];
      cbn [bind].
    + split.
      * split; [intros [m H]; destruct (getMostCommon CapClass_eqb caps);
                [destruct (_ && _)%bool|]; discriminate|].
        intros [_ Hex]. exfalso. rewrite Exists_exists in Hex.
        destruct Hex as [item [Hin Hblank]]. rewrite Forall_forall in Hall.
        destruct (Hall item Hin) as [c Hc].
        assert (Hthrow : capClass item = Throw
                  "Cannot read properties of undefined (reading 'toUpperCase')")
          by (apply capClass_throws; auto).
        congruence.
      * intros r Hr. change FORMATTING.POINTS with 5 in *.
        assert (Hsecond :
          (r = Rule.mk "FORMATTING" 5 (Z.max 0 points) issues) \/
          (exists s, r = Rule.mk "FORMATTING" 5 (Z.max 0 (points - 2)) (issues ++ [s]) /\
                     Issue.severity s = suggestion)).
        { destruct (getMostCommon CapClass_eqb caps); [|left; congruence].
          destruct (_ && _)%bool; [|left; congruence].
          right. eexists. split; [injection Hr as <-; reflexivity|reflexivity]. }
        destruct Hfirst as [[= -> ->]|[s1 [[= -> ->] Hs1]]];
          destruct Hsecond as [->|[s2 [-> Hs2]]]; fields; cbn [app];
          (split; [reflexivity|]); (split; [repeat constructor; assumption|]);
          unfold lengthZ; cbn; lia.
    + split.
      * split; [intros _|intros _; eauto].
        split; [lia|]. rewrite Exists_exists in *.
        destruct Hex as [item [Hin Hthrow]]. exists item. split; [exact Hin|].
        now apply capClass_throws in Hthrow.
      * intros r H. discriminate.
Qed.

(** X7. The formatting rule throws exactly on a list of two or more items
    one of which has a blank text.  When it returns, it has raised
    suggestions only and earns 5 points minus 2 for each of them. *)
Theorem validateFormatting_outcome items :
  ((exists m, validateFormatting items = Throw m) <->
   2 <= lengthZ items /\ Exists blank items) /\
  (forall r, validateFormatting items = Ok r ->
     Rule.max_points r = 5 /\
     onlySuggestions r /\
     (lengthZ (Rule.issues r) <= 2) /\
     Rule.earned_points r = 5 - 2 * lengthZ (Rule.issues r)).
Proof. apply formatting_outcome. Qed.

Lemma validateFormatting_outcome_witness :
  (2 <= lengthZ [plain "Use cats."; plain "   "] /\
   Exists blank [plain "Use cats."; plain "   "] /\
   exists m, validateFormatting [plain "Use cats."; plain "   "] = Throw m) /\
  (validateFormatting sampleItems = Ok (Rule.mk "FORMATTING" 5 5 []) /\
   onlySuggestions (Rule.mk "FORMATTING" 5 5 [])).
Proof.
  split.
  - assert (Hlen : 2 <= lengthZ [plain "Use cats."; plain "   "])
      by (vm_compute; discriminate).
    assert (Hblank : Exists blank [plain "Use cats."; plain "   "])
      by (apply Exists_cons_tl, Exists_cons_hd; reflexivity).
    split; [exact Hlen|]. split; [exact Hblank|].
    apply (validateFormatting_outcome [plain "Use cats."; plain "   "]).
    split; assumption.
  - split; [reflexivity|].
    apply (proj2 (validateFormatting_outcome sampleItems)
             (Rule.mk "FORMATTING" 5 5 [])).
    reflexivity.
Defined.

(** ** Errors and warnings cost points *)

Lemma lengthPenalty_nonneg length : 0 <= lengthPenalty length.
Proof.
  unfold lengthPenalty.
  repeat match goal with |- context [if ?b then _ else _] => destruct b end; lia.
Qed.

Lemma lengthPenalty_zero length : lengthPenalty length = 0 -> lengthSeverity length = [].
Proof.
  unfold lengthPenalty, lengthSeverity.
  repeat match goal with |- context [if ?b then _ else _] => destruct b end;
    intros H; try reflexivity; discriminate.
Qed.

Lemma sum_penalties_zero lengths :
  sumZ (map lengthPenalty lengths) <= 0 -> flat_map lengthSeverity lengths = [].
Proof.
  induction lengths as [|z lengths IH]; [reflexivity|].
  cbn [map flat_map]. rewrite sumZ_cons. intros H.
  pose proof (lengthPenalty_nonneg z) as Hz.
  assert (Hrest : 0 <= sumZ (map lengthPenalty lengths)).
  { clear. induction lengths as [|y l IHl]; [cbn; lia|].
    cbn [map]. rewrite sumZ_cons. pose proof (lengthPenalty_nonneg y). lia. }
  rewrite lengthPenalty_zero by lia. apply IH. lia.
Qed.

Lemma full_validateListLength items :
  Rule.earned_points (validateListLength items) = Rule.max_points (validateListLength items) ->
  onlySuggestions (validateListLength items).
Proof.
  unfold validateListLength, onlySuggestions.
  repeat match goal with |- context [if ?b then _ else _] => destruct b end;
    fields; points; intros H; try lia; repeat constructor.
Qed.

Lemma full_validateHierarchy items :
  Rule.earned_points (validateHierarchy items) = Rule.max_points (validateHierarchy items) ->
  onlySuggestions (validateHierarchy items).
Proof.
  unfold validateHierarchy, onlySuggestions.
  repeat match goal with |- context [if ?b then _ else _] => destruct b end;
    fields; points; intros H; try lia; repeat constructor.
Qed.

Lemma severities_nil (issues : list ValidationIssue) P :
  map Issue.severity issues = [] -> Forall P issues.
Proof.
  intros H. apply map_eq_nil in H. subst. constructor.
Qed.

Lemma full_validateLineLength items :
  Rule.earned_points (validateLineLength items) = Rule.max_points (validateLineLength items) ->
  onlySuggestions (validateLineLength items).
Proof.
  destruct (lineLength_by_lengths items) as [Hearned Hsev].
  rewrite Hearned.
  replace (Rule.max_points (validateLineLength items)) with 15
    by (unfold validateLineLength; destruct (fold_left _ _ _); reflexivity).
  intros H. apply severities_nil. rewrite Hsev. apply sum_penalties_zero. lia.
Qed.

Lemma full_validateSerialPosition items :
  Rule.earned_points (validateSerialPosition items)
    = Rule.max_points (validateSerialPosition items) ->
  onlySuggestions (validateSerialPosition items).
Proof.
  unfold validateSerialPosition, onlySuggestions.
  destruct (existsb hasTag items && (lengthZ items >? 3))%bool.
  - pose proof (checkPosition_fold (lengthZ items)
                  (filter (fun '(item, _) => isHigh item) (indexed items))
                  [] SERIAL_POSITION.POINTS) as [Hp [_ Hs]].
    destruct (fold_left _ _ _) as [issues points]. fields. points.
    cbn [map app] in Hs. intros H. apply severities_nil. rewrite Hs.
    destruct (filter (outsideZones (lengthZ items)) _) as [|entry rest];
      [reflexivity|].
    rewrite lengthZ_cons in Hp. pose proof (lengthZ_nonneg rest). lia.
  - destruct (lengthZ items >? 4); fields; intros _; repeat constructor.
Qed.

Lemma full_validateStructure items :
  Rule.earned_points (validateStructure items) = Rule.max_points (validateStructure items) ->
  onlySuggestions (validateStructure items).
Proof.
  unfold validateStructure, onlySuggestions.
  destruct (lengthZ items <? 2); [intros _; constructor|].
  destruct (getMostCommon _ _) as [dominant|]; [|intros _; constructor].
  pose proof (checkPattern_fold dominant
                (indexed (map (fun item => detectGrammarPattern (text item)) items))
                [] STRUCTURE.POINTS) as [Hp [_ Hs]].
  destruct (fold_left _ _ _) as [issues points]. fields. points.
  cbn [map app] in Hs. intros H. apply severities_nil. rewrite Hs.
  destruct (filter (offPattern dominant) _) as [|entry rest]; [reflexivity|].
  rewrite lengthZ_cons in Hp. pose proof (lengthZ_nonneg rest). lia.
Qed.

Lemma full_validateFirstWords items :
  Rule.earned_points (validateFirstWords items) = Rule.max_points (validateFirstWords items) ->
  onlySuggestions (validateFirstWords items).
Proof.
  destruct (firstWords_by_repeats items) as [Hearned [Hsev _]].
  rewrite Hearned.
  replace (Rule.max_points (validateFirstWords items)) with 10
    by (unfold validateFirstWords; destruct (fold_left checkGroup _ _); reflexivity).
  intros H. apply severities_nil. rewrite Hsev.
  destruct (repeatedKeys _) as [|k rest]; [reflexivity|].
  rewrite lengthZ_cons in H. pose proof (lengthZ_nonneg rest). lia.
Qed.

Lemma full_scores l :
  Forall withinBounds l -> totalEarnedOf l = totalMaxOf l ->
  Forall (fun s => Rule.earned_points s = Rule.max_points s) l.
Proof.
  induction 1 as [|s l Hs Hl IH]; [constructor|].
  rewrite totalEarnedOf_cons, totalMaxOf_cons. intros H.
  pose proof (totals_within l Hl). unfold withinBounds in Hs.
  constructor; [lia|]. apply IH. lia.
Qed.

Lemma runValidators_full items scores :
  runValidators items = Ok scores ->
  Forall (fun s => Rule.earned_points s = Rule.max_points s -> onlySuggestions s) scores.
Proof.
  unfold runValidators.
  destruct (validateFormatting items) as [r|m] eqn:Hf; [|discriminate].
  cbn [bind]. intros [= <-].
  repeat apply Forall_cons; [..|apply Forall_nil].
  - apply full_validateListLength.
  - apply full_validateHierarchy.
  - apply full_validateLineLength.
  - apply full_validateSerialPosition.
  - apply full_validateStructure.
  - apply full_validateFirstWords.
  - intros _. now apply (formatting_outcome items).
Qed.

Lemma filter_none_of_severity sev l :
  sev <> suggestion ->
  Forall (fun i => Issue.severity i = suggestion) l -> filter (hasSeverity sev) l = [].
Proof.
  intros Hne Hall. apply (filter_other_severity suggestion sev); [congruence|exact Hall].
Qed.

(** X8. Every error and every warning of a rule costs points: a flat report
    with the overall score 100 has the grade A and no errors and no
    warnings, with strict mode on or off; only suggestions can remain. *)
Theorem perfect_score_has_no_errors config items context title description intro a :
  analyzeFlat config items context title description intro = Ok a ->
  Analysis.overall_score a = 100 ->
  Analysis.grade a = A /\ Analysis.errors a = [] /\ Analysis.warnings a = [].
Proof.
  intros Ha Hscore.
  destruct (analyzeFlat_Ok _ _ _ _ _ _ _ Ha) as [scores [Hrun [Hoverall [Hgrade _]]]].
  split; [rewrite Hgrade, Hscore; reflexivity|].
  rewrite Hoverall, percentage_id in Hscore.
  pose proof (runValidators_shape _ _ Hrun) as [_ [_ Hbounds]].
  pose proof (runValidators_totalMax _ _ Hrun) as Hmax.
  change TOTAL_POINTS with 100 in Hmax.
  assert (Hfull : Forall onlySuggestions scores).
  { pose proof (full_scores scores Hbounds ltac:(lia)) as Hall.
    pose proof (runValidators_full _ _ Hrun) as Hcost.
    rewrite Forall_forall in *. intros s Hs. apply (Hcost s Hs). now apply Hall. }
  assert (Hissues : Forall (fun i => Issue.severity i = suggestion)
                      (flat_map Rule.issues scores)).
  { clear -Hfull. induction Hfull as [|s l Hs _ IH]; [constructor|].
    cbn [flat_map]. apply Forall_app. split; assumption. }
  unfold analyzeFlat in Ha. rewrite Hrun in Ha. cbn [bind] in Ha.
  rewrite (filter_none_of_severity error) in Ha by (discriminate || exact Hissues).
  rewrite (filter_none_of_severity warning) in Ha by (discriminate || exact Hissues).
  destruct (strictMode config); injection Ha as <-; split; reflexivity.
Qed.

Lemma perfect_score_has_no_errors_witness :
  exists a,
    analyzeFlat strictConfig sampleClean document None None None = Ok a /\
    Analysis.overall_score a = 100 /\
    Analysis.suggestions a <> [] /\
    Analysis.grade a = A /\ Analysis.errors a = [] /\ Analysis.warnings a = [].
Proof.
  assert (H : exists a,
            analyzeFlat strictConfig sampleClean document None None None = Ok a /\
            Analysis.overall_score a = 100 /\ Analysis.suggestions a <> []).
  { eexists. split; [vm_compute; reflexivity|]. split; [reflexivity|discriminate]. }
  destruct H as [a [Ha [Hscore Hsuggestions]]].
  exists a. split; [exact Ha|]. split; [exact Hscore|]. split; [exact Hsuggestions|].
  exact (perfect_score_has_no_errors strictConfig sampleClean document None None None
           a Ha Hscore).
Defined.

(** ** The statistics of a sectioned report *)

Lemma deepest_app l l' : deepest (l ++ l') = Z.max (deepest l) (deepest l').
Proof.
  unfold deepest. induction l as [|item l IH]; cbn [app fold_right].
  - pose proof (deepest_nonneg l') as H. unfold deepest in H. lia.
  - rewrite IH. lia.
Qed.

(** What the loop over the sections leaves in its counters. *)
Lemma sections_loop_statistics globalContext sections : forall st st',
  1 <= allMaxDepth st ->
  forEachResult (analyzeSection globalContext) sections st = Ok st' ->
  totalItems st' = totalItems st + lengthZ (allItems sections) /\
  allMaxDepth st' = Z.max (allMaxDepth st) (1 + deepest (allItems sections)) /\
  allLengths st' = allLengths st ++ collectLengths (allItems sections).
Proof.
  unfold allItems.
  induction sections as [|section sections IH]; intros st st'.
  - intros Hone [= <-]. cbn [flat_map collectLengths]. rewrite app_nil_r.
    change (lengthZ (@nil BulletItem)) with 0. change (deepest []) with 0.
    repeat split; lia.
  - intros Hone. cbn [forEachResult]. unfold analyzeSection at 1.
    destruct (runValidators (Section.items section)) as [scores|m]; [|discriminate].
    cbn [bind]. intros Hrest. apply IH in Hrest; [|cbn [allMaxDepth]; lia].
    destruct Hrest as [Hitems [Hdepth Hlengths]].
    cbn [totalItems allMaxDepth allLengths] in Hitems, Hdepth, Hlengths.
    cbn [flat_map]. rewrite lengthZ_app, deepest_app.
    rewrite depth_by_levels in Hdepth.
    unfold collectLengths in *. rewrite flat_map_app, app_assoc.
    repeat split; [lia|lia|exact Hlengths].
Qed.

(** X9. The statistics of a sectioned report are those of the concatenation
    of the items of its sections: the item count, the nesting depth, the
    mean text length and the context fit are what the flat analysis
    computes on all the items taken as one list. *)
Theorem sectioned_statistics config sections globalContext title description intro a :
  analyzeSections config sections globalContext title description intro = Ok a ->
  Analysis.item_count a = lengthZ (allItems sections) /\
  Analysis.max_depth a = calculateMaxDepth (allItems sections) 1 /\
  Analysis.avg_line_length a = calculateAvgLineLength (allItems sections) /\
  (Analysis.context_fit a, Analysis.context_feedback a)
    = analyzeContext (allItems sections) globalContext.
Proof.
  unfold analyzeSections.
  destruct (forEachResult _ sections initialTotals) as [totals|m] eqn:Hloop;
    [|discriminate].
  apply sections_loop_statistics in Hloop; [|cbn [initialTotals allMaxDepth]; lia].
  destruct Hloop as [Hitems [Hdepth Hlengths]].
  cbn [initialTotals totalItems allMaxDepth allLengths app] in Hitems, Hdepth, Hlengths.
  cbn [bind]. intros Ha.
  assert (E : Analysis.item_count a = totalItems totals /\
              Analysis.max_depth a = allMaxDepth totals /\
              Analysis.avg_line_length a = averageLength (allLengths totals) /\
              (Analysis.context_fit a, Analysis.context_feedback a)
                = analyzeContext (allItems sections) globalContext).
  { destruct (strictMode config);
      (destruct (generateSectionedSummary _ _ _) as [summary|m]; [|discriminate]);
      cbn [bind] in Ha; injection Ha as <-;
      cbn [Analysis.item_count Analysis.max_depth Analysis.avg_line_length
           Analysis.context_fit Analysis.context_feedback];
      repeat split; try reflexivity; unfold allItems;
      destruct (analyzeContext _ _); reflexivity. }
  destruct E as [-> [-> [-> Hcontext]]].
  rewrite depth_by_levels. unfold calculateAvgLineLength. rewrite Hlengths.
  pose proof (deepest_nonneg (allItems sections)).
  repeat split; [lia|lia|exact Hcontext].
Qed.

Lemma sectioned_statistics_witness :
  exists a,
    analyzeSections defaultConfig sampleSections document None None None = Ok a /\
    Analysis.item_count a = 5 /\ Analysis.max_depth a = 2 /\
    Analysis.item_count a = lengthZ (allItems sampleSections) /\
    Analysis.max_depth a = calculateMaxDepth (allItems sampleSections) 1 /\
    Analysis.avg_line_length a = calculateAvgLineLength (allItems sampleSections).
Proof.
  assert (H : exists a,
            analyzeSections defaultConfig sampleSections document None None None = Ok a /\
            Analysis.item_count a = 5 /\ Analysis.max_depth a = 2).
  { eexists. split; [vm_compute; reflexivity|]. split; reflexivity. }
  destruct H as [a [Ha [Hcount Hdepth]]].
  destruct (sectioned_statistics defaultConfig sampleSections document None None None
              a Ha) as [Hitems [Hmax [Havg _]]].
  exists a. repeat split; assumption.
Defined.

(** ** The entries of [section_scores] *)

Lemma sections_loop_entries globalContext sections : forall st st',
  forEachResult (analyzeSection globalContext) sections st = Ok st' ->
  exists entries,
    sectionScores st' = sectionScores st ++ entries /\
    Forall2 (reportsSection globalContext) sections entries.
Proof.
  induction sections as [|section sections IH]; intros st st'.
  - intros [= <-]. exists []. rewrite app_nil_r. split; [reflexivity|constructor].
  - cbn [forEachResult]. unfold analyzeSection at 1.
    destruct (runValidators (Section.items section)) as [scores|m] eqn:Hrun;
      [|discriminate].
    cbn [bind]. intros Hrest. apply IH in Hrest.
    destruct Hrest as [entries [Hscores Hall]].
    cbn [sectionScores] in Hscores. rewrite <- app_assoc in Hscores.
    eexists. split; [exact Hscores|].
    constructor; [|exact Hall].
    unfold reportsSection, analyzeFlat. rewrite Hrun. cbn [bind strictMode defaultConfig].
    eexists. split; [reflexivity|].
    cbn [SectionScore.title SectionScore.context SectionScore.score SectionScore.grade
         SectionScore.item_count SectionScore.issues Analysis.overall_score
         Analysis.grade Analysis.item_count Analysis.scores outputScores
         enableResearchCitations].
    rewrite flat_map_issues_mapIssues. repeat split; reflexivity.
Qed.

(** X10. Every entry of [section_scores] reports its section as the flat
    analysis would: there is one entry per section, in order, carrying the
    title and the context of the section (its own, else the global one),
    and the score, the grade and the item count of the flat report on the
    items of the section; its issues are the issues of the seven rules of
    that report, rule by rule, each with the title of the section in
    brackets and a space put before its message and otherwise unchanged. *)
Theorem section_scores_report_sections
  config sections globalContext title description intro a :
  analyzeSections config sections globalContext title description intro = Ok a ->
  exists entries,
    Analysis.section_scores a = Some entries /\
    Forall2 (reportsSection globalContext) sections entries.
Proof.
  unfold analyzeSections.
  destruct (forEachResult _ sections initialTotals) as [totals|m] eqn:Hloop;
    [|discriminate].
  apply sections_loop_entries in Hloop. destruct Hloop as [entries [Hscores Hall]].
  cbn [initialTotals sectionScores app] in Hscores.
  cbn [bind]. intros Ha. exists entries. split; [|exact Hall].
  destruct (strictMode config);
    (destruct (generateSectionedSummary _ _ _) as [summary|m]; [|discriminate]);
    cbn [bind] in Ha; injection Ha as <-; cbn [Analysis.section_scores];
    now rewrite Hscores.
Qed.

Lemma section_scores_report_sections_witness :
  exists a entries,
    analyzeSections strictConfig sampleSections document None None None = Ok a /\
    map SectionScore.score entries = [94; 88] /\
    map (fun e => firstn 3 (map Issue.message (SectionScore.issues e))) entries =
      [ [ "[Pets] Item 1 is short (9 chars), may appear sparse";
          "[Pets] Item 2 is short (9 chars), may appear sparse";
          "[Pets] Item 3 is short (9 chars), may appear sparse" ];
        [ "[Plans] List has only 2 item(s), below minimum of 3";
          "[Plans] Item 1 is short (33 chars), may appear sparse";
          "[Plans] Item 2 is short (16 chars), may appear sparse" ] ] /\
    Analysis.section_scores a = Some entries /\
    Forall2 (reportsSection document) sampleSections entries.
Proof.
  assert (H : exists a,
            analyzeSections strictConfig sampleSections document None None None = Ok a /\
            option_map (map SectionScore.score) (Analysis.section_scores a)
              = Some [94; 88] /\
            option_map
              (map (fun e => firstn 3 (map Issue.message (SectionScore.issues e))))
              (Analysis.section_scores a)
              = Some [ [ "[Pets] Item 1 is short (9 chars), may appear sparse";
                         "[Pets] Item 2 is short (9 chars), may appear sparse";
                         "[Pets] Item 3 is short (9 chars), may appear sparse" ];
                       [ "[Plans] List has only 2 item(s), below minimum of 3";
                         "[Plans] Item 1 is short (33 chars), may appear sparse";
                         "[Plans] Item 2 is short (16 chars), may appear sparse" ] ]).
  { eexists. split; [vm_compute; reflexivity|]. split; reflexivity. }
  destruct H as [a [Ha [Hscores Hmessages]]].
  destruct (section_scores_report_sections strictConfig sampleSections document
              None None None a Ha) as [entries [Hentries Hall]].
  exists a, entries. rewrite Hentries in Hscores, Hmessages.
  cbn [option_map] in Hscores, Hmessages.
  injection Hscores as Hscores. injection Hmessages as Hmessages.
  repeat split; assumption.
Defined.

(** ** The sections a sectioned summary names *)

Section Extremes.
Context {T : Type} (rank : T -> Z) (f : T -> T -> T).
Hypothesis f_spec : forall cur s, f cur s = if rank s >? rank cur then s else cur.

Lemma reduce_loop rest : forall before cur mid,
  Forall (fun s => rank s < rank cur) before ->
  Forall (fun s => rank s <= rank cur) mid ->
  exists before' after,
    before ++ cur :: mid ++ rest = before' ++ fold_left f rest cur :: after /\
    Forall (fun s => rank s < rank (fold_left f rest cur)) before' /\
    Forall (fun s => rank s <= rank (fold_left f rest cur)) after.
Proof.
  induction rest as [|s rest IH]; intros before cur mid Hbefore Hmid.
  - exists before, mid. rewrite app_nil_r. cbn [fold_left]. auto.
  - cbn [fold_left]. rewrite f_spec. destruct (rank s >? rank cur) eqn:Hgt.
    + destruct (IH (before ++ cur :: mid) s []) as [before' [after [Heq H]]].
      * apply Forall_app. split.
        -- eapply Forall_impl; [|exact Hbefore]. cbn beta. intros; lia.
        -- constructor; [lia|].
           eapply Forall_impl; [|exact Hmid]. cbn beta. intros; lia.
      * constructor.
      * exists before', after. split; [|exact H].
        rewrite <- Heq. rewrite <- !app_assoc. reflexivity.
    + destruct (IH before cur (mid ++ [s])) as [before' [after [Heq H]]].
      * exact Hbefore.
      * apply Forall_app. split; [exact Hmid|]. constructor; [lia|constructor].
      * exists before', after. split; [|exact H].
        rewrite <- Heq. rewrite <- !app_assoc. reflexivity.
Qed.

Lemma reduce_firstExtreme first rest :
  firstExtreme rank (first :: rest) (fold_left f rest first).
Proof.
  destruct (reduce_loop rest [] first []) as [before [after H]]; try constructor.
  exists before, after. exact H.
Qed.

End Extremes.

(** X11. The summary of a sectioned report names the first section with the
    highest score as the best one and the first section with the lowest
    score as the one that needs work: below 80 it names the worst alone,
    from 80 to 89 both, and from 90 on neither. *)
Theorem sectioned_summary_extremes overallScore sectionCount entries :
  entries <> [] ->
  exists best worst,
    firstExtreme SectionScore.score entries best /\
    firstExtreme (fun s => - SectionScore.score s) entries worst /\
    (90 <= overallScore ->
     generateSectionedSummary overallScore sectionCount entries =
       Ok (JS.template ["Excellent structured summary across "; JS.showZ sectionCount;
                        " sections. All sections follow evidence-based best practices."])) /\
    (80 <= overallScore < 90 ->
     generateSectionedSummary overallScore sectionCount entries =
       Ok (JS.template ["Good structured summary across "; JS.showZ sectionCount;
                        " sections. Best: "; JS.dq; SectionScore.title best; JS.dq;
                        " ("; JS.showZ (SectionScore.score best);
                        "), needs work: "; JS.dq; SectionScore.title worst; JS.dq;
                        " ("; JS.showZ (SectionScore.score worst); ")."])) /\
    (overallScore < 80 ->
     generateSectionedSummary overallScore sectionCount entries =
       Ok (JS.template ["Structured summary with "; JS.showZ sectionCount;
                        " sections needs improvement. Focus on "; JS.dq;
                        SectionScore.title worst; JS.dq; " (score: ";
                        JS.showZ (SectionScore.score worst); ")."])).
Proof.
  intros Hne. destruct entries as [|first rest]; [congruence|].
  unfold generateSectionedSummary, reduceSections. cbn [bind].
  match goal with |- context [Ok (if _ then _ else if _ then
      JS.template [_; _; _; _; SectionScore.title ?b; _; _; _; _; _;
                   SectionScore.title ?w; _; _; _; _] else _)] =>
    exists b, w
  end.
  split; [apply reduce_firstExtreme; reflexivity|].
  split.
  { apply reduce_firstExtreme. intros cur s.
    destruct (SectionScore.score s <? SectionScore.score cur) eqn:Hlt;
      destruct (- SectionScore.score s >? - SectionScore.score cur) eqn:Hgt;
      try reflexivity; lia. }
  split; [|split]; intros Hscore.
  - destruct (overallScore >=? 90) eqn:H90; [reflexivity|lia].
  - destruct (overallScore >=? 90) eqn:H90; [lia|].
    destruct (overallScore >=? 80) eqn:H80; [reflexivity|lia].
  - destruct (overallScore >=? 90) eqn:H90; [lia|].
    destruct (overallScore >=? 80) eqn:H80; [lia|reflexivity].
Qed.

Lemma sectioned_summary_extremes_witness :
  sampleEntries <> [] /\
  exists best worst,
    firstExtreme SectionScore.score sampleEntries best /\
    firstExtreme (fun s => - SectionScore.score s) sampleEntries worst /\
    generateSectionedSummary 83 5 sampleEntries =
      Ok (JS.template ["Good structured summary across "; JS.showZ 5;
                       " sections. Best: "; JS.dq; SectionScore.title best; JS.dq;
                       " ("; JS.showZ (SectionScore.score best);
                       "), needs work: "; JS.dq; SectionScore.title worst; JS.dq;
                       " ("; JS.showZ (SectionScore.score worst); ")."]).
Proof.
  assert (Hne : sampleEntries <> []) by discriminate.
  split; [exact Hne|].
  destruct (sectioned_summary_extremes 83 5 sampleEntries Hne)
    as [best [worst [Hbest [Hworst [_ [Hgood _]]]]]].
  exists best, worst. split; [exact Hbest|]. split; [exact Hworst|].
  apply Hgood. lia.
Defined.

(** ** What every issue carries *)

Ltac tag_one := split; [reflexivity|split; reflexivity].

Ltac tag_pushed Hacc :=
  cbn [fst]; first
    [ exact Hacc
    | apply Forall_app; split; [exact Hacc|];
      apply Forall_cons; [tag_one|apply Forall_nil] ].

Lemma fold_left_keeps {X : Type} (P : ValidationIssue -> Prop)
  (body : Acc -> X -> Acc) (l : list X) :
  (forall acc x, Forall P (fst acc) -> Forall P (fst (body acc x))) ->
  forall acc, Forall P (fst acc) -> Forall P (fst (fold_left body l acc)).
Proof.
  intros Hbody. induction l as [|x l IH]; intros acc Hacc; cbn [fold_left].
  - exact Hacc.
  - apply IH. now apply Hbody.
Qed.

Lemma tagged_validateListLength items :
  Forall (tagged "LIST_LENGTH" RESEARCH_CITATIONS.LIST_LENGTH)
    (Rule.issues (validateListLength items)).
Proof.
  unfold validateListLength.
  repeat match goal with |- context [if ?b then _ else _] => destruct b end;
    fields; repeat constructor.
Qed.

Lemma tagged_validateHierarchy items :
  Forall (tagged "HIERARCHY" RESEARCH_CITATIONS.HIERARCHY)
    (Rule.issues (validateHierarchy items)).
Proof.
  unfold validateHierarchy.
  repeat match goal with |- context [if ?b then _ else _] => destruct b end;
    fields; repeat constructor.
Qed.

Lemma tagged_checkOwnLength t index acc :
  Forall (tagged "LINE_LENGTH" RESEARCH_CITATIONS.LINE_LENGTH) (fst acc) ->
  Forall (tagged "LINE_LENGTH" RESEARCH_CITATIONS.LINE_LENGTH)
    (fst (checkOwnLength t index acc)).
Proof.
  intros Hacc. unfold checkOwnLength. destruct acc as [issues totalPenalty].
  cbn [fst] in Hacc.
  repeat match goal with |- context [if ?b then _ else _] => destruct b end;
    tag_pushed Hacc.
Qed.

Lemma tagged_forEachChild (P : ValidationIssue -> Prop) visit index l :
  Forall (fun child => forall i acc, Forall P (fst acc) -> Forall P (fst (visit child i acc)))
    l ->
  forall childIndex acc,
    Forall P (fst acc) -> Forall P (fst (forEachChild visit index l childIndex acc)).
Proof.
  induction 1 as [|child l Hchild _ IH]; intros childIndex acc Hacc;
    cbn [forEachChild].
  - exact Hacc.
  - apply IH. now apply Hchild.
Qed.

Lemma tagged_checkItem item : forall index acc,
  Forall (tagged "LINE_LENGTH" RESEARCH_CITATIONS.LINE_LENGTH) (fst acc) ->
  Forall (tagged "LINE_LENGTH" RESEARCH_CITATIONS.LINE_LENGTH)
    (fst (checkItem item index acc)).
Proof.
  induction item as [t cs imp IH] using BulletItem_nested_ind.
  intros index acc Hacc. cbn [checkItem].
  pose proof (tagged_checkOwnLength t index acc Hacc) as Hown.
  destruct cs as [l|]; [|exact Hown].
  now apply tagged_forEachChild.
Qed.

Lemma tagged_validateLineLength items :
  Forall (tagged "LINE_LENGTH" RESEARCH_CITATIONS.LINE_LENGTH)
    (Rule.issues (validateLineLength items)).
Proof.
  unfold validateLineLength.
  pose proof (fold_left_keeps (tagged "LINE_LENGTH" RESEARCH_CITATIONS.LINE_LENGTH)
                (fun acc '(item, index) => checkItem item index acc)
                (indexed items)) as H.
  specialize (H ltac:(intros acc [item index]; apply tagged_checkItem) ([], 0)
                ltac:(constructor)).
  destruct (fold_left _ _ _) as [issues totalPenalty]. exact H.
Qed.

Lemma tagged_checkPosition count acc entry :
  Forall (tagged "SERIAL_POSITION" RESEARCH_CITATIONS.SERIAL_POSITION) (fst acc) ->
  Forall (tagged "SERIAL_POSITION" RESEARCH_CITATIONS.SERIAL_POSITION)
    (fst (checkPosition count acc entry)).
Proof.
  intros Hacc. unfold checkPosition. destruct acc as [issues points].
  destruct entry as [item index]. cbn [fst] in Hacc.
  repeat match goal with |- context [if ?b then _ else _] => destruct b end;
    tag_pushed Hacc.
Qed.

Lemma tagged_validateSerialPosition items :
  Forall (tagged "SERIAL_POSITION" RESEARCH_CITATIONS.SERIAL_POSITION)
    (Rule.issues (validateSerialPosition items)).
Proof.
  unfold validateSerialPosition.
  destruct (existsb hasTag items && (lengthZ items >? 3))%bool.
  - pose proof (fold_left_keeps _ (checkPosition (lengthZ items))
                  (filter (fun '(item, _) => isHigh item) (indexed items))
                  (fun acc x => tagged_checkPosition (lengthZ items) acc x)
                  ([], SERIAL_POSITION.POINTS) ltac:(constructor)) as H.
    destruct (fold_left _ _ _) as [issues points]. exact H.
  - destruct (lengthZ items >? 4); fields; repeat constructor.
Qed.

Lemma tagged_checkPattern dominant acc entry :
  Forall (tagged "STRUCTURE" RESEARCH_CITATIONS.STRUCTURE) (fst acc) ->
  Forall (tagged "STRUCTURE" RESEARCH_CITATIONS.STRUCTURE)
    (fst (checkPattern dominant acc entry)).
Proof.
  intros Hacc. unfold checkPattern. destruct acc as [issues points].
  destruct entry as [pattern index]. cbn [fst] in Hacc.
  repeat match goal with |- context [if ?b then _ else _] => destruct b end;
    tag_pushed Hacc.
Qed.

Lemma tagged_validateStructure items :
  Forall (tagged "STRUCTURE" RESEARCH_CITATIONS.STRUCTURE)
    (Rule.issues (validateStructure items)).
Proof.
  unfold validateStructure.
  destruct (lengthZ items <? 2); [constructor|].
  destruct (getMostCommon _ _) as [dominant|]; [|constructor].
  pose proof (fold_left_keeps _ (checkPattern dominant)
                (indexed (map (fun item => detectGrammarPattern (text item)) items))
                (fun acc x => tagged_checkPattern dominant acc x)
                ([], STRUCTURE.POINTS) ltac:(constructor)) as H.
  destruct (fold_left _ _ _) as [issues points]. exact H.
Qed.

Lemma tagged_checkGroup acc entry :
  Forall (tagged "FIRST_WORDS" RESEARCH_CITATIONS.FIRST_WORDS) (fst acc) ->
  Forall (tagged "FIRST_WORDS" RESEARCH_CITATIONS.FIRST_WORDS)
    (fst (checkGroup acc entry)).
Proof.
  intros Hacc. unfold checkGroup. destruct acc as [issues points].
  destruct entry as [words indices]. cbn [fst] in Hacc.
  repeat match goal with |- context [if ?b then _ else _] => destruct b end;
    tag_pushed Hacc.
Qed.

Lemma tagged_validateFirstWords items :
  Forall (tagged "FIRST_WORDS" RESEARCH_CITATIONS.FIRST_WORDS)
    (Rule.issues (validateFirstWords items)).
Proof.
  unfold validateFirstWords.
  match goal with |- context [fold_left checkGroup ?seen ?acc] =>
    pose proof (fold_left_keeps _ checkGroup seen tagged_checkGroup acc
                  ltac:(constructor)) as H;
    destruct (fold_left checkGroup seen acc) as [issues points]
  end.
  exact H.
Qed.

Lemma tagged_validateFormatting items r :
  validateFormatting items = Ok r ->
  Forall (tagged "FORMATTING" RESEARCH_CITATIONS.FORMATTING) (Rule.issues r).
Proof.
  unfold validateFormatting.
  destruct (lengthZ items <? 2); [intros [= <-]; constructor|].
  match goal with |- context [let '(_, _) := ?p in _] =>
    assert (Hfirst : Forall (tagged "FORMATTING" RESEARCH_CITATIONS.FORMATTING) (fst p));
      [|destruct p as [issues points]]
  end.
  { destruct (getMostCommon EndClass_eqb _) as [dominantEnd|]; [|constructor].
    repeat match goal with |- context [if ?b then _ else _] => destruct b end;
      cbn [fst]; repeat constructor. }
  cbn [fst] in Hfirst.
  destruct (mapResult capClass items) as [capitalizations|m]; [|discriminate].
  cbn [bind].
  match goal with |- context [let '(_, _) := ?p in _] =>
    assert (Hsecond : Forall (tagged "FORMATTING" RESEARCH_CITATIONS.FORMATTING) (fst p));
      [|destruct p as [issues' points']]
  end.
  { destruct (getMostCommon CapClass_eqb _) as [dominantCap|]; [|exact Hfirst].
    repeat match goal with |- context [if ?b then _ else _] => destruct b end;
      tag_pushed Hfirst. }
  intros [= <-]. exact Hsecond.
Qed.

Lemma runValidators_tagged items scores :
  runValidators items = Ok scores -> Forall2 taggedScore ruleCitations scores.
Proof.
  unfold runValidators.
  destruct (validateFormatting items) as [r|m] eqn:Hf; [|discriminate].
  cbn [bind]. intros [= <-].
  pose proof (runValidators_shape items _ ltac:(unfold runValidators; rewrite Hf; reflexivity))
    as [Hnames _].
  cbn [map] in Hnames. unfold ruleNames in Hnames.
  injection Hnames as H1 H2 H3 H4 H5 H6 H7.
  unfold ruleCitations.
  repeat apply Forall2_cons; [..|apply Forall2_nil]; (split; [assumption|]); cbn [fst snd].
  - apply tagged_validateListLength.
  - apply tagged_validateHierarchy.
  - apply tagged_validateLineLength.
  - apply tagged_validateSerialPosition.
  - apply tagged_validateStructure.
  - apply tagged_validateFirstWords.
  - exact (tagged_validateFormatting items r Hf).
Qed.

(** X12. Every issue one of the seven rules raises names that rule, carries
    a suggestion that is not empty, and cites the entry of
    [RESEARCH_CITATIONS] of that rule. *)
Theorem issues_name_rule_and_citation items scores :
  runValidators items = Ok scores -> Forall2 taggedScore ruleCitations scores.
Proof. apply runValidators_tagged. Qed.

Lemma issues_name_rule_and_citation_witness :
  exists scores,
    runValidators sampleMixed = Ok scores /\
    flat_map Rule.issues scores <> [] /\
    Forall2 taggedScore ruleCitations scores.
Proof.
  assert (H : exists scores,
            runValidators sampleMixed = Ok scores /\ flat_map Rule.issues scores <> []).
  { eexists. split; [vm_compute; reflexivity|discriminate]. }
  destruct H as [scores [Hrun Hissues]].
  exists scores. split; [exact Hrun|]. split; [exact Hissues|].
  exact (issues_name_rule_and_citation sampleMixed scores Hrun).
Defined.

(** ** Reports without improvements *)

Lemma rankedStably_In l i : In i (rankedStably l) <-> In i l.
Proof.
  unfold rankedStably. rewrite !in_app_iff, !filter_In, !hasSeverity_eq.
  destruct (Issue.severity i); intuition congruence.
Qed.

Lemma buckets_empty l :
  filter (hasSeverity error) l = [] /\ filter (hasSeverity warning) l = [] /\
  filter (hasSeverity suggestion) l = [] <-> l = [].
Proof.
  split; [|intros ->; repeat split; reflexivity].
  intros [He [Hw Hs]]. destruct l as [|i l]; [reflexivity|].
  assert (Hin : In i (rankedStably (i :: l))) by (apply rankedStably_In; now left).
  unfold rankedStably in Hin. rewrite He, Hw, Hs in Hin. destruct Hin.
Qed.

Lemma filter_all {X : Type} (p : X -> bool) l :
  Forall (fun x => p x = true) l -> filter p l = l.
Proof.
  induction 1 as [|x l Hx _ IH]; [reflexivity|]. cbn [filter]. now rewrite Hx, IH.
Qed.

Lemma getTopImprovements_none issues score :
  Forall (fun i => carriesSuggestion i = true) issues ->
  (Improvements.items (getTopImprovements issues score) = [] <-> issues = []).
Proof.
  intros Hall. rewrite getTopImprovements_items, (filter_all _ _ Hall).
  split; [|intros ->; reflexivity].
  intros Hnone. destruct issues as [|i l]; [reflexivity|].
  assert (Hin : In (suggestionText i)
                  (keysOf (map suggestionText (rankedStably (i :: l))))).
  { apply keysOf_In, in_map, rankedStably_In. now left. }
  destruct (keysOf _) as [|k ks]; [destruct Hin|discriminate].
Qed.

Lemma getTopImprovements_description issues score :
  Improvements.description (getTopImprovements issues score)
    = "Your bullet list follows best practices." <->
  Improvements.items (getTopImprovements issues score) = [].
Proof.
  unfold getTopImprovements. cbn [Improvements.description Improvements.items].
  unfold getImprovementDescription.
  destruct (collectUnique _ _) as [|s unique].
  - split; reflexivity.
  - rewrite lengthZ_cons. pose proof (lengthZ_nonneg unique).
    destruct (_ =? 0) eqn:Hzero; [lia|].
    split; [|discriminate].
    destruct (score >=? 90); [discriminate|]. destruct (score >=? 70); discriminate.
Qed.

Lemma tagged_carries rule citation i : tagged rule citation i -> carriesSuggestion i = true.
Proof. intros [_ [H _]]. exact H. Qed.

Lemma runValidators_carrying items scores :
  runValidators items = Ok scores ->
  Forall (fun i => carriesSuggestion i = true) (flat_map Rule.issues scores).
Proof.
  intros Hrun. apply runValidators_tagged in Hrun.
  induction Hrun as [|entry s entries scores [_ Hs] _ IH]; [constructor|].
  cbn [flat_map]. apply Forall_app. split; [|exact IH].
  eapply Forall_impl; [|exact Hs]. intros i. apply tagged_carries.
Qed.

Lemma flat_map_issues_nil scores :
  flat_map Rule.issues scores = [] <-> Forall (fun s => Rule.issues s = []) scores.
Proof.
  induction scores as [|s scores IH]; cbn [flat_map].
  - split; [constructor|reflexivity].
  - split.
    + intros H. apply app_eq_nil in H. destruct H as [Hs Hrest].
      constructor; [exact Hs|now apply IH].
    + intros H. inversion H as [|? ? Hs Hrest]; subst. rewrite Hs. now apply IH.
Qed.

Lemma outputScores_no_issue config scores :
  Forall (fun s => Rule.issues s = []) (outputScores config scores) <->
  Forall (fun s => Rule.issues s = []) scores.
Proof.
  unfold outputScores. destruct (enableResearchCitations config); [reflexivity|].
  rewrite Forall_map.
  split; intros H; (eapply Forall_impl; [|exact H]); intros s;
    cbn [mapIssues Rule.issues]; [apply map_eq_nil|intros ->; reflexivity].
Qed.

(** X13. A flat report offers no improvement exactly when no rule raised an
    issue: the list of the top improvements is empty, and its description
    reads that the list follows best practices, if and only if the three
    buckets are empty, which is when every rule score is free of issues. *)
Theorem best_practices_iff_no_issue config items context title description intro a :
  analyzeFlat config items context title description intro = Ok a ->
  (Improvements.items (Analysis.top_improvements a) = [] <-> noIssue a) /\
  (Improvements.description (Analysis.top_improvements a)
     = "Your bullet list follows best practices." <-> noIssue a) /\
  (noIssue a <-> Forall (fun s => Rule.issues s = []) (Analysis.scores a)).
Proof.
  unfold analyzeFlat.
  destruct (runValidators items) as [scores|m] eqn:Hrun; [|discriminate].
  cbn [bind]. intros Ha.
  pose proof (runValidators_carrying _ _ Hrun) as Hcarry.
  pose proof (buckets_empty (flat_map Rule.issues scores)) as Hbuckets.
  assert (Hnone : noIssue a <-> flat_map Rule.issues scores = []).
  { rewrite <- Hbuckets. unfold noIssue.
    destruct (strictMode config); injection Ha as <-;
      cbn [Analysis.errors Analysis.warnings Analysis.suggestions].
    - split.
      + intros [He [_ Hs]]. apply app_eq_nil in He. destruct He as [He Hw].
        apply map_eq_nil in Hw. auto.
      + intros [He [Hw Hs]]. rewrite He, Hw, Hs. repeat split; reflexivity.
    - reflexivity. }
  assert (Htop : Analysis.top_improvements a
                 = getTopImprovements (flat_map Rule.issues scores)
                     (Analysis.overall_score a)).
  { destruct (strictMode config); injection Ha as <-; reflexivity. }
  assert (Hscores : Analysis.scores a = outputScores config scores).
  { destruct (strictMode config); injection Ha as <-; reflexivity. }
  rewrite Htop, Hscores, getTopImprovements_description, outputScores_no_issue,
    <- flat_map_issues_nil, Hnone.
  pose proof (getTopImprovements_none _ (Analysis.overall_score a) Hcarry) as Hitems.
  split; [exact Hitems|]. split; [exact Hitems|reflexivity].
Qed.

Lemma best_practices_iff_no_issue_witness :
  exists a,
    analyzeFlat defaultConfig sampleClean document None None None = Ok a /\
    Analysis.overall_score a = 100 /\
    Improvements.description (Analysis.top_improvements a)
      = "Minor tweaks to make your bullet list even better." /\
    ~ noIssue a.
Proof.
  assert (H : exists a,
            analyzeFlat defaultConfig sampleClean document None None None = Ok a /\
            Analysis.overall_score a = 100 /\
            Improvements.description (Analysis.top_improvements a)
              = "Minor tweaks to make your bullet list even better.").
  { eexists. split; [vm_compute; reflexivity|]. split; reflexivity. }
  destruct H as [a [Ha [Hscore Hdescription]]].
  exists a. split; [exact Ha|]. split; [exact Hscore|]. split; [exact Hdescription|].
  intros Hnone.
  destruct (best_practices_iff_no_issue defaultConfig sampleClean document None None
              None a Ha) as [_ [Hreads _]].
  apply Hreads in Hnone. rewrite Hdescription in Hnone. discriminate.
Defined.

(** ** Reports with and without citations *)

Lemma analyzeFlat_citations strict items context title description intro :
  analyzeFlat (mkConfig strict false) items context title description intro =
  match analyzeFlat (mkConfig strict true) items context title description intro with
  | Ok a => Ok (withoutScoreCitations a)
  | Throw m => Throw m
  end.
Proof.
  unfold analyzeFlat. destruct (runValidators items) as [scores|m]; [|reflexivity].
  cbn [bind strictMode]. destruct strict; reflexivity.
Qed.

Lemma analyzeSections_citations strict sections globalContext title description intro :
  analyzeSections (mkConfig strict false) sections globalContext title description intro =
  match analyzeSections (mkConfig strict true) sections globalContext title description
          intro with
  | Ok a => Ok (withoutScoreCitations a)
  | Throw m => Throw m
  end.
Proof.
  unfold analyzeSections.
  destruct (forEachResult _ sections initialTotals) as [totals|m]; [|reflexivity].
  cbn [bind strictMode].
  destruct strict; (destruct (generateSectionedSummary _ _ _) as [summary|m];
                    [|reflexivity]); reflexivity.
Qed.

Lemma dispatch_citations strict bulletInput :
  dispatch (mkConfig strict false) bulletInput =
  match dispatch (mkConfig strict true) bulletInput with
  | Ok a => Ok (withoutScoreCitations a)
  | Throw m => Throw m
  end.
Proof.
  unfold dispatch. destruct (Input.sections bulletInput) as [[|first rest]|].
  - destruct (Input.items bulletInput); [apply analyzeFlat_citations|reflexivity].
  - apply analyzeSections_citations.
  - destruct (Input.items bulletInput); [apply analyzeFlat_citations|reflexivity].
Qed.

Lemma analyze_citations strict input :
  analyze (mkConfig strict false) input =
  option_map (mapReport withoutScoreCitations) (analyze (mkConfig strict true) input).
Proof.
  unfold analyze. destruct (validateInput input); [|reflexivity].
  destruct (decodeInput input) as [bulletInput|]; [|reflexivity].
  rewrite dispatch_citations.
  destruct (dispatch (mkConfig strict true) bulletInput); reflexivity.
Qed.

Lemma tagged_cited rule citation i : tagged rule citation i -> cited i.
Proof. intros [_ [_ H]]. unfold cited. rewrite H. discriminate. Qed.

Lemma runValidators_cited items scores :
  runValidators items = Ok scores -> Forall cited (flat_map Rule.issues scores).
Proof.
  intros Hrun. apply runValidators_tagged in Hrun.
  induction Hrun as [|entry s entries scores [_ Hs] _ IH]; [constructor|].
  cbn [flat_map]. apply Forall_app. split; [|exact IH].
  eapply Forall_impl; [|exact Hs]. intros i. apply tagged_cited.
Qed.

Lemma Forall_filter {X : Type} (P : X -> Prop) p l : Forall P l -> Forall P (filter p l).
Proof.
  intros H. apply Forall_forall. intros x Hx. apply filter_In in Hx.
  rewrite Forall_forall in H. now apply H.
Qed.

Lemma buckets_cited strict (errs warns suggs : list ValidationIssue) l :
  Forall cited l ->
  (let '(errors, warnings) :=
     if strict : bool
     then (filter (hasSeverity error) l ++ map promote (filter (hasSeverity warning) l), [])
     else (filter (hasSeverity error) l, filter (hasSeverity warning) l) in
   (errors, warnings)) = (errs, warns) ->
  suggs = filter (hasSeverity suggestion) l ->
  Forall cited (errs ++ warns ++ suggs).
Proof.
  intros Hall Hew ->. destruct strict; injection Hew as <- <-.
  - rewrite !Forall_app. repeat split; try constructor; try now apply Forall_filter.
    apply Forall_map. eapply Forall_impl; [|apply Forall_filter; exact Hall].
    intros i Hi. exact Hi.
  - rewrite !Forall_app. repeat split; now apply Forall_filter.
Qed.

Lemma analyzeFlat_cited config items context title description intro a :
  analyzeFlat config items context title description intro = Ok a ->
  Forall cited (bucketIssues a).
Proof.
  unfold analyzeFlat.
  destruct (runValidators items) as [scores|m] eqn:Hrun; [|discriminate].
  cbn [bind]. intros Ha. pose proof (runValidators_cited _ _ Hrun) as Hall.
  apply (buckets_cited (strictMode config) _ _ _ _ Hall);
    destruct (strictMode config); injection Ha as <-; reflexivity.
Qed.

Lemma blocks_cited sections blocks :
  mapResult sectionBlock sections = Ok blocks ->
  Forall cited (flat_map Rule.issues (List.concat blocks)).
Proof.
  intros H. apply mapResult_Forall2 in H.
  induction H as [|section block sections blocks Hblock _ IH]; [constructor|].
  cbn [List.concat]. rewrite flat_map_app. apply Forall_app. split; [|exact IH].
  unfold sectionBlock in Hblock.
  destruct (runValidators (Section.items section)) as [scores|m] eqn:Hrun;
    [|discriminate].
  cbn [bind] in Hblock. injection Hblock as <-.
  rewrite flat_map_issues_mapIssues. apply Forall_map.
  eapply Forall_impl; [|exact (runValidators_cited _ _ Hrun)]. intros i Hi. exact Hi.
Qed.

Lemma analyzeSections_cited config sections globalContext title description intro a :
  analyzeSections config sections globalContext title description intro = Ok a ->
  Forall cited (bucketIssues a).
Proof.
  unfold analyzeSections.
  destruct (forEachResult _ sections initialTotals) as [totals|m] eqn:Hloop;
    [|discriminate].
  destruct (sections_loop _ _ _ _ Hloop) as [blocks [Hblocks [_ [_ [He [Hw Hs]]]]]].
  cbn [initialTotals allErrors allWarnings allSuggestions app] in He, Hw, Hs.
  pose proof (blocks_cited _ _ Hblocks) as Hall.
  cbn [bind]. rewrite He, Hw, Hs. intros Ha.
  apply (buckets_cited (strictMode config) _ _ _ _ Hall);
    destruct (strictMode config);
    (destruct (generateSectionedSummary _ _ _) as [summary|m]; [|discriminate]);
    cbn [bind] in Ha; injection Ha as <-; reflexivity.
Qed.

Lemma withoutScoreCitations_scores a :
  Forall (fun s => Forall (fun i => Issue.research_basis i = None) (Rule.issues s))
    (Analysis.scores (withoutScoreCitations a)).
Proof.
  cbn [withoutScoreCitations Analysis.scores]. apply Forall_map, Forall_forall.
  intros s _. cbn [mapIssues Rule.issues]. apply Forall_map, Forall_forall.
  intros i _. reflexivity.
Qed.

(** X14. Turning the citations off changes the [scores] of a report and
    nothing else: the answer to a request is the answer with citations, with
    the [research_basis] removed from the issues under [scores].  The same
    issues keep their citations where the report lists them by severity: in
    a report without citations no issue under [scores] has a research basis
    and every error, warning and suggestion has one. *)
Theorem citations_removed_from_scores_only strict input :
  analyze (mkConfig strict false) input =
    option_map (mapReport withoutScoreCitations) (analyze (mkConfig strict true) input) /\
  (forall a,
     analyze (mkConfig strict false) input = Some (Report a) ->
     Forall (fun s => Forall (fun i => Issue.research_basis i = None) (Rule.issues s))
       (Analysis.scores a) /\
     Forall cited (bucketIssues a)).
Proof.
  split; [apply analyze_citations|].
  intros a Ha. split.
  - rewrite analyze_citations in Ha.
    destruct (analyze (mkConfig strict true) input) as [[a'|message hint]|];
      try discriminate.
    cbn [option_map mapReport] in Ha. injection Ha as <-.
    apply withoutScoreCitations_scores.
  - unfold analyze in Ha. destruct (validateInput input); [|discriminate].
    destruct (decodeInput input) as [bulletInput|]; [|discriminate].
    destruct (dispatch _ bulletInput) as [a'|m] eqn:Hdispatch; [|discriminate].
    injection Ha as ->. unfold dispatch in Hdispatch.
    destruct (Input.sections bulletInput) as [[|first rest]|];
      try (destruct (Input.items bulletInput); [|discriminate]);
      first [ now apply analyzeFlat_cited in Hdispatch
            | now apply analyzeSections_cited in Hdispatch ].
Qed.

Lemma citations_removed_from_scores_only_witness :
  exists a,
    analyze (mkConfig false false) sampleRequest = Some (Report a) /\
    bucketIssues a <> [] /\
    Forall (fun s => Forall (fun i => Issue.research_basis i = None) (Rule.issues s))
      (Analysis.scores a) /\
    Forall cited (bucketIssues a).
Proof.
  assert (H : exists a,
            analyze (mkConfig false false) sampleRequest = Some (Report a) /\
            bucketIssues a <> []).
  { eexists. split; [vm_compute; reflexivity|discriminate]. }
  destruct H as [a [Ha Hissues]].
  exists a. split; [exact Ha|]. split; [exact Hissues|].
  exact (proj2 (citations_removed_from_scores_only false sampleRequest) a Ha).
Defined.

(** ** Requests that the validation accepts *)

Lemma validateItemsFrom_Ok items location : forall i,
  validateItemsFrom i items location = Ok tt <-> Forall acceptedItem items.
Proof.
  unfold acceptedItem.
  induction items as [|item items IH]; intros i; cbn [validateItemsFrom].
  - split; [constructor|reflexivity].
  - destruct (isObjectLike (Some item)) eqn:Hobject; cbn [negb].
    + destruct (isNonBlankString (prop item "text")) eqn:Htext; cbn [negb].
      * rewrite IH. split; [now constructor|].
        intros H. now inversion H.
      * split; [discriminate|]. intros H. inversion H as [|? ? [_ Hitem] _].
        congruence.
    + split; [discriminate|]. intros H. inversion H as [|? ? [Hitem _] _].
      congruence.
Qed.

Lemma validateSectionsFrom_Ok sections : forall i,
  validateSectionsFrom i sections = Ok tt <-> Forall validSection sections.
Proof.
  induction sections as [|section sections IH]; intros i; cbn [validateSectionsFrom].
  - split; [constructor|reflexivity].
  - destruct (isObjectLike (Some section)) eqn:Hobject; cbn [negb];
      [|split; [discriminate|];
        intros H; inversion H as [|? ? [Hsection _] _]; congruence].
    destruct (isNonBlankString (prop section "title")) eqn:Htitle; cbn [negb];
      [|split; [discriminate|];
        intros H; inversion H as [|? ? [_ [Hsection _]] _]; congruence].
    destruct (asArray (prop section "items")) as [[|first rest]|] eqn:Hitems.
    + split; [discriminate|].
      intros H. inversion H as [|? ? [_ [_ [f [r [Hsome _]]]]] _]. congruence.
    + unfold validateItemsArray.
      destruct (validateItemsFrom 0 (first :: rest) _) as [[]|m] eqn:Hvalid; cbn [bind].
      * apply validateItemsFrom_Ok in Hvalid. rewrite IH.
        split.
        -- intros Hrest. constructor; [|exact Hrest].
           split; [exact Hobject|]. split; [exact Htitle|].
           exists first, rest. rewrite Hitems. split; [reflexivity|exact Hvalid].
        -- intros H. now inversion H.
      * split; [discriminate|].
        intros H. inversion H as [|? ? [_ [_ [f [r [Hsome Hall]]]]] _].
        rewrite Hitems in Hsome. injection Hsome as <- <-.
        apply (validateItemsFrom_Ok _ (JS.template ["section "; JS.dq;
                 showString (prop section "title"); JS.dq]) 0) in Hall.
        congruence.
    + split; [discriminate|].
      intros H. inversion H as [|? ? [_ [_ [f [r [Hsome _]]]]] _]. congruence.
Qed.

Lemma validateInput_valid input : validateInput input = Ok tt <-> validRequest input.
Proof.
  unfold validateInput, validRequest, nonEmptyArrayOf.
  destruct (isObjectLike (Some input)); cbn [negb];
    [|split; [discriminate|intros [H _]; discriminate]].
  destruct (asArray (prop input "items")) as [items|];
    destruct (asArray (prop input "sections")) as [sections|].
  - split; [discriminate|]. intros [_ [[_ H]|[_ H]]]; discriminate.
  - destruct items as [|first rest].
    + split; [discriminate|].
      intros [_ [[[f [r [H _]]] _]|[[f [r [H _]]] _]]]; discriminate.
    + unfold validateItemsArray. rewrite validateItemsFrom_Ok. split.
      * intros H. split; [reflexivity|]. left. split; [|reflexivity].
        exists first, rest. split; [reflexivity|exact H].
      * intros [_ [[[f [r [Hsome H]]] _]|[[f [r [Hsome _]]] _]]]; [|discriminate].
        injection Hsome as <- <-. exact H.
  - destruct sections as [|first rest].
    + split; [discriminate|].
      intros [_ [[[f [r [H _]]] _]|[[f [r [H _]]] _]]]; discriminate.
    + rewrite validateSectionsFrom_Ok. split.
      * intros H. split; [reflexivity|]. right. split; [|reflexivity].
        exists first, rest. split; [reflexivity|exact H].
      * intros [_ [[[f [r [Hsome _]]] _]|[[f [r [Hsome H]]] _]]]; [discriminate|].
        injection Hsome as <- <-. exact H.
  - split; [discriminate|].
    intros [_ [[[f [r [H _]]] _]|[[f [r [H _]]] _]]]; discriminate.
Qed.

(** X15. The validation accepts exactly the requests of one mode: an object
    with a non-empty array under one of [items] and [sections] and no array
    under the other, where every listed item is an object with a text that
    is a string and not blank, and every section is an object with such a
    title and a non-empty array of such items.  Nothing else of a request
    is looked at by the validation: not the children, the importance or the
    context.  An accepted request that has the declared shape of a
    [BulletInput] throughout, children included, is answered with a report. *)
Theorem validateInput_accepts input :
  (validateInput input = Ok tt <-> validRequest input) /\
  (forall config bulletInput,
     validRequest input ->
     decodeInput input = Some bulletInput ->
     exists a, analyze config input = Some (Report a)).
Proof.
  split; [apply validateInput_valid|].
  intros config bulletInput Hvalid Hdecode. apply validateInput_valid in Hvalid.
  exact (valid_request_reports config input bulletInput Hvalid Hdecode).
Qed.

Lemma validateInput_accepts_witness :
  validRequest sampleSectionedRequest /\
  validRequest nestedBlankRequest /\
  ~ validRequest sampleRejectedRequest /\
  exists a,
    analyze defaultConfig sampleSectionedRequest = Some (Report a) /\
    Analysis.overall_score a = 94.
Proof.
  assert (Hsectioned : validRequest sampleSectionedRequest)
    by (apply (proj1 (validateInput_accepts sampleSectionedRequest)); reflexivity).
  split; [exact Hsectioned|]. split; [|split].
  - apply (proj1 (validateInput_accepts nestedBlankRequest)). reflexivity.
  - intros Hvalid.
    apply (proj1 (validateInput_accepts sampleRejectedRequest)) in Hvalid.
    discriminate.
  - assert (Hdecode : decodeInput sampleSectionedRequest <> None) by discriminate.
    destruct (decodeInput sampleSectionedRequest) as [bulletInput|] eqn:E;
      [|congruence].
    destruct (proj2 (validateInput_accepts sampleSectionedRequest) defaultConfig
                bulletInput Hsectioned E) as [a Ha].
    exists a. split; [exact Ha|].
    assert (Hscore : match analyze defaultConfig sampleSectionedRequest with
                     | Some (Report r) => Analysis.overall_score r = 94
                     | _ => False
                     end) by (vm_compute; reflexivity).
    rewrite Ha in Hscore. exact Hscore.
Defined.

(** ** The two engines side by side *)

Lemma flatOnly_pickMax_loop {T : Type} (counts : list (T * Z)) : forall n x,
  snd (fold_left FlatOnly.pickMax counts (n, Some x)) =
  Some (snd (fold_left pickMax counts (n, x))).
Proof.
  induction counts as [|[item count] counts IH]; intros n x; [reflexivity|].
  cbn [fold_left FlatOnly.pickMax pickMax]. destruct (count >? n); apply IH.
Qed.

Lemma flatOnly_getMostCommon_agrees {T : Type} (eqb : T -> T -> bool) arr :
  FlatOnly.getMostCommon eqb arr = getMostCommon eqb arr.
Proof.
  unfold FlatOnly.getMostCommon, getMostCommon.
  destruct arr as [|first rest]; [reflexivity|].
  cbn [hd_error]. apply flatOnly_pickMax_loop.
Qed.

Lemma flatOnly_patterns_agree items :
  Forall noListedNoun items ->
  map (fun item => FlatOnly.detectGrammarPattern (text item)) items =
  map (fun item => detectGrammarPattern (text item)) items.
Proof.
  induction 1 as [|item items Hitem _ IH]; [reflexivity|].
  cbn [map]. rewrite IH. f_equal.
  destruct (firstWordOf (text item)) as [firstWord|] eqn:Hword.
  - exact (flatOnly_detectGrammarPattern_agrees _ _ Hword (Hitem _ Hword)).
  - unfold FlatOnly.detectGrammarPattern, detectGrammarPattern. now rewrite Hword.
Qed.

Lemma flatOnly_validateStructure_agrees items :
  Forall noListedNoun items -> FlatOnly.validateStructure items = validateStructure items.
Proof.
  intros H. unfold FlatOnly.validateStructure, validateStructure.
  now rewrite (flatOnly_patterns_agree items H), flatOnly_getMostCommon_agrees.
Qed.

Lemma flatOnly_validateFormatting_agrees items :
  FlatOnly.validateFormatting items = validateFormatting items.
Proof.
  unfold FlatOnly.validateFormatting, validateFormatting.
  rewrite flatOnly_getMostCommon_agrees.
  destruct (lengthZ items <? 2); [reflexivity|].
  match goal with |- context [let '(_, _) := ?p in _] => destruct p as [issues points] end.
  destruct (mapResult capClass items) as [capitalizations|m]; [|reflexivity].
  cbn [bind]. now rewrite flatOnly_getMostCommon_agrees.
Qed.

Lemma flatOnly_runValidators_agrees items :
  Forall noListedNoun items -> FlatOnly.runValidators items = runValidators items.
Proof.
  intros H. unfold FlatOnly.runValidators, runValidators.
  now rewrite flatOnly_validateFormatting_agrees, (flatOnly_validateStructure_agrees _ H).
Qed.

Lemma flatOnly_analyzeContext_agrees items context :
  Forall noListedNoun items -> context <> reference ->
  FlatOnly.analyzeContext items context = analyzeContext items context.
Proof.
  intros H Hcontext. unfold FlatOnly.analyzeContext, analyzeContext.
  destruct context; [|reflexivity|congruence].
  now rewrite (flatOnly_patterns_agree items H).
Qed.

Lemma flatOnly_analyzeValidated_agrees strict citations items context title description
  intro :
  Forall noListedNoun items ->
  context <> Some reference ->
  FlatOnly.analyzeValidated (mkConfig strict citations) (FlatOnly.Input.mk items context) =
  match analyzeFlat (mkConfig false citations) items
          (match context with Some c => c | None => document end)
          title description intro with
  | Ok a => Ok (flatView a)
  | Throw m => Throw m
  end.
Proof.
  intros H Hcontext. unfold FlatOnly.analyzeValidated, analyzeFlat.
  cbn [FlatOnly.Input.items FlatOnly.Input.context].
  rewrite (flatOnly_runValidators_agrees items H).
  destruct (runValidators items) as [scores|m]; [|reflexivity].
  cbn [bind strictMode]. rewrite flatOnly_analyzeContext_agrees;
    [reflexivity|exact H|destruct context as [[]|]; congruence].
Qed.

Lemma flatOnly_validateItemsFrom_Ok items : forall i,
  FlatOnly.validateItemsFrom i items = Ok tt <-> Forall acceptedItem items.
Proof.
  unfold acceptedItem.
  induction items as [|item items IH]; intros i; cbn [FlatOnly.validateItemsFrom].
  - split; [constructor|reflexivity].
  - destruct (isObjectLike (Some item)) eqn:Hobject; cbn [negb].
    + destruct (isNonBlankString (prop item "text")) eqn:Htext; cbn [negb].
      * rewrite IH. split; [now constructor|].
        intros H. now inversion H.
      * split; [discriminate|]. intros H. inversion H as [|? ? [_ Hitem] _].
        congruence.
    + split; [discriminate|]. intros H. inversion H as [|? ? [Hitem _] _].
      congruence.
Qed.

Lemma flatOnly_validateInput_valid input :
  FlatOnly.validateInput input = Ok tt <->
  isObjectLike (Some input) = true /\ nonEmptyArrayOf acceptedItem (prop input "items").
Proof.
  unfold FlatOnly.validateInput, nonEmptyArrayOf.
  destruct (isObjectLike (Some input)); cbn [negb];
    [|split; [discriminate|intros [H _]; discriminate]].
  destruct (asArray (prop input "items")) as [[|first rest]|].
  - split; [discriminate|]. intros [_ [f [r [H _]]]]. discriminate.
  - rewrite flatOnly_validateItemsFrom_Ok. split.
    + intros H. split; [reflexivity|]. exists first, rest. now split.
    + intros [_ [f [r [Hsome H]]]]. injection Hsome as <- <-. exact H.
  - split; [discriminate|]. intros [_ [f [r [H _]]]]. discriminate.
Qed.

(** X16. On a request of the flat mode the two engines answer alike: when
    no listed item starts with one of the nouns in [-ing] that only the
    sections-capable classifier excludes, and the context is not
    [reference], the flat-only engine returns the report of the
    sections-capable engine without strict mode, less the title, the
    description and the intro, and with the improvements as the bare list.
    The flat-only engine does so with strict mode on or off. *)
Theorem engines_agree_on_flat_requests strict citations input bulletInput items :
  validateInput input = Ok tt ->
  decodeInput input = Some bulletInput ->
  Input.items bulletInput = Some items ->
  Forall noListedNoun items ->
  Input.context bulletInput <> Some reference ->
  exists a,
    analyze (mkConfig false citations) input = Some (Report a) /\
    FlatOnly.analyze (mkConfig strict citations) input
      = Some (FlatOnly.Report (flatView a)).
Proof.
  intros Hvalid Hdecode Hitems Hnouns Hcontext.
  destruct (valid_request_reports (mkConfig false citations) input bulletInput
              Hvalid Hdecode) as [a Ha].
  exists a. split; [exact Ha|].
  unfold analyze in Ha. rewrite Hvalid, Hdecode in Ha.
  destruct (dispatch _ bulletInput) as [a'|m] eqn:Hdispatch; [|discriminate].
  injection Ha as ->.
  pose proof (proj1 (validateInput_valid input) Hvalid) as [Hobject Hmode].
  unfold decodeInput in Hdecode.
  destruct (decodeOptionalArray decodeItem (prop input "items")) as [items'|] eqn:Hi;
    [|discriminate].
  destruct (decodeOptionalArray decodeSection (prop input "sections"))
    as [sections|] eqn:Hs; [|discriminate].
  destruct (decodeContext (prop input "context")) as [context|] eqn:Hc; [|discriminate].
  destruct (decodeOptionalString (prop input "title")) as [title|]; [|discriminate].
  destruct (decodeOptionalString (prop input "description")) as [description|];
    [|discriminate].
  destruct (decodeOptionalString (prop input "intro")) as [intro|]; [|discriminate].
  injection Hdecode as <-. cbn [Input.items Input.context] in Hitems, Hcontext.
  subst items'.
  unfold decodeOptionalArray in Hi.
  destruct (prop input "items") as [[| | | |elements|]|] eqn:Hprop; try discriminate.
  destruct (decodeAll decodeItem elements) as [decoded|] eqn:Hall; [|discriminate].
  cbn [option_map] in Hi. injection Hi as ->.
  destruct Hmode as [[[first [rest [Harray Haccepted]]] Hnone]
                    |[_ Hnone]]; [|discriminate].
  cbn [asArray] in Harray. injection Harray as ->.
  assert (Hsections : sections = None).
  { unfold decodeOptionalArray in Hs.
    destruct (prop input "sections") as [[| | | |l|]|]; try discriminate.
    now injection Hs as <-. }
  subst sections.
  unfold dispatch in Hdispatch. cbn [Input.sections Input.items Input.context
    Input.title Input.description Input.intro] in Hdispatch.
  unfold FlatOnly.analyze.
  rewrite (proj2 (flatOnly_validateInput_valid input)).
  2:{ split; [exact Hobject|]. exists first, rest. rewrite Hprop. now split. }
  unfold FlatOnly.decodeInput. rewrite Hprop, Hc. cbn [asArray]. rewrite Hall.
  cbn [option_map].
  rewrite (flatOnly_analyzeValidated_agrees strict citations items context title
             description intro Hnouns Hcontext), Hdispatch.
  reflexivity.
Qed.

Lemma engines_agree_on_flat_requests_witness :
  exists a,
    analyze defaultConfig sampleRequest = Some (Report a) /\
    FlatOnly.analyze strictConfig sampleRequest = Some (FlatOnly.Report (flatView a)) /\
    Analysis.overall_score a = 94.
Proof.
  assert (Hnouns : Forall noListedNoun sampleItems).
  { repeat apply Forall_cons; [..|apply Forall_nil];
      intros firstWord [= <-]; reflexivity. }
  destruct (engines_agree_on_flat_requests true true sampleRequest
              (Input.mk (Some sampleItems) None None None None None) sampleItems
              eq_refl eq_refl eq_refl Hnouns ltac:(discriminate))
    as [a [Ha Hflat]].
  exists a. split; [exact Ha|]. split; [exact Hflat|].
  assert (E : analyze defaultConfig sampleRequest <> None /\
              match analyze defaultConfig sampleRequest with
              | Some (Report r) => Analysis.overall_score r
              | _ => 0
              end = 94) by (split; [discriminate|reflexivity]).
  destruct E as [_ E]. change (mkConfig false true) with defaultConfig in Ha.
  rewrite Ha in E. exact E.
Defined.

(** X17. The flat-only engine looks at [items] alone: it accepts exactly the
    objects with a non-empty array of accepted items under [items], whatever
    else they carry.  So it accepts every flat request the sections-capable
    engine accepts, and it answers a sectioned request of that engine with
    the error that [items] is missing. *)
Theorem flatOnly_validation config input :
  (FlatOnly.validateInput input = Ok tt <->
   isObjectLike (Some input) = true /\
   nonEmptyArrayOf acceptedItem (prop input "items")) /\
  (validateInput input = Ok tt ->
   (asArray (prop input "items") <> None -> FlatOnly.validateInput input = Ok tt) /\
   (asArray (prop input "items") = None ->
    FlatOnly.analyze config input =
      Some (FlatOnly.Failure "Missing required field: items (array of bullet items)"
              FlatOnly.usageHint))).
Proof.
  split; [apply flatOnly_validateInput_valid|].
  intros Hvalid. apply validateInput_valid in Hvalid.
  destruct Hvalid as [Hobject Hmode]. split.
  - intros Hitems. apply flatOnly_validateInput_valid. split; [exact Hobject|].
    destruct Hmode as [[H _]|[_ H]]; [exact H|congruence].
  - intros Hitems. unfold FlatOnly.analyze, FlatOnly.validateInput.
    rewrite Hobject, Hitems. reflexivity.
Qed.

Lemma flatOnly_validation_witness :
  FlatOnly.validateInput sampleRequest = Ok tt /\
  FlatOnly.validateInput sampleBothModes = Ok tt /\
  (exists message, validateInput sampleBothModes = Throw message) /\
  FlatOnly.analyze defaultConfig sampleSectionedRequest =
    Some (FlatOnly.Failure "Missing required field: items (array of bullet items)"
            FlatOnly.usageHint).
Proof.
  split; [|split; [|split]].
  - apply (proj2 (flatOnly_validation defaultConfig sampleRequest)); [reflexivity|].
    discriminate.
  - apply (proj1 (flatOnly_validation defaultConfig sampleBothModes)).
    split; [reflexivity|]. eexists _, _. split; [reflexivity|].
    repeat constructor.
  - eexists. reflexivity.
  - apply (proj2 (flatOnly_validation defaultConfig sampleSectionedRequest));
      reflexivity.
Defined.

(** ** Lists on which the serial-position rule is silent *)

Lemma no_high_filter items (start : Z) :
  existsb isHigh items = false ->
  filter (fun '(item, _) => isHigh item) (indexedFrom start items) = [].
Proof.
  revert start. induction items as [|item items IH]; intros start; [reflexivity|].
  cbn [existsb indexedFrom filter]. intros H. apply orb_false_iff in H.
  destruct H as [-> Hrest]. now apply IH.
Qed.

(** X18. The serial-position rule gives all 15 points and raises nothing on
    a list of at most three items, on a list of at most four items without
    importance tags, and on any list that has tags of which none is high:
    a [medium] or [low] tag alone silences the general advice that longer
    lists without tags receive. *)
Theorem serial_position_silent items :
  (lengthZ items <= 3 ->
   validateSerialPosition items = Rule.mk "SERIAL_POSITION" 15 15 []) /\
  (lengthZ items <= 4 -> existsb hasTag items = false ->
   validateSerialPosition items = Rule.mk "SERIAL_POSITION" 15 15 []) /\
  (existsb hasTag items = true -> existsb isHigh items = false ->
   validateSerialPosition items = Rule.mk "SERIAL_POSITION" 15 15 []).
Proof.
  split; [|split].
  - intros Hlen. unfold validateSerialPosition.
    destruct (lengthZ items >? 3) eqn:H3; [lia|]. rewrite andb_false_r.
    destruct (lengthZ items >? 4) eqn:H4; [lia|]. reflexivity.
  - intros Hlen Htag. unfold validateSerialPosition. rewrite Htag. cbn [andb].
    destruct (lengthZ items >? 4) eqn:H4; [lia|]. reflexivity.
  - intros Htag Hhigh. unfold validateSerialPosition. rewrite Htag. cbn [andb].
    destruct (lengthZ items >? 3) eqn:H3.
    + unfold indexed. rewrite (no_high_filter items 0 Hhigh). reflexivity.
    + destruct (lengthZ items >? 4) eqn:H4; [lia|]. reflexivity.
Qed.

Lemma serial_position_silent_witness :
  validateSerialPosition sampleItems = Rule.mk "SERIAL_POSITION" 15 15 [] /\
  validateSerialPosition
    [ plain "Open the valve"; plain "Check the gauge"; plain "Close the hatch";
      mkItem "Log the reading" None (Some low); plain "Leave the room";
      plain "Lock the door" ] = Rule.mk "SERIAL_POSITION" 15 15 [].
Proof.
  split.
  - apply (proj1 (serial_position_silent sampleItems)). vm_compute. discriminate.
  - apply (proj2 (proj2 (serial_position_silent _))); reflexivity.
Defined.

(** ** The mean text length *)

Lemma sumZ_between lo hi lengths :
  Forall (fun z => lo <= z <= hi) lengths ->
  lo * lengthZ lengths <= sumZ lengths <= hi * lengthZ lengths.
Proof.
  induction 1 as [|z lengths Hz _ IH].
  - change (lengthZ (@nil Z)) with 0. change (sumZ []) with 0. lia.
  - rewrite sumZ_cons, lengthZ_cons. lia.
Qed.

(** X19. The mean text length of a report is 0 on no items and otherwise
    the rounded mean of the lengths of all texts, children included; it
    lies between the shortest and the longest of them. *)
Theorem avg_line_length_between items lo hi :
  calculateAvgLineLength [] = 0 /\
  (items <> [] ->
   Forall (fun z => lo <= z <= hi) (collectLengths items) ->
   calculateAvgLineLength items =
     JS.roundDiv (sumZ (collectLengths items)) (lengthZ (collectLengths items)) /\
   lo <= calculateAvgLineLength items <= hi).
Proof.
  split; [reflexivity|]. intros Hne Hall.
  unfold calculateAvgLineLength, averageLength.
  destruct items as [|[t cs imp] items]; [congruence|].
  unfold collectLengths in *. cbn [flat_map lengthsOf app] in *.
  match goal with |- context [JS.roundDiv (sumZ ?l) _] => set (lengths := l) in * end.
  split; [reflexivity|].
  pose proof (sumZ_between lo hi lengths Hall) as Hsum.
  assert (Hlen : 0 < lengthZ lengths).
  { unfold lengths. rewrite lengthZ_cons.
    match goal with |- context [lengthZ ?l] => pose proof (lengthZ_nonneg l) end. lia. }
  pose proof (roundDiv_mono (lo * lengthZ lengths) (sumZ lengths) (lengthZ lengths)
                ltac:(lia) Hlen) as Hlo.
  pose proof (roundDiv_mono (sumZ lengths) (hi * lengthZ lengths) (lengthZ lengths)
                ltac:(lia) Hlen) as Hhi.
  rewrite roundDiv_exact in Hlo, Hhi by exact Hlen. lia.
Qed.

Lemma avg_line_length_between_witness :
  calculateAvgLineLength sampleNested = 15 /\
  12 <= calculateAvgLineLength sampleNested <= 20.
Proof.
  split; [reflexivity|].
  apply (proj2 (avg_line_length_between sampleNested 12 20)); [discriminate|].
  repeat apply Forall_cons; [..|apply Forall_nil]; vm_compute; split; discriminate.
Defined.

(** ** Issues under the scores and in the buckets *)

Lemma severity_partition l :
  Permutation
    (filter (hasSeverity error) l ++ filter (hasSeverity warning) l
     ++ filter (hasSeverity suggestion) l) l.
Proof.
  induction l as [|i l IH]; [constructor|]. cbn [filter].
  assert (Hcase : forall sev, hasSeverity sev i = Severity_eqb (Issue.severity i) sev)
    by reflexivity.
  rewrite !Hcase. destruct (Issue.severity i); cbn [Severity_eqb app].
  - apply perm_skip, IH.
  - apply Permutation_sym, Permutation_cons_app, Permutation_sym. exact IH.
  - apply Permutation_sym.
    rewrite app_assoc. apply Permutation_cons_app. rewrite <- app_assoc.
    apply Permutation_sym. exact IH.
Qed.

Lemma scoresOf_skip s keys all :
  ~ In (Rule.rule s) keys ->
  flat_map (fun r => scoresOf r (s :: all)) keys = flat_map (fun r => scoresOf r all) keys.
Proof.
  induction keys as [|k keys IH]; [reflexivity|]. intros Hnot.
  cbn [flat_map]. rewrite IH by (intros H; apply Hnot; now right).
  unfold scoresOf at 1. cbn [filter].
  destruct (String.eqb (Rule.rule s) k) eqn:Hk; [|reflexivity].
  apply String.eqb_eq in Hk. exfalso. apply Hnot. now left.
Qed.

Lemma scoresOf_insert s keys all :
  NoDup keys -> In (Rule.rule s) keys ->
  Permutation (flat_map (fun r => scoresOf r (s :: all)) keys)
    (s :: flat_map (fun r => scoresOf r all) keys).
Proof.
  induction 1 as [|k keys Hk _ IH]; [intros []|]. intros Hin.
  cbn [flat_map]. unfold scoresOf at 1. cbn [filter].
  destruct (String.eqb (Rule.rule s) k) eqn:Heq.
  - apply String.eqb_eq in Heq. subst k. rewrite scoresOf_skip by exact Hk.
    apply Permutation_refl.
  - destruct Hin as [Hin|Hin]; [subst k; now rewrite String.eqb_refl in Heq|].
    eapply Permutation_trans; [apply Permutation_app_head, IH, Hin|].
    apply Permutation_sym, Permutation_middle.
Qed.

Lemma scoresOf_partition keys all :
  NoDup keys -> (forall s, In s all -> In (Rule.rule s) keys) ->
  Permutation (flat_map (fun r => scoresOf r all) keys) all.
Proof.
  intros Hkeys. induction all as [|s all IH]; intros Hall.
  - clear. induction keys as [|k keys IH]; [constructor|exact IH].
  - eapply Permutation_trans; [apply scoresOf_insert; [exact Hkeys|]|].
    + apply Hall. now left.
    + constructor. apply IH. intros s' Hs'. apply Hall. now right.
Qed.

Lemma aggregateRuleScores_issues all :
  Permutation (flat_map Rule.issues (aggregateRuleScores all)) (flat_map Rule.issues all).
Proof.
  rewrite aggregateRuleScores_spec.
  assert (E : forall keys,
    flat_map Rule.issues
      (map (fun r => meanOfRule (lengthZ (scoresOf r all)) r (scoresOf r all)) keys)
    = flat_map Rule.issues (flat_map (fun r => scoresOf r all) keys)).
  { induction keys as [|k keys IH]; [reflexivity|].
    cbn [map flat_map]. rewrite flat_map_app, IH. reflexivity. }
  rewrite E. apply Permutation_flat_map, scoresOf_partition.
  - apply keysOf_NoDup.
  - intros s Hs. apply keysOf_In, in_map, Hs.
Qed.

Lemma issueCore_outputScores config scores :
  map issueCore (flat_map Rule.issues (outputScores config scores)) =
  map issueCore (flat_map Rule.issues scores).
Proof.
  unfold outputScores. destruct (enableResearchCitations config); [reflexivity|].
  rewrite flat_map_issues_mapIssues, map_map. reflexivity.
Qed.

Lemma issueCore_buckets strict (l errs warns suggs : list ValidationIssue) :
  (if strict : bool
   then (filter (hasSeverity error) l ++ map promote (filter (hasSeverity warning) l), [])
   else (filter (hasSeverity error) l, filter (hasSeverity warning) l)) = (errs, warns) ->
  suggs = filter (hasSeverity suggestion) l ->
  Permutation (map issueCore (errs ++ warns ++ suggs)) (map issueCore l).
Proof.
  intros H ->.
  assert (E : map issueCore (errs ++ warns ++ filter (hasSeverity suggestion) l) =
              map issueCore (filter (hasSeverity error) l
                             ++ filter (hasSeverity warning) l
                             ++ filter (hasSeverity suggestion) l)).
  { destruct strict; injection H as <- <-; [|reflexivity].
    rewrite !map_app, map_map, <- app_assoc. reflexivity. }
  rewrite E. apply Permutation_map, severity_partition.
Qed.

Lemma analyzeFlat_conserves config items context title description intro a :
  analyzeFlat config items context title description intro = Ok a ->
  Permutation (map issueCore (bucketIssues a)) (map issueCore (scoreIssues a)).
Proof.
  unfold analyzeFlat.
  destruct (runValidators items) as [scores|m]; [|discriminate].
  cbn [bind]. intros Ha.
  assert (E : scoreIssues a = flat_map Rule.issues (outputScores config scores))
    by (destruct (strictMode config); injection Ha as <-; reflexivity).
  rewrite E, issueCore_outputScores. unfold bucketIssues.
  apply (issueCore_buckets (strictMode config));
    destruct (strictMode config); injection Ha as <-; reflexivity.
Qed.

Lemma analyzeSections_conserves config sections globalContext title description intro a :
  analyzeSections config sections globalContext title description intro = Ok a ->
  Permutation (map issueCore (bucketIssues a)) (map issueCore (scoreIssues a)).
Proof.
  unfold analyzeSections.
  destruct (forEachResult _ sections initialTotals) as [totals|m] eqn:Hloop;
    [|discriminate].
  destruct (sections_loop _ _ _ _ Hloop) as [blocks [_ [Hrules [_ [He [Hw Hs]]]]]].
  cbn [initialTotals allRuleScores allErrors allWarnings allSuggestions app]
    in Hrules, He, Hw, Hs.
  cbn [bind]. rewrite He, Hw, Hs, Hrules. intros Ha.
  assert (E : scoreIssues a =
              flat_map Rule.issues
                (outputScores config (aggregateRuleScores (List.concat blocks)))).
  { destruct (strictMode config);
      (destruct (generateSectionedSummary _ _ _) as [summary|m]; [|discriminate]);
      cbn [bind] in Ha; injection Ha as <-; reflexivity. }
  rewrite E, issueCore_outputScores.
  eapply Permutation_trans;
    [|apply Permutation_map, Permutation_sym, aggregateRuleScores_issues].
  unfold bucketIssues.
  apply (issueCore_buckets (strictMode config));
  destruct (strictMode config);
    (destruct (generateSectionedSummary _ _ _) as [summary|m]; [|discriminate]);
    cbn [bind] in Ha; injection Ha as <-; reflexivity.
Qed.

(** X20. No issue is lost or invented between the rule scores and the
    buckets of a report: in both modes and under every configuration, the
    errors, warnings and suggestions taken together are the issues listed
    under [scores], in another order and up to the severity and the
    citation; in particular there are as many of the ones as of the others. *)
Theorem issues_conserved config input a :
  analyze config input = Some (Report a) ->
  Permutation (map issueCore (bucketIssues a)) (map issueCore (scoreIssues a)) /\
  lengthZ (bucketIssues a) = lengthZ (scoreIssues a).
Proof.
  intros Ha.
  assert (H : Permutation (map issueCore (bucketIssues a)) (map issueCore (scoreIssues a))).
  { unfold analyze in Ha. destruct (validateInput input); [|discriminate].
    destruct (decodeInput input) as [bulletInput|]; [|discriminate].
    destruct (dispatch _ bulletInput) as [a'|m] eqn:Hdispatch; [|discriminate].
    injection Ha as ->. unfold dispatch in Hdispatch.
    destruct (Input.sections bulletInput) as [[|first rest]|];
      try (destruct (Input.items bulletInput); [|discriminate]);
      first [ now apply analyzeFlat_conserves in Hdispatch
            | now apply analyzeSections_conserves in Hdispatch ]. }
  split; [exact H|].
  apply Permutation_length in H. rewrite !length_map in H.
  unfold lengthZ. now rewrite H.
Qed.

Lemma issues_conserved_witness :
  exists a,
    analyze (mkConfig true false) sampleSectionedRequest = Some (Report a) /\
    lengthZ (scoreIssues a) = 6 /\
    Permutation (map issueCore (bucketIssues a)) (map issueCore (scoreIssues a)) /\
    lengthZ (bucketIssues a) = lengthZ (scoreIssues a).
Proof.
  assert (H : exists a,
            analyze (mkConfig true false) sampleSectionedRequest = Some (Report a) /\
            lengthZ (scoreIssues a) = 6).
  { eexists. split; [vm_compute; reflexivity|reflexivity]. }
  destruct H as [a [Ha Hcount]].
  exists a. split; [exact Ha|]. split; [exact Hcount|].
  exact (issues_conserved (mkConfig true false) sampleSectionedRequest a Ha).
Defined.

(** ** The range of a sectioned score *)

Lemma reportsSection_range globalContext section entry :
  reportsSection globalContext section entry -> 0 <= SectionScore.score entry <= 100.
Proof.
  intros [flat [Hflat [_ [_ [-> _]]]]].
  destruct (analyzeFlat_Ok _ _ _ _ _ _ _ Hflat) as [scores [Hrun [-> _]]].
  rewrite percentage_id. exact (runValidators_totalEarned _ _ Hrun).
Qed.

(** X21. The overall score of a sectioned report is the rounded mean of the
    scores of its sections, of which there is at least one; each of them
    lies between 0 and 100, and the overall score lies between the lowest
    and the highest of them, so between 0 and 100 too. *)
Theorem sectioned_score_range config sections globalContext title description intro a :
  analyzeSections config sections globalContext title description intro = Ok a ->
  exists entries,
    Analysis.section_scores a = Some entries /\
    entries <> [] /\
    Forall (fun e => 0 <= SectionScore.score e <= 100) entries /\
    Analysis.overall_score a =
      JS.roundDiv (sumZ (map SectionScore.score entries)) (lengthZ entries) /\
    (forall lo hi,
       Forall (fun e => lo <= SectionScore.score e <= hi) entries ->
       lo <= Analysis.overall_score a <= hi) /\
    0 <= Analysis.overall_score a <= 100.
Proof.
  unfold analyzeSections.
  destruct (forEachResult _ sections initialTotals) as [totals|m] eqn:Hloop;
    [|discriminate].
  destruct (sections_loop_entries _ _ _ _ Hloop) as [entries [Hentries Hall]].
  cbn [initialTotals sectionScores app] in Hentries.
  cbn [bind]. rewrite Hentries. intros Ha. exists entries.
  assert (Hne : entries <> []).
  { intros ->. destruct (strictMode config); discriminate. }
  assert (E : Analysis.section_scores a = Some entries /\
              Analysis.overall_score a =
                JS.roundDiv (sumZ (map SectionScore.score entries)) (lengthZ entries)).
  { rewrite <- sumScores_map.
    destruct (strictMode config);
      (destruct (generateSectionedSummary _ _ _) as [summary|m]; [|discriminate]);
      cbn [bind] in Ha; injection Ha as <-; split; reflexivity. }
  destruct E as [Hsome Hoverall].
  assert (Hrange : Forall (fun e => 0 <= SectionScore.score e <= 100) entries).
  { clear -Hall. induction Hall as [|section entry sections entries H _ IH];
      constructor; [exact (reportsSection_range _ _ _ H)|exact IH]. }
  assert (Hbetween : forall lo hi,
            Forall (fun e => lo <= SectionScore.score e <= hi) entries ->
            lo <= Analysis.overall_score a <= hi).
  { intros lo hi Hlohi. rewrite Hoverall.
    assert (Hlen : 0 < lengthZ entries).
    { destruct entries as [|e entries']; [congruence|].
      rewrite lengthZ_cons. pose proof (lengthZ_nonneg entries'). lia. }
    pose proof (sumZ_between lo hi (map SectionScore.score entries)
                  ltac:(now apply Forall_map)) as Hsum.
    rewrite lengthZ_map in Hsum.
    pose proof (roundDiv_mono (lo * lengthZ entries)
                  (sumZ (map SectionScore.score entries)) (lengthZ entries)
                  ltac:(lia) Hlen) as Hlo.
    pose proof (roundDiv_mono (sumZ (map SectionScore.score entries))
                  (hi * lengthZ entries) (lengthZ entries) ltac:(lia) Hlen) as Hhi.
    rewrite roundDiv_exact in Hlo, Hhi by exact Hlen. lia. }
  split; [exact Hsome|]. split; [exact Hne|]. split; [exact Hrange|].
  split; [exact Hoverall|]. split; [exact Hbetween|].
  now apply Hbetween.
Qed.

Lemma sectioned_score_range_witness :
  exists a entries,
    analyzeSections defaultConfig sampleSections document None None None = Ok a /\
    Analysis.section_scores a = Some entries /\
    map SectionScore.score entries = [94; 88] /\
    Analysis.overall_score a = 91 /\
    88 <= Analysis.overall_score a <= 94.
Proof.
  assert (H : exists a,
            analyzeSections defaultConfig sampleSections document None None None = Ok a /\
            option_map (map SectionScore.score) (Analysis.section_scores a)
              = Some [94; 88] /\
            Analysis.overall_score a = 91).
  { eexists. split; [vm_compute; reflexivity|]. split; reflexivity. }
  destruct H as [a [Ha [Hscores Hoverall]]].
  destruct (sectioned_score_range defaultConfig sampleSections document None None None
              a Ha) as [entries [Hentries [_ [_ [_ [Hbetween _]]]]]].
  exists a, entries. rewrite Hentries in Hscores. cbn [option_map] in Hscores.
  injection Hscores as Hscores.
  split; [exact Ha|]. split; [exact Hentries|]. split; [exact Hscores|].
  split; [exact Hoverall|]. apply Hbetween.
  apply (proj1 (Forall_map SectionScore.score (fun z => 88 <= z <= 94) entries)).
  rewrite Hscores.
  repeat apply Forall_cons; [..|apply Forall_nil]; lia.
Defined.

(** ** Errors and the score *)

Ltac mild_pushed Hacc :=
  cbn [fst]; first
    [ exact Hacc
    | apply Forall_app; split; [exact Hacc|];
      apply Forall_cons; [discriminate|apply Forall_nil] ].

Lemma mild_checkItem item : forall index acc,
  Forall mild (fst acc) -> Forall mild (fst (checkItem item index acc)).
Proof.
  induction item as [t cs imp IH] using BulletItem_nested_ind.
  intros index acc Hacc. cbn [checkItem].
  assert (Hown : Forall mild (fst (checkOwnLength t index acc))).
  { unfold checkOwnLength. destruct acc as [issues totalPenalty]. cbn [fst] in Hacc.
    repeat match goal with |- context [if ?b then _ else _] => destruct b end;
      mild_pushed Hacc. }
  destruct cs as [l|]; [|exact Hown].
  now apply tagged_forEachChild.
Qed.

Lemma mild_validateLineLength items : Forall mild (Rule.issues (validateLineLength items)).
Proof.
  unfold validateLineLength.
  pose proof (fold_left_keeps mild
                (fun acc '(item, index) => checkItem item index acc)
                (indexed items)) as H.
  specialize (H ltac:(intros acc [item index]; apply mild_checkItem) ([], 0)
                ltac:(constructor)).
  destruct (fold_left _ _ _) as [issues totalPenalty]. exact H.
Qed.

Lemma mild_validateSerialPosition items :
  Forall mild (Rule.issues (validateSerialPosition items)).
Proof.
  unfold validateSerialPosition.
  destruct (existsb hasTag items && (lengthZ items >? 3))%bool.
  - assert (Hstep : forall acc entry,
              Forall mild (fst acc) ->
              Forall mild (fst (checkPosition (lengthZ items) acc entry))).
    { intros [issues points] [item index] Hacc. unfold checkPosition.
      cbn [fst] in Hacc.
      repeat match goal with |- context [if ?b then _ else _] => destruct b end;
        mild_pushed Hacc. }
    pose proof (fold_left_keeps mild (checkPosition (lengthZ items))
                  (filter (fun '(item, _) => isHigh item) (indexed items))
                  Hstep ([], SERIAL_POSITION.POINTS) ltac:(constructor)) as H.
    destruct (fold_left _ _ _) as [issues points]. exact H.
  - destruct (lengthZ items >? 4); fields; repeat constructor. discriminate.
Qed.

Lemma mild_validateStructure items : Forall mild (Rule.issues (validateStructure items)).
Proof.
  unfold validateStructure.
  destruct (lengthZ items <? 2); [constructor|].
  destruct (getMostCommon _ _) as [dominant|]; [|constructor].
  assert (Hstep : forall acc entry,
            Forall mild (fst acc) -> Forall mild (fst (checkPattern dominant acc entry))).
  { intros [issues points] [pattern index] Hacc. unfold checkPattern.
    cbn [fst] in Hacc.
    repeat match goal with |- context [if ?b then _ else _] => destruct b end;
      mild_pushed Hacc. }
  pose proof (fold_left_keeps mild (checkPattern dominant)
                (indexed (map (fun item => detectGrammarPattern (text item)) items))
                Hstep ([], STRUCTURE.POINTS) ltac:(constructor)) as H.
  destruct (fold_left _ _ _) as [issues points]. exact H.
Qed.

Lemma mild_validateFirstWords items : Forall mild (Rule.issues (validateFirstWords items)).
Proof.
  unfold validateFirstWords.
  assert (Hstep : forall acc entry,
            Forall mild (fst acc) -> Forall mild (fst (checkGroup acc entry))).
  { intros [issues points] [words indices] Hacc. unfold checkGroup.
    cbn [fst] in Hacc.
    repeat match goal with |- context [if ?b then _ else _] => destruct b end;
      mild_pushed Hacc. }
  match goal with |- context [fold_left checkGroup ?seen ?acc] =>
    pose proof (fold_left_keeps mild checkGroup seen Hstep acc ltac:(constructor)) as H;
    destruct (fold_left checkGroup seen acc) as [issues points]
  end.
  exact H.
Qed.

Lemma mild_validateFormatting items r :
  validateFormatting items = Ok r -> Forall mild (Rule.issues r).
Proof.
  intros H. apply formatting_outcome in H. destruct H as [_ [H _]].
  eapply Forall_impl; [|exact H]. intros i Hi. unfold mild. rewrite Hi. discriminate.
Qed.

Lemma mild_no_error s : Forall mild (Rule.issues s) -> ~ hasError s.
Proof.
  intros Hall [i [Hin Herror]]. rewrite Forall_forall in Hall. exact (Hall i Hin Herror).
Qed.

Lemma error_validateListLength items :
  hasError (validateListLength items) ->
  Rule.earned_points (validateListLength items) = 0.
Proof.
  unfold validateListLength, hasError.
  repeat match goal with |- context [if ?b then _ else _] => destruct b end;
    fields; intros [i [Hin Herror]]; try reflexivity;
    repeat (destruct Hin as [<-|Hin]; [discriminate|]); destruct Hin.
Qed.

Lemma error_validateHierarchy items :
  hasError (validateHierarchy items) ->
  Rule.earned_points (validateHierarchy items) = 0.
Proof.
  unfold validateHierarchy, hasError.
  repeat match goal with |- context [if ?b then _ else _] => destruct b end;
    fields; intros [i [Hin Herror]]; try reflexivity;
    repeat (destruct Hin as [<-|Hin]; [discriminate|]); destruct Hin.
Qed.

Lemma runValidators_errors items scores :
  runValidators items = Ok scores ->
  Exists hasError scores -> totalEarnedOf scores <= 85.
Proof.
  intros Hrun Herror.
  pose proof (runValidators_shape _ _ Hrun) as [_ [Hmax Hbounds]].
  unfold runValidators in Hrun.
  destruct (validateFormatting items) as [r|m] eqn:Hf; [|discriminate].
  cbn [bind] in Hrun. injection Hrun as <-.
  cbn [map] in Hmax. injection Hmax as M1 M2 M3 M4 M5 M6 M7.
  repeat match goal with
         | H : Forall withinBounds (_ :: _) |- _ =>
             let Hs := fresh "B" in
             let Hrest := fresh "Hrest" in
             inversion H as [|? ? Hs Hrest]; subst; clear H
         end.
  unfold withinBounds in *.
  rewrite !totalEarnedOf_cons. change (totalEarnedOf []) with 0.
  points.
  repeat match goal with
         | H : Exists hasError (_ :: _) |- _ =>
             let Hhere := fresh "Hhere" in
             let Hthere := fresh "Hthere" in
             inversion H as [? ? Hhere|? ? Hthere]; subst; clear H
         | H : Exists hasError [] |- _ => inversion H
         end.
  - rewrite (error_validateListLength items) by assumption. lia.
  - rewrite (error_validateHierarchy items) by assumption. lia.
  - exfalso. eapply mild_no_error; [apply mild_validateLineLength|eassumption].
  - exfalso. eapply mild_no_error; [apply mild_validateSerialPosition|eassumption].
  - exfalso. eapply mild_no_error; [apply mild_validateStructure|eassumption].
  - exfalso. eapply mild_no_error; [apply mild_validateFirstWords|eassumption].
  - exfalso. eapply mild_no_error; [exact (mild_validateFormatting items r Hf)|eassumption].
Qed.

Lemma error_in_scores scores i :
  In i (flat_map Rule.issues scores) -> Issue.severity i = error ->
  Exists hasError scores.
Proof.
  intros Hin Herror. apply in_flat_map in Hin. destruct Hin as [s [Hs Hi]].
  apply Exists_exists. exists s. split; [exact Hs|]. exists i. now split.
Qed.

(** X22. Without strict mode an error caps the score of a flat report at 85:
    only the list-length and the hierarchy rule raise errors, and each
    forfeits all its points when it does.  So a report that scores 86 or
    more has no error, and its summary depends on the score alone: it is
    the excellent one from 90 on and the good one from 86 to 89. *)
Theorem errors_cap_the_score citations items context title description intro a :
  analyzeFlat (mkConfig false citations) items context title description intro = Ok a ->
  (Analysis.errors a <> [] -> Analysis.overall_score a <= 85) /\
  (90 <= Analysis.overall_score a ->
   Analysis.summary a = "Excellent bullet list following evidence-based best practices.") /\
  (86 <= Analysis.overall_score a < 90 ->
   Analysis.summary a = "Good bullet list with minor improvements possible.").
Proof.
  unfold analyzeFlat.
  destruct (runValidators items) as [scores|m] eqn:Hrun; [|discriminate].
  cbn [bind strictMode]. intros [= <-].
  cbn [Analysis.errors Analysis.overall_score Analysis.summary].
  rewrite percentage_id.
  assert (Hcap : filter (hasSeverity error) (flat_map Rule.issues scores) <> [] ->
                 totalEarnedOf scores <= 85).
  { intros Hne. apply (runValidators_errors items scores Hrun).
    destruct (filter _ _) as [|i l] eqn:Hfilter; [congruence|].
    assert (Hin : In i (filter (hasSeverity error) (flat_map Rule.issues scores)))
      by (rewrite Hfilter; now left).
    apply filter_In in Hin. destruct Hin as [Hin Hsev].
    apply hasSeverity_eq in Hsev. exact (error_in_scores scores i Hin Hsev). }
  assert (Hnone : 86 <= totalEarnedOf scores ->
                  filter (hasSeverity error) (flat_map Rule.issues scores) = []).
  { intros Hscore. destruct (filter _ _) as [|i l] eqn:Hfilter; [reflexivity|].
    assert (totalEarnedOf scores <= 85) by (apply Hcap; discriminate). lia. }
  split; [exact Hcap|]. split; intros Hscore.
  - rewrite Hnone by lia. unfold generateSummary.
    destruct (totalEarnedOf scores >=? 90) eqn:H90; [reflexivity|lia].
  - rewrite Hnone by lia. unfold generateSummary.
    destruct (totalEarnedOf scores >=? 90) eqn:H90; [lia|].
    destruct (totalEarnedOf scores >=? 80) eqn:H80; [reflexivity|lia].
Qed.

Lemma errors_cap_the_score_witness :
  exists a,
    analyzeFlat defaultConfig sampleLong document None None None = Ok a /\
    Analysis.errors a <> [] /\
    Analysis.overall_score a = 80 /\
    Analysis.overall_score a <= 85.
Proof.
  assert (H : exists a,
            analyzeFlat defaultConfig sampleLong document None None None = Ok a /\
            Analysis.errors a <> [] /\ Analysis.overall_score a = 80).
  { eexists. split; [vm_compute; reflexivity|]. split; [discriminate|reflexivity]. }
  destruct H as [a [Ha [Herrors Hscore]]].
  exists a. split; [exact Ha|]. split; [exact Herrors|]. split; [exact Hscore|].
  exact (proj1 (errors_cap_the_score true sampleLong document None None None a Ha)
           Herrors).
Defined.
